(** * The Chimera browser view: session navigation, result synthesis,
      downloads, bookmarks and the persistent store.

    A shallow embedding of the [BrowserView] component (the version that keeps
    its session in [localStorage] through [usePersistentState]).  Each React
    state cell is a field of [State]; each event handler is a function on
    [State] that performs the handler's [setX] calls; the effect that
    re-derives the page from the URL runs after a handler whenever the URL
    changed, as [useEffect(..., [url])] does.

    JavaScript strings are sequences of UTF-16 code units, numbers that the
    code only uses as integers are [Z], and download progress, the one
    fractional quantity, is an exact rational. *)

From Stdlib Require Import ZArith NArith QArith Qround String Ascii Lia Lqa.
From stdpp Require Import base list gmap.

(** ** JavaScript strings and the built-ins the component calls *)

Module Js.

(** A string value: its UTF-16 code units. *)
Abbreviation str := (list N).

(** A source-code literal (ASCII) as a string value. *)
Definition lit (s : String.string) : str :=
  List.map N_of_ascii (list_ascii_of_string s).

(** Every code unit fits in sixteen bits. *)
Definition wf (s : str) : Prop := Forall (fun c => (c < 65536)%N) s.

(** [a === b] on strings. *)
Fixpoint eqb (a b : str) : bool :=
  match a, b with
  | [], [] => true
  | x :: a', y :: b' => N.eqb x y && eqb a' b'
  | _, _ => false
  end.

(** [s.startsWith(p)] *)
Fixpoint startsWith (p s : str) : bool :=
  match p, s with
  | [], _ => true
  | x :: p', y :: s' => N.eqb x y && startsWith p' s'
  | _ :: _, [] => false
  end.

(** [s.includes(sub)] *)
Fixpoint includes (sub s : str) : bool :=
  startsWith sub s ||
  match s with
  | [] => false
  | _ :: s' => includes sub s'
  end.

(** WhiteSpace and LineTerminator code points: what [trim] strips and what
    [\s] matches. *)
Definition isWhiteSpace (c : N) : bool :=
  ((9 <=? c) && (c <=? 13) || (c =? 32) || (c =? 160) || (c =? 5760)
   || (8192 <=? c) && (c <=? 8202) || (c =? 8232) || (c =? 8233)
   || (c =? 8239) || (c =? 8287) || (c =? 12288) || (c =? 65279))%N.

Fixpoint dropWhile (f : N -> bool) (s : str) : str :=
  match s with
  | [] => []
  | c :: s' => if f c then dropWhile f s' else s
  end.

(** [s.trim()] *)
Definition trim (s : str) : str :=
  rev (dropWhile isWhiteSpace (rev (dropWhile isWhiteSpace s))).

(** [s.replace(/\s+/g, '-')]: every maximal run of white space becomes one
    dash. *)
Fixpoint replaceWsRuns (inRun : bool) (s : str) : str :=
  match s with
  | [] => []
  | c :: s' =>
      if isWhiteSpace c
      then (if inRun then replaceWsRuns true s' else 45%N :: replaceWsRuns true s')
      else c :: replaceWsRuns false s'
  end.

(** First occurrence of a non-empty separator: the text before it and the
    text after it. *)
Fixpoint breakOn (sep s : str) : option (str * str) :=
  if startsWith sep s then Some ([], drop (length sep) s)
  else match s with
       | [] => None
       | c :: s' =>
           match breakOn sep s' with
           | Some (a, b) => Some (c :: a, b)
           | None => None
           end
       end.

(** [s.split(sep)[1]] for a non-empty [sep]: [None] is [undefined]. *)
Definition splitSecond (sep s : str) : option str :=
  match breakOn sep s with
  | None => None
  | Some (_, rest) =>
      match breakOn sep rest with
      | None => Some rest
      | Some (piece, _) => Some piece
      end
  end.

(** [x || ''] where [x] is a string or [undefined]. *)
Definition orEmpty (x : option str) : str :=
  match x with Some s => s | None => [] end.

(** *** Number to decimal string *)

Fixpoint digitsAcc (fuel : nat) (n : N) (acc : str) : str :=
  match fuel with
  | O => acc
  | S fuel' =>
      let acc' := (48 + n mod 10)%N :: acc in
      if (n / 10 =? 0)%N then acc' else digitsAcc fuel' (n / 10)%N acc'
  end.

Definition N_toString (n : N) : str :=
  digitsAcc (S (N.to_nat (N.log2 n))) n [].

(** [n.toString()] for an integer-valued number. *)
Definition toString (z : Z) : str :=
  if (z <? 0)%Z then 45%N :: N_toString (Z.to_N (- z)) else N_toString (Z.to_N z).

(** *** encodeURIComponent / decodeURIComponent *)

Definition isAlnum (c : N) : bool :=
  ((48 <=? c) && (c <=? 57) || (65 <=? c) && (c <=? 90)
   || (97 <=? c) && (c <=? 122))%N.

(** The characters [encodeURIComponent] leaves alone:
    letters, digits and [- _ . ! ~ * ' ( )]. *)
Definition isUnreserved (c : N) : bool :=
  (isAlnum c || (c =? 45) || (c =? 95) || (c =? 46) || (c =? 33)
   || (c =? 126) || (c =? 42) || (c =? 39) || (c =? 40) || (c =? 41))%N.

Definition hexDigit (d : N) : N :=
  (if d <? 10 then 48 + d else 55 + d)%N.

(** [%XX], upper-case hexadecimal. *)
Definition pct (b : N) : str :=
  [37%N; hexDigit (b / 16); hexDigit (b mod 16)].

(** The UTF-8 octets of a code point. *)
Definition utf8 (cp : N) : list N :=
  (if cp <? 128 then [cp]
   else if cp <? 2048 then [192 + cp / 64; 128 + cp mod 64]
   else if cp <? 65536 then
     [224 + cp / 4096; 128 + (cp / 64) mod 64; 128 + cp mod 64]
   else [240 + cp / 262144; 128 + (cp / 4096) mod 64;
         128 + (cp / 64) mod 64; 128 + cp mod 64])%N.

Definition isLead (c : N) : bool := ((55296 <=? c) && (c <=? 56319))%N.
Definition isTrail (c : N) : bool := ((56320 <=? c) && (c <=? 57343))%N.

Definition pctAll (bs : list N) : str := List.concat (List.map pct bs).

(** [encodeURIComponent(s)]; [None] is the URIError thrown at an unpaired
    surrogate. *)
Fixpoint encodeURIComponent (s : str) : option str :=
  match s with
  | [] => Some []
  | c :: rest =>
      if isUnreserved c then
        match encodeURIComponent rest with
        | Some r => Some (c :: r)
        | None => None
        end
      else if isTrail c then None
      else if isLead c then
        match rest with
        | d :: rest' =>
            if isTrail d then
              match encodeURIComponent rest' with
              | Some r =>
                  Some (pctAll (utf8 (65536 + (c - 55296) * 1024 + (d - 56320))%N) ++ r)
              | None => None
              end
            else None
        | [] => None
        end
      else
        match encodeURIComponent rest with
        | Some r => Some (pctAll (utf8 c) ++ r)
        | None => None
        end
  end.

Definition hexVal (c : N) : option N :=
  (if (48 <=? c) && (c <=? 57) then Some (c - 48)
   else if (65 <=? c) && (c <=? 70) then Some (c - 55)
   else if (97 <=? c) && (c <=? 102) then Some (c - 87)
   else None)%N.

(** Reads one [%XX] escape. *)
Definition readPct (s : str) : option (N * str) :=
  match s with
  | p :: h :: l :: rest =>
      if (p =? 37)%N then
        match hexVal h, hexVal l with
        | Some a, Some b => Some (16 * a + b, rest)%N
        | _, _ => None
        end
      else None
  | _ => None
  end.

Definition isCont (b : N) : bool := ((128 <=? b) && (b <=? 191))%N.

(** The code point of a UTF-8 sequence whose first octet is [b0] (at least
    128), read from the escapes that follow; [None] when the octets are not
    the UTF-8 encoding of a code point. *)
Definition readCodePoint (b0 : N) (s : str) : option (N * str) :=
  (if (194 <=? b0) && (b0 <=? 223) then
     match readPct s with
     | Some (b1, s1) =>
         if isCont b1 then Some ((b0 - 192) * 64 + (b1 - 128), s1) else None
     | None => None
     end
   else if (224 <=? b0) && (b0 <=? 239) then
     match readPct s with
     | Some (b1, s1) =>
         match readPct s1 with
         | Some (b2, s2) =>
             let cp := (b0 - 224) * 4096 + (b1 - 128) * 64 + (b2 - 128) in
             if isCont b1 && isCont b2 && (2048 <=? cp)
                && negb ((55296 <=? cp) && (cp <=? 57343))
             then Some (cp, s2) else None
         | None => None
         end
     | None => None
     end
   else if (240 <=? b0) && (b0 <=? 244) then
     match readPct s with
     | Some (b1, s1) =>
         match readPct s1 with
         | Some (b2, s2) =>
             match readPct s2 with
             | Some (b3, s3) =>
                 let cp := (b0 - 240) * 262144 + (b1 - 128) * 4096
                           + (b2 - 128) * 64 + (b3 - 128) in
                 if isCont b1 && isCont b2 && isCont b3 && (65536 <=? cp)
                    && (cp <=? 1114111)
                 then Some (cp, s3) else None
             | None => None
             end
         | None => None
         end
     | None => None
     end
   else None)%N.

(** The UTF-16 code units of a code point. *)
Definition utf16 (cp : N) : str :=
  (if cp <? 65536 then [cp]
   else [55296 + (cp - 65536) / 1024; 56320 + (cp - 65536) mod 1024])%N.

Fixpoint decodeFuel (fuel : nat) (s : str) : option str :=
  match fuel with
  | O => match s with [] => Some [] | _ => None end
  | S fuel' =>
      match s with
      | [] => Some []
      | c :: rest =>
          if (c =? 37)%N then
            match readPct s with
            | Some (b0, s0) =>
                if (b0 <? 128)%N then
                  match decodeFuel fuel' s0 with
                  | Some r => Some (b0 :: r)
                  | None => None
                  end
                else
                  match readCodePoint b0 s0 with
                  | Some (cp, s1) =>
                      match decodeFuel fuel' s1 with
                      | Some r => Some (utf16 cp ++ r)
                      | None => None
                      end
                  | None => None
                  end
            | None => None
            end
          else
            match decodeFuel fuel' rest with
            | Some r => Some (c :: r)
            | None => None
            end
      end
  end.

(** [decodeURIComponent(s)]; [None] is the URIError thrown at a malformed
    escape.  Every step consumes at least one code unit, so the length of
    the input is enough fuel. *)
Definition decodeURIComponent (s : str) : option str :=
  decodeFuel (length s) s.

End Js.


(** ** Data model (the component's interfaces) *)

Module Bookmark.
Record t := mk { id : Js.str; title : Js.str; url : Js.str; createdAt : Z }.
End Bookmark.

Module HistoryItem.
Record t := mk { id : Js.str; title : Js.str; url : Js.str; timestamp : Z }.
End HistoryItem.

Inductive DownloadStatus := downloading | completed | error.
Inductive DownloadType := video | file.

Module DownloadItem.
Record t := mk {
  id : Js.str;
  filename : Js.str;
  progress : Q;
  status : DownloadStatus;
  size : Js.str;
  type : DownloadType;
  date : Z
}.
End DownloadItem.

Module SearchResult.
Record t := mk {
  id : Js.str;
  title : Js.str;
  url : Js.str;
  snippet : Js.str;
  ads : bool
}.
End SearchResult.

Record AdBlockStats := mkAdBlock {
  enabled : bool;
  totalBlocked : Z;
  sessionBlocked : Z;
  strictMode : bool
}.

Inductive Page := newtab | search | external.

(** The state cells of [BrowserView] that the handlers below read or write.
    (The theme, the panel toggles other than the downloads panel, the media
    URL box and the network sample are left out: no handler modelled here
    touches them.) *)
Record State := mkState {
  url : Js.str;
  history : list Js.str;
  historyIndex : Z;
  inputValue : Js.str;
  isLoading : bool;
  internalPage : Page;
  searchQuery : Js.str;
  bookmarks : list Bookmark.t;
  visitedHistory : list HistoryItem.t;
  downloads : list DownloadItem.t;
  showDownloads : bool;
  searchResults : list SearchResult.t;
  adBlockStats : AdBlockStats
}.

(** What one event takes from the platform: the successive values of
    [Date.now()] and of [Math.random()], and the URL parser, as
    [new URL(u).hostname] ([None] when the constructor throws). *)
Record Ambient := mkAmbient {
  dateNow : nat -> Z;
  random : nat -> Q;
  hostname : Js.str -> option Js.str
}.

Definition setUrl (v : Js.str) (s : State) : State :=
  mkState v (history s) (historyIndex s) (inputValue s) (isLoading s)
    (internalPage s) (searchQuery s) (bookmarks s) (visitedHistory s)
    (downloads s) (showDownloads s) (searchResults s) (adBlockStats s).
Definition setHistory (v : list Js.str) (s : State) : State :=
  mkState (url s) v (historyIndex s) (inputValue s) (isLoading s)
    (internalPage s) (searchQuery s) (bookmarks s) (visitedHistory s)
    (downloads s) (showDownloads s) (searchResults s) (adBlockStats s).
Definition setHistoryIndex (v : Z) (s : State) : State :=
  mkState (url s) (history s) v (inputValue s) (isLoading s)
    (internalPage s) (searchQuery s) (bookmarks s) (visitedHistory s)
    (downloads s) (showDownloads s) (searchResults s) (adBlockStats s).
Definition setInputValue (v : Js.str) (s : State) : State :=
  mkState (url s) (history s) (historyIndex s) v (isLoading s)
    (internalPage s) (searchQuery s) (bookmarks s) (visitedHistory s)
    (downloads s) (showDownloads s) (searchResults s) (adBlockStats s).
Definition setIsLoading (v : bool) (s : State) : State :=
  mkState (url s) (history s) (historyIndex s) (inputValue s) v
    (internalPage s) (searchQuery s) (bookmarks s) (visitedHistory s)
    (downloads s) (showDownloads s) (searchResults s) (adBlockStats s).
Definition setInternalPage (v : Page) (s : State) : State :=
  mkState (url s) (history s) (historyIndex s) (inputValue s) (isLoading s)
    v (searchQuery s) (bookmarks s) (visitedHistory s)
    (downloads s) (showDownloads s) (searchResults s) (adBlockStats s).
Definition setSearchQuery (v : Js.str) (s : State) : State :=
  mkState (url s) (history s) (historyIndex s) (inputValue s) (isLoading s)
    (internalPage s) v (bookmarks s) (visitedHistory s)
    (downloads s) (showDownloads s) (searchResults s) (adBlockStats s).
Definition setBookmarks (v : list Bookmark.t) (s : State) : State :=
  mkState (url s) (history s) (historyIndex s) (inputValue s) (isLoading s)
    (internalPage s) (searchQuery s) v (visitedHistory s)
    (downloads s) (showDownloads s) (searchResults s) (adBlockStats s).
Definition setVisitedHistory (v : list HistoryItem.t) (s : State) : State :=
  mkState (url s) (history s) (historyIndex s) (inputValue s) (isLoading s)
    (internalPage s) (searchQuery s) (bookmarks s) v
    (downloads s) (showDownloads s) (searchResults s) (adBlockStats s).
Definition setDownloads (v : list DownloadItem.t) (s : State) : State :=
  mkState (url s) (history s) (historyIndex s) (inputValue s) (isLoading s)
    (internalPage s) (searchQuery s) (bookmarks s) (visitedHistory s)
    v (showDownloads s) (searchResults s) (adBlockStats s).
Definition setShowDownloads (v : bool) (s : State) : State :=
  mkState (url s) (history s) (historyIndex s) (inputValue s) (isLoading s)
    (internalPage s) (searchQuery s) (bookmarks s) (visitedHistory s)
    (downloads s) v (searchResults s) (adBlockStats s).
Definition setSearchResults (v : list SearchResult.t) (s : State) : State :=
  mkState (url s) (history s) (historyIndex s) (inputValue s) (isLoading s)
    (internalPage s) (searchQuery s) (bookmarks s) (visitedHistory s)
    (downloads s) (showDownloads s) v (adBlockStats s).
Definition setAdBlockStats (v : AdBlockStats) (s : State) : State :=
  mkState (url s) (history s) (historyIndex s) (inputValue s) (isLoading s)
    (internalPage s) (searchQuery s) (bookmarks s) (visitedHistory s)
    (downloads s) (showDownloads s) (searchResults s) v.

(** The "new tab" address. *)
Definition newtabUrl : Js.str := Js.lit "chimera://newtab".

(** The seeded defaults of the state cells, at a first load that happens at
    time [t]. *)
Definition initialState (t : Z) : State :=
  mkState newtabUrl [newtabUrl] 0 [] false newtab []
    [ Bookmark.mk (Js.lit "1") (Js.lit "Wikipedia") (Js.lit "https://www.wikipedia.org") t;
      Bookmark.mk (Js.lit "2") (Js.lit "Hacker News") (Js.lit "https://news.ycombinator.com") t;
      Bookmark.mk (Js.lit "3") (Js.lit "EFF") (Js.lit "https://www.eff.org") t ]
    [ HistoryItem.mk (Js.lit "init") (Js.lit "New Tab") newtabUrl t ]
    [] false []
    (mkAdBlock true 1420 0 false).

(** ** Array helpers with JavaScript's out-of-range behaviour *)

(** [a.slice(0, e)]: a negative [e] counts from the end. *)
Definition slice0 {A} (a : list A) (e : Z) : list A :=
  let len := Z.of_nat (length a) in
  take (Z.to_nat (if (e <? 0)%Z then Z.max (len + e) 0 else Z.min e len)) a.

(** [a[i]]: [None] is [undefined]. *)
Definition index {A} (a : list A) (i : Z) : option A :=
  if (i <? 0)%Z then None else a !! Z.to_nat i.

(** ** The result synthesizer *)

(** [x | 0] on an integer-valued number. *)
Definition toInt32 (z : Z) : Z := ((z + 2 ^ 31) mod 2 ^ 32 - 2 ^ 31)%Z.

(** One round of the loop: [hash = ((hash << 5) - hash) + c; hash |= 0]. *)
Definition hashStep (hash : Z) (c : N) : Z :=
  toInt32 (toInt32 (Z.shiftl hash 5) - hash + Z.of_N c).

Definition hashOf (query : Js.str) : Z := fold_left hashStep query 0%Z.

Definition types : list Js.str :=
  [Js.lit "Official"; Js.lit "Wiki"; Js.lit "News"; Js.lit "Blog"].

Definition resultSeed (query : Js.str) (i : Z) : Z := (Z.abs (hashOf query) + i)%Z.

(** The tag picked for a slot: [types[resultSeed % types.length]]. *)
Definition typeOf (seed : Z) : Js.str :=
  match index types (Z.rem seed (Z.of_nat (length types))) with
  | Some t => t
  | None => Js.lit "undefined"
  end.

Definition mockResult (query : Js.str) (i : Z) : SearchResult.t :=
  let seed := resultSeed query i in
  SearchResult.mk
    (Js.toString i)
    (query ++ Js.lit " - Result " ++ Js.toString (i + 1) ++ Js.lit " ("
       ++ typeOf seed ++ Js.lit ")")
    (Js.lit "https://www.example.com/" ++ Js.replaceWsRuns false query
       ++ Js.lit "/" ++ Js.toString i)
    (Js.lit "This is a simulated search result for " ++ [34%N] ++ query
       ++ [34%N]
       ++ Js.lit ". Chimera Browser protects your privacy by stripping"
       ++ Js.lit " trackers from this result before you click.")
    (Z.rem seed 4 =? 0)%Z.

(** [Array.from({ length: 8 }).map((_, i) => ...)] *)
Definition mockResults (query : Js.str) : list SearchResult.t :=
  List.map (fun i => mockResult query (Z.of_nat i)) (seq 0 8).

Definition generateMockResults (query : Js.str) (s : State) : State :=
  setSearchResults (mockResults query) s.

(** ** Visited history *)

Definition addToHistory (amb : Ambient) (targetUrl title : Js.str)
    (prev : list HistoryItem.t) : list HistoryItem.t :=
  let fresh :=
    take 1000
      (HistoryItem.mk (Js.toString (dateNow amb 0))
         (match title with [] => targetUrl | _ => title end)
         targetUrl (dateNow amb 1) :: prev) in
  match prev with
  | h :: _ => if Js.eqb (HistoryItem.url h) targetUrl then prev else fresh
  | [] => fresh
  end.

(** ** Navigation *)

(** The "URL or search" decision of [navigate]: the target after the
    heuristic, and [isSearch]. *)
Definition classify (target : Js.str) : Js.str * bool :=
  if negb (Js.includes (Js.lit "://") target)
     && negb (Js.startsWith (Js.lit "chimera://") target)
  then
    if Js.includes (Js.lit ".") target && negb (Js.includes (Js.lit " ") target)
    then ((if negb (Js.startsWith (Js.lit "http") target)
           then Js.lit "https://" ++ target else target), false)
    else (target, true)
  else (target, false).

(** The back/forward stack update shared by both branches of [navigate]. *)
Definition pushHistory (finalUrl : Js.str) (s0 s : State) : State :=
  let newHistory := slice0 (history s0) (historyIndex s0 + 1) ++ [finalUrl] in
  setHistoryIndex (Z.of_nat (length newHistory) - 1) (setHistory newHistory s).

Definition resetSessionBlocked (a : AdBlockStats) : AdBlockStats :=
  mkAdBlock (enabled a) (totalBlocked a) 0 (strictMode a).

(** [navigate(input)].  When [encodeURIComponent] throws, the updates queued
    before the throw are the ones React applies. *)
Definition navigate (amb : Ambient) (input : Js.str) (s : State) : State :=
  let target := Js.trim input in
  if Js.eqb target newtabUrl || Js.eqb target [] then
    let s1 := setInputValue [] (setUrl newtabUrl (setInternalPage newtab s)) in
    let s2 := setVisitedHistory
                (addToHistory amb newtabUrl (Js.lit "New Tab") (visitedHistory s1)) s1 in
    pushHistory newtabUrl s s2
  else
    let '(target, isSearch) := classify target in
    let s1 := setAdBlockStats (resetSessionBlocked (adBlockStats s))
                (setIsLoading true s) in
    if isSearch then
      let s2 := setSearchQuery target (setInternalPage search s1) in
      match Js.encodeURIComponent target with
      | None => s2
      | Some e =>
          let finalUrl := Js.lit "chimera://search?q=" ++ e in
          let s3 := generateMockResults target s2 in
          let s4 := setVisitedHistory
                      (addToHistory amb finalUrl (Js.lit "Search: " ++ target)
                         (visitedHistory s3)) s3 in
          pushHistory finalUrl s (setUrl finalUrl s4)
      end
    else
      let s2 := setInternalPage external s1 in
      let host := match hostname amb target with Some h => h | None => target end in
      let s3 := setVisitedHistory
                  (addToHistory amb target host (visitedHistory s2)) s2 in
      pushHistory target s (setUrl target s3).

(** The deferred [setIsLoading(false)] that [navigate] schedules. *)
Definition loadingDone (s : State) : State := setIsLoading false s.

(** [handleBack()].  [None]: the stack has no entry at the index before the
    current one, [url] becomes [undefined] and the URL effect then fails on
    [url.startsWith]. *)
Definition handleBack (s : State) : option State :=
  if (0 <? historyIndex s)%Z then
    match index (history s) (historyIndex s - 1) with
    | Some prevUrl => Some (setUrl prevUrl (setHistoryIndex (historyIndex s - 1) s))
    | None => None
    end
  else Some s.

(** [handleForward()], with the same reading of [None]. *)
Definition handleForward (s : State) : option State :=
  if (historyIndex s <? Z.of_nat (length (history s)) - 1)%Z then
    match index (history s) (historyIndex s + 1) with
    | Some nextUrl => Some (setUrl nextUrl (setHistoryIndex (historyIndex s + 1) s))
    | None => None
    end
  else Some s.

(** The "Reset Browser" button. *)
Definition resetBrowser (s : State) : State :=
  setUrl newtabUrl
    (setDownloads [] (setVisitedHistory []
       (setHistoryIndex 0 (setHistory [newtabUrl] s)))).

(** The effect keyed on [url]: re-derives the page, the query and the
    address-bar text from the URL alone.  [None]: [decodeURIComponent] threw
    inside the effect. *)
Definition syncUrl (s : State) : option State :=
  let s1 := setInputValue (url s) s in
  if Js.eqb (url s) newtabUrl then
    Some (setInputValue [] (setInternalPage newtab s1))
  else if Js.startsWith (Js.lit "chimera://search") (url s) then
    let s2 := setInternalPage search s1 in
    match Js.decodeURIComponent (Js.orEmpty (Js.splitSecond (Js.lit "q=") (url s))) with
    | None => None
    | Some q =>
        let s3 := setInputValue q (setSearchQuery q s2) in
        Some (if (length (searchResults s) =? 0)%nat
              then generateMockResults q s3 else s3)
    end
  else Some (setInternalPage external s1).

(** After the render that follows a handler, the effect runs when [url]
    differs from the previous render's. *)
Definition afterRender (before after : State) : option State :=
  if Js.eqb (url after) (url before) then Some after else syncUrl after.

(** ** Bookmarks *)

Definition bookmarkTitle (amb : Ambient) (s : State) : Js.str :=
  match internalPage s with
  | search => Js.lit "Search: " ++ searchQuery s
  | newtab => Js.lit "New Tab"
  | external =>
      match hostname amb (url s) with Some h => h | None => url s end
  end.

(** [toggleBookmark()] acts on the current [url]. *)
Definition toggleBookmark (amb : Ambient) (s : State) : State :=
  match List.find (fun b => Js.eqb (Bookmark.url b) (url s)) (bookmarks s) with
  | Some _ =>
      setBookmarks
        (List.filter (fun b => negb (Js.eqb (Bookmark.url b) (url s))) (bookmarks s)) s
  | None =>
      setBookmarks
        (bookmarks s ++
           [Bookmark.mk (Js.toString (dateNow amb 0)) (bookmarkTitle amb s)
              (url s) (dateNow amb 1)]) s
  end.

(** ** Downloads *)

(** The callback of the tick's [prev.map], given the value [r] that
    [Math.random()] returns for this entry. *)
Definition tickOne (r : Q) (dl : DownloadItem.t) : DownloadItem.t :=
  match DownloadItem.status dl with
  | downloading =>
      let newProgress := Qplus (DownloadItem.progress dl) (Qmult r (8 # 1)) in
      if Qle_bool (100 # 1) newProgress then
        DownloadItem.mk (DownloadItem.id dl) (DownloadItem.filename dl) (100 # 1)
          completed (DownloadItem.size dl) (DownloadItem.type dl) (DownloadItem.date dl)
      else
        DownloadItem.mk (DownloadItem.id dl) (DownloadItem.filename dl) newProgress
          (DownloadItem.status dl) (DownloadItem.size dl) (DownloadItem.type dl)
          (DownloadItem.date dl)
  | _ => dl
  end.

(** One tick over the list; [Math.random()] is read once per downloading
    entry, in list order, starting at reading [k]. *)
Fixpoint tickFrom (amb : Ambient) (k : nat) (dls : list DownloadItem.t)
    : list DownloadItem.t :=
  match dls with
  | [] => []
  | dl :: rest =>
      match DownloadItem.status dl with
      | downloading => tickOne (random amb k) dl :: tickFrom amb (S k) rest
      | _ => tickOne (random amb k) dl :: tickFrom amb k rest
      end
  end.

Definition downloadTick (amb : Ambient) (s : State) : State :=
  setDownloads (tickFrom amb 0 (downloads s)) s.

Definition startDownload (amb : Ambient) (simulatedFilename : Js.str)
    (type : DownloadType) (s : State) : State :=
  let newDl :=
    DownloadItem.mk (Js.toString (dateNow amb 0)) simulatedFilename (0 # 1)
      downloading
      (match type with video => Js.lit "145.2 MB" | file => Js.lit "12.5 MB" end)
      type (dateNow amb 1) in
  setShowDownloads true (setDownloads (newDl :: downloads s) s).

(** ** JSON texts

    [JSON.parse] as the component uses it: to read a bookmark file and to
    read the persisted cells.  A number carries its exact decimal value
    (rounding to binary64 is not modelled); an object keeps its members in
    source order. *)

Module Json.

#[warnings="-register-all"]
Inductive value :=
| JNull
| JBool (b : bool)
| JNumber (q : Q)
| JString (s : Js.str)
| JArray (items : list value)
| JObject (members : list (Js.str * value)).

Definition isWs (c : N) : bool :=
  ((c =? 32) || (c =? 9) || (c =? 10) || (c =? 13))%N.

Definition skipWs (s : Js.str) : Js.str := Js.dropWhile isWs s.

Definition isDigit (c : N) : bool := ((48 <=? c) && (c <=? 57))%N.

Fixpoint spanDigits (s : Js.str) : list N * Js.str :=
  match s with
  | c :: r =>
      if isDigit c then let '(ds, r') := spanDigits r in (c :: ds, r')
      else ([], s)
  | [] => ([], [])
  end.

Definition digitsValue (ds : list N) : Z :=
  fold_left (fun a d => (10 * a + (Z.of_N d - 48))%Z) ds 0%Z.

(** [mant * 10 ^ e10], exactly. *)
Definition decimal (mant e10 : Z) : Q :=
  if (0 <=? e10)%Z then Qmake (mant * 10 ^ e10) 1
  else Qred (Qmake mant (Z.to_pos (10 ^ (- e10)))).

(** The optional sign of a number token. *)
Definition parseSign (s : Js.str) : bool * Js.str :=
  match s with
  | c :: r => if (c =? 45)%N then (true, r) else (false, s)
  | [] => (false, s)
  end.

(** The optional fraction: a dot and at least one digit. *)
Definition parseFraction (s : Js.str) : option (list N * Js.str) :=
  match s with
  | c :: r =>
      if (c =? 46)%N then
        let '(fp, s') := spanDigits r in
        match fp with [] => None | _ => Some (fp, s') end
      else Some ([], s)
  | [] => Some ([], s)
  end.

(** The optional exponent: [e] or [E], an optional sign, at least one
    digit. *)
Definition parseExponent (s : Js.str) : option (Z * Js.str) :=
  match s with
  | c :: r =>
      if (c =? 101)%N || (c =? 69)%N then
        let '(eneg, r1) :=
          match r with
          | g :: r' =>
              if (g =? 45)%N then (true, r')
              else if (g =? 43)%N then (false, r')
              else (false, r)
          | [] => (false, r)
          end in
        let '(ed, s') := spanDigits r1 in
        match ed with
        | [] => None
        | _ => Some ((if eneg then - digitsValue ed else digitsValue ed)%Z, s')
        end
      else Some (0%Z, s)
  | [] => Some (0%Z, s)
  end.

(** The digits of a number token, after its sign: an integer part without
    a superfluous leading zero, then fraction and exponent. *)
Definition parseUnsigned (neg : bool) (s : Js.str) : option (Q * Js.str) :=
  let '(ip, s2) := spanDigits s in
  match ip with
  | [] => None
  | d :: ds =>
      if (d =? 48)%N && negb (length ds =? 0)%nat then None
      else
        match parseFraction s2 with
        | None => None
        | Some (fp, s3) =>
            match parseExponent s3 with
            | None => None
            | Some (e, s4) =>
                let mant := digitsValue (ip ++ fp) in
                Some (decimal (if neg then - mant else mant)%Z
                        (e - Z.of_nat (length fp))%Z, s4)
            end
        end
  end.

(** A number token at the head of [s]. *)
Definition parseNumber (s : Js.str) : option (Q * Js.str) :=
  let '(neg, s1) := parseSign s in parseUnsigned neg s1.

(** The characters of a string token after its opening quote, up to and
    including the closing quote. *)
Fixpoint parseString (s : Js.str) : option (Js.str * Js.str) :=
  match s with
  | [] => None
  | c :: r =>
      if (c =? 34)%N then Some ([], r)
      else if (c =? 92)%N then
        match r with
        | e :: r1 =>
            if (e =? 117)%N then
              match r1 with
              | h1 :: h2 :: h3 :: h4 :: r2 =>
                  match Js.hexVal h1, Js.hexVal h2, Js.hexVal h3, Js.hexVal h4 with
                  | Some a, Some b, Some c', Some d =>
                      match parseString r2 with
                      | Some (t, r3) =>
                          Some ((4096 * a + 256 * b + 16 * c' + d)%N :: t, r3)
                      | None => None
                      end
                  | _, _, _, _ => None
                  end
              | _ => None
              end
            else
              let simple :=
                if (e =? 34)%N then Some 34%N
                else if (e =? 92)%N then Some 92%N
                else if (e =? 47)%N then Some 47%N
                else if (e =? 98)%N then Some 8%N
                else if (e =? 102)%N then Some 12%N
                else if (e =? 110)%N then Some 10%N
                else if (e =? 114)%N then Some 13%N
                else if (e =? 116)%N then Some 9%N
                else None in
              match simple with
              | Some x =>
                  match parseString r1 with
                  | Some (t, r2) => Some (x :: t, r2)
                  | None => None
                  end
              | None => None
              end
        | [] => None
        end
      else if (c <? 32)%N then None
      else
        match parseString r with
        | Some (t, r1) => Some (c :: t, r1)
        | None => None
        end
  end.

Fixpoint parseValue (fuel : nat) (s : Js.str) : option (value * Js.str) :=
  match fuel with
  | O => None
  | S f =>
      match skipWs s with
      | [] => None
      | c :: r =>
          if (c =? 34)%N then
            match parseString r with
            | Some (t, r1) => Some (JString t, r1)
            | None => None
            end
          else if (c =? 91)%N then
            match skipWs r with
            | c1 :: r1 =>
                if (c1 =? 93)%N then Some (JArray [], r1)
                else match parseElements f r with
                     | Some (vs, r2) => Some (JArray vs, r2)
                     | None => None
                     end
            | [] => None
            end
          else if (c =? 123)%N then
            match skipWs r with
            | c1 :: r1 =>
                if (c1 =? 125)%N then Some (JObject [], r1)
                else match parseMembers f r with
                     | Some (ms, r2) => Some (JObject ms, r2)
                     | None => None
                     end
            | [] => None
            end
          else if Js.startsWith (Js.lit "null") (c :: r) then Some (JNull, drop 4 (c :: r))
          else if Js.startsWith (Js.lit "true") (c :: r) then Some (JBool true, drop 4 (c :: r))
          else if Js.startsWith (Js.lit "false") (c :: r) then Some (JBool false, drop 5 (c :: r))
          else if (c =? 45)%N || isDigit c then
            match parseNumber (c :: r) with
            | Some (q, r1) => Some (JNumber q, r1)
            | None => None
            end
          else None
      end
  end
with parseElements (fuel : nat) (s : Js.str) : option (list value * Js.str) :=
  match fuel with
  | O => None
  | S f =>
      match parseValue f s with
      | Some (v, r) =>
          match skipWs r with
          | c :: r1 =>
              if (c =? 44)%N then
                match parseElements f r1 with
                | Some (vs, r2) => Some (v :: vs, r2)
                | None => None
                end
              else if (c =? 93)%N then Some ([v], r1)
              else None
          | [] => None
          end
      | None => None
      end
  end
with parseMembers (fuel : nat) (s : Js.str)
    : option (list (Js.str * value) * Js.str) :=
  match fuel with
  | O => None
  | S f =>
      match skipWs s with
      | c :: r =>
          if (c =? 34)%N then
            match parseString r with
            | Some (k, r1) =>
                match skipWs r1 with
                | c1 :: r2 =>
                    if (c1 =? 58)%N then
                      match parseValue f r2 with
                      | Some (v, r3) =>
                          match skipWs r3 with
                          | c2 :: r4 =>
                              if (c2 =? 44)%N then
                                match parseMembers f r4 with
                                | Some (ms, r5) => Some ((k, v) :: ms, r5)
                                | None => None
                                end
                              else if (c2 =? 125)%N then Some ([(k, v)], r4)
                              else None
                          | [] => None
                          end
                      | None => None
                      end
                    else None
                | [] => None
                end
            | None => None
            end
          else None
      | [] => None
      end
  end.

(** [JSON.parse(text)]; [None] is the SyntaxError.  Each level of the
    grammar spends at most two units of fuel per character read. *)
Definition parse (text : Js.str) : option value :=
  match parseValue (2 * length text + 2) text with
  | Some (v, r) => match skipWs r with [] => Some v | _ => None end
  | None => None
  end.

(** [Array.isArray(v)] *)
Definition isArray (v : value) : bool :=
  match v with JArray _ => true | _ => false end.

(** [o[key]] on a parsed object: the last member with that key. *)
Fixpoint getProp (key : Js.str) (ms : list (Js.str * value)) : option value :=
  match ms with
  | [] => None
  | (k, v) :: ms' =>
      match getProp key ms' with
      | Some v' => Some v'
      | None => if Js.eqb k key then Some v else None
      end
  end.

Definition asString (v : option value) : option Js.str :=
  match v with Some (JString s) => Some s | _ => None end.

Definition asInteger (v : option value) : option Z :=
  match v with
  | Some (JNumber q) => if (Qden q =? 1)%positive then Some (Qnum q) else None
  | _ => None
  end.

Definition asBool (v : option value) : option bool :=
  match v with Some (JBool b) => Some b | _ => None end.

End Json.

(** A parsed value read at the [Bookmark] interface; [None] when it does not
    have that shape. *)
Definition asBookmark (v : Json.value) : option Bookmark.t :=
  match v with
  | Json.JObject ms =>
      match Json.asString (Json.getProp (Js.lit "id") ms),
            Json.asString (Json.getProp (Js.lit "title") ms),
            Json.asString (Json.getProp (Js.lit "url") ms),
            Json.asInteger (Json.getProp (Js.lit "createdAt") ms) with
      | Some i, Some t, Some u, Some c => Some (Bookmark.mk i t u c)
      | _, _, _, _ => None
      end
  | _ => None
  end.

Fixpoint asBookmarks (vs : list Json.value) : option (list Bookmark.t) :=
  match vs with
  | [] => Some []
  | v :: vs' =>
      match asBookmark v, asBookmarks vs' with
      | Some b, Some bs => Some (b :: bs)
      | _, _ => None
      end
  end.

(** What the [onload] callback of [importBookmarks] does with the text of the
    chosen file: the next state and the lines written with
    [console.error].  The callback never throws.  [None]: the file is an
    array holding something that is not a [Bookmark], which the callback
    appends unchecked and which the typed state cannot hold. *)
Definition importBookmarks (text : Js.str) (s : State)
    : option (State * list Js.str) :=
  match Json.parse text with
  | None => Some (s, [Js.lit "Invalid bookmark file"])
  | Some (Json.JArray items) =>
      match asBookmarks items with
      | Some parsed => Some (setBookmarks (bookmarks s ++ parsed) s, [])
      | None => None
      end
  | Some _ => Some (s, [])
  end.

(** ** The persistent store: [usePersistentState]

    [localStorage] is a finite map from keys to strings.  The hook is generic
    in the type of the cell; [stringify] and [parse] stand for
    [JSON.stringify] and [JSON.parse] at that type, [parse] answering [None]
    where [JSON.parse] throws. *)

Section UsePersistentState.
Context {T : Type}.
Variable stringify : T -> Js.str.
Variable parse : Js.str -> option T.

(** The initialiser passed to [useState]: the value of the cell at load,
    and what is written with [console.error]. *)
Definition loadState (key : Js.str) (initialValue : T)
    (storage : gmap Js.str Js.str) : T * list Js.str :=
  match storage !! key with
  | Some item =>
      match item with
      | [] => (initialValue, [])
      | _ :: _ =>
          match parse item with
          | Some v => (v, [])
          | None =>
              (initialValue,
               [Js.lit "Error reading " ++ key ++ Js.lit " from localStorage"])
          end
      end
  | None => (initialValue, [])
  end.

(** The effect that mirrors the cell: [localStorage.setItem(key,
    JSON.stringify(state))], the write taken to succeed. *)
Definition saveState (key : Js.str) (state : T)
    (storage : gmap Js.str Js.str) : gmap Js.str Js.str :=
  <[key := stringify state]> storage.
End UsePersistentState.

(** The ad-block cell as JSON text, members in the order of the object
    literal, and back. *)
Definition quoted (s : Js.str) : Js.str := [34%N] ++ s ++ [34%N].



Definition asAdBlock (v : Json.value) : option AdBlockStats :=
  match v with
  | Json.JObject ms =>
      match Json.asBool (Json.getProp (Js.lit "enabled") ms),
            Json.asInteger (Json.getProp (Js.lit "totalBlocked") ms),
            Json.asInteger (Json.getProp (Js.lit "sessionBlocked") ms),
            Json.asBool (Json.getProp (Js.lit "strictMode") ms) with
      | Some e, Some t, Some n, Some m => Some (mkAdBlock e t n m)
      | _, _, _, _ => None
      end
  | _ => None
  end.

Definition parseAdBlock (text : Js.str) : option AdBlockStats :=
  match Json.parse text with
  | Some v => asAdBlock v
  | None => None
  end.

(** ** Events *)

Inductive Event :=
| Navigate (input : Js.str)
| Back
| Forward
| Reset
| LoadingDone
| DownloadTick
| ToggleBookmark
| ImportBookmarks (text : Js.str)
| StartDownload (simulatedFilename : Js.str) (type : DownloadType).

(** The state updates of the handler of an event. *)
Definition handle (amb : Ambient) (ev : Event) (s : State) : option State :=
  match ev with
  | Navigate input => Some (navigate amb input s)
  | Back => handleBack s
  | Forward => handleForward s
  | Reset => Some (resetBrowser s)
  | LoadingDone => Some (loadingDone s)
  | DownloadTick => Some (downloadTick amb s)
  | ToggleBookmark => Some (toggleBookmark amb s)
  | ImportBookmarks text =>
      match importBookmarks text s with
      | Some (s', _) => Some s'
      | None => None
      end
  | StartDownload name type => Some (startDownload amb name type s)
  end.

(** One event: the handler, the render, then the effects of that render.
    [None]: the component did not survive the event, or its state left the
    declared types. *)
Definition dispatch (amb : Ambient) (ev : Event) (s : State) : option State :=
  match handle amb ev s with
  | Some s' => afterRender s s'
  | None => None
  end.

Fixpoint run (amb : Ambient) (evs : list Event) (s : State) : option State :=
  match evs with
  | [] => Some s
  | ev :: evs' =>
      match dispatch amb ev s with
      | Some s' => run amb evs' s'
      | None => None
      end
  end.

(** The states the session can be in: the seeded defaults, and whatever an
    event makes of a reachable state, whatever the platform answers. *)
Inductive reachable : State -> Prop :=
| reachable_init (t : Z) : reachable (initialState t)
| reachable_step (amb : Ambient) (ev : Event) (s s' : State) :
    reachable s -> dispatch amb ev s = Some s' -> reachable s'.

(** A platform for worked examples: a clock that advances by one
    millisecond per reading, a constant random source, and a URL parser that
    reads the host of [scheme://host/...] texts. *)
Definition hostOf (u : Js.str) : option Js.str :=
  match Js.breakOn (Js.lit "://") u with
  | Some (_, rest) =>
      match Js.breakOn (Js.lit "/") rest with
      | Some (h, _) => Some h
      | None => Some rest
      end
  | None => None
  end.

Definition sampleAmbient : Ambient :=
  mkAmbient (fun k => 1730000000000 + Z.of_nat k)%Z (fun _ => 1 # 2) hostOf.

(** The URL that [navigate] commits for an input, read off its branches;
    [None] when [encodeURIComponent] throws and nothing is committed. *)
Definition committedUrl (input : Js.str) : option Js.str :=
  let target := Js.trim input in
  if Js.eqb target newtabUrl || Js.eqb target [] then Some newtabUrl
  else
    match classify target with
    | (query, true) =>
        match Js.encodeURIComponent query with
        | Some e => Some (Js.lit "chimera://search?q=" ++ e)
        | None => None
        end
    | (address, false) => Some address
    end.

(** The stack index points into the stack. *)
Definition indexInRange (s : State) : Prop :=
  (0 <= historyIndex s < Z.of_nat (length (history s)))%Z.

(** Sessions for worked examples. *)
Definition orInitial (r : option State) : State :=
  match r with Some s => s | None => initialState 0 end.

Definition urlA : Js.str := Js.lit "https://a.example".
Definition urlB : Js.str := Js.lit "https://b.example".
Definition urlD : Js.str := Js.lit "https://d.example".

Definition sessionABack : State :=
  orInitial (run sampleAmbient [Navigate urlA; Navigate urlB; Back] (initialState 0)).

Definition sessionAB : State :=
  orInitial (run sampleAmbient [Navigate urlA; Navigate urlB] (initialState 0)).

Definition sessionCatsDogs : list Event :=
  [Navigate (Js.lit "cats"); Navigate (Js.lit "dogs"); Back].



Definition adBlockKey : Js.str := Js.lit "chimera_adblock".

Definition sampleStats : AdBlockStats := mkAdBlock true 5 0 false.


(** A delimiter after a member's value: a comma or a closing brace. *)
Definition isDelimiter (c : N) : Prop := c = 44%N \/ c = 125%N.

(** The text of a member's value: parsed, whatever follows after the
    delimiter, to the value [v]. *)
Definition isValueText (text : Js.str) (v : Json.value) : Prop :=
  forall (fuel : nat) (c : N) (rest : Js.str),
    isDelimiter c ->
    Json.parseValue (S fuel) (text ++ c :: rest) = Some (v, c :: rest).

(** A member as it stands in an object text: ["key":value] and the delimiter
    that follows. *)
Definition member (key text : Js.str) (delimiter : N) (rest : Js.str) : Js.str :=
  34%N :: key ++ 34%N :: 58%N :: text ++ delimiter :: rest.

(** A key without quotes, backslashes or control characters. *)
Definition isPlainKey (key : Js.str) : Prop :=
  forall rest, Json.parseString (key ++ 34%N :: rest) = Some (key, rest).

(** The seeded session after a visit to the first seeded bookmark. *)
Definition sessionWikipedia : State :=
  orInitial (run sampleAmbient [Navigate (Js.lit "https://www.wikipedia.org")]
               (initialState 0)).

(** ** Further definitions *)

(** No two neighbours of the visited log carry the same URL. *)
Fixpoint noRepeat (l : list HistoryItem.t) : Prop :=
  match l with
  | a :: (b :: _) as rest => HistoryItem.url a <> HistoryItem.url b /\ noRepeat rest
  | _ => True
  end.

(** The visited log as [addToHistory] keeps it: capped, without a repeated
    neighbour, every entry titled. *)
Definition visitedOk (l : list HistoryItem.t) : Prop :=
  (length l <= 1000)%nat /\ noRepeat l
  /\ Forall (fun h => HistoryItem.title h <> []) l.

(** A download as the simulator keeps it: never in error, complete exactly
    at 100. *)
Definition downloadOk (dl : DownloadItem.t) : Prop :=
  DownloadItem.status dl <> error
  /\ (DownloadItem.progress dl <= 100 # 1)%Q
  /\ (DownloadItem.status dl = completed -> DownloadItem.progress dl = 100 # 1).


(** A session with one download just started. *)
Definition sessionJustStarted : State :=
  startDownload sampleAmbient (Js.lit "video_7.mp4") video (initialState 0).

(** [handleMediaGrab]: the submit handler of the media box, given the text
    of the box; the next state and the next text of the box. *)
Definition handleMediaGrab (amb : Ambient) (mediaUrl : Js.str) (s : State)
    : State * Js.str :=
  match mediaUrl with
  | [] => (s, mediaUrl)
  | _ :: _ =>
      let filename :=
        Js.lit "video_" ++ Js.toString (Qfloor (Qmult (random amb 0) (1000 # 1)))
          ++ Js.lit ".mp4" in
      (startDownload amb filename video s, [])
  end.

(** ** The other handlers of the component *)

(** The tick of the ad-block counter.  The interval only exists while the
    blocker is enabled and a page is loading; a tick counts one more when
    [Math.random() > 0.7]. *)
Definition adBlockTick (amb : Ambient) (s : State) : State :=
  if enabled (adBlockStats s) && isLoading s then
    if Qle_bool (random amb 0) (7 # 10) then s
    else
      setAdBlockStats
        (mkAdBlock (enabled (adBlockStats s)) (totalBlocked (adBlockStats s) + 1)
           (sessionBlocked (adBlockStats s) + 1) (strictMode (adBlockStats s))) s
  else s.

(** The two switches of the settings panel. *)
Definition toggleAdBlock (s : State) : State :=
  setAdBlockStats
    (mkAdBlock (negb (enabled (adBlockStats s))) (totalBlocked (adBlockStats s))
       (sessionBlocked (adBlockStats s)) (strictMode (adBlockStats s))) s.

Definition toggleStrictMode (s : State) : State :=
  setAdBlockStats
    (mkAdBlock (enabled (adBlockStats s)) (totalBlocked (adBlockStats s))
       (sessionBlocked (adBlockStats s)) (negb (strictMode (adBlockStats s)))) s.

(** The reload button. *)
Definition reload (s : State) : State := setIsLoading true s.

(** The bin beside a bookmark: [prev.filter(x => x.id !== b.id)]. *)
Definition deleteBookmark (id : Js.str) (s : State) : State :=
  setBookmarks
    (List.filter (fun x => negb (Js.eqb (Bookmark.id x) id)) (bookmarks s)) s.

Definition clearVisitedHistory (s : State) : State := setVisitedHistory [] s.

Definition clearDownloads (s : State) : State := setDownloads [] s.

(** Everything that changes the state cells: the events, and the handlers
    written inline in the markup. *)
Inductive Action :=
| OfEvent (ev : Event)
| AdBlockTick
| ToggleAdBlock
| ToggleStrictMode
| Reload
| DeleteBookmark (id : Js.str)
| ClearVisitedHistory
| ClearDownloads
| MediaGrab (mediaUrl : Js.str)
| TypeInput (text : Js.str).

Definition perform (amb : Ambient) (a : Action) (s : State) : option State :=
  match a with
  | OfEvent ev => dispatch amb ev s
  | AdBlockTick => Some (adBlockTick amb s)
  | ToggleAdBlock => Some (toggleAdBlock s)
  | ToggleStrictMode => Some (toggleStrictMode s)
  | Reload => Some (reload s)
  | DeleteBookmark id => Some (deleteBookmark id s)
  | ClearVisitedHistory => Some (clearVisitedHistory s)
  | ClearDownloads => Some (clearDownloads s)
  | MediaGrab mediaUrl => Some (fst (handleMediaGrab amb mediaUrl s))
  | TypeInput text => Some (setInputValue text s)
  end.

(** The states of the component under all of its handlers. *)
Inductive attainable : State -> Prop :=
| attainable_init (t : Z) : attainable (initialState t)
| attainable_step (amb : Ambient) (a : Action) (s s' : State) :
    attainable s -> perform amb a s = Some s' -> attainable s'.

(** ** The network sample *)

Definition isDownloading (dl : DownloadItem.t) : bool :=
  match DownloadItem.status dl with downloading => true | _ => false end.

(** One tick of the network simulation: [(down, up)] in bytes per second,
    as exact rationals, from the loading flag, the downloads and the
    readings of [Math.random()] in the order the tick takes them. *)
Definition netSample (amb : Ambient) (loading : bool)
    (dls : list DownloadItem.t) : Q * Q :=
  let d0 := Qmult (random amb 0) (2000 # 1) in
  let u0 := Qmult (random amb 1) (500 # 1) in
  let '(d1, u1, k) :=
    if loading then
      (Qplus d0 (Qmult (random amb 2) (8 * 1024 * 1024 # 1)),
       Qplus u0 (Qmult (random amb 3) (200 * 1024 # 1)), 4%nat)
    else (d0, u0, 2%nat) in
  let activeDownloads := inject_Z (Z.of_nat (length (List.filter isDownloading dls))) in
  if (0 <? length (List.filter isDownloading dls))%nat then
    (Qplus d1 (Qmult (Qmult activeDownloads (Qplus (15 # 1) (Qmult (random amb k) (25 # 1))))
                 (1024 * 1024 # 1)),
     Qplus u1 (Qmult (Qmult activeDownloads (Qplus (50 # 1) (Qmult (random amb (S k)) (50 # 1))))
                 (1024 # 1)))
  else (d1, u1).

(** The activity indicator of the status bar: [netSpeed.down > 1024 * 1024]. *)
Definition activityLit (sample : Q * Q) : bool :=
  negb (Qle_bool (fst sample) (1024 * 1024 # 1)).

(** ** The side panels *)

(** The three flags as the toolbar and the keyboard set them.  The downloads
    flag is the cell [showDownloads] of [State], which [startDownload] also
    sets, without closing the other two panels. *)
Module Panels.
Record t := mk { showBookmarks : bool; showDownloads : bool; showHistory : bool }.
End Panels.





(** ** Bookmarks as JSON text *)

(** [s.isWellFormed()]: no surrogate without its partner. *)
Fixpoint isWellFormed (s : Js.str) : bool :=
  match s with
  | [] => true
  | c :: r =>
      if Js.isLead c then
        match r with
        | d :: r' => Js.isTrail d && isWellFormed r'
        | [] => false
        end
      else negb (Js.isTrail c) && isWellFormed r
  end.

Definition hexLower (d : N) : N :=
  (if d <? 10 then 48 + d else 87 + d)%N.

(** [\uXXXX], lower-case hexadecimal. *)
Definition unicodeEscape (c : N) : Js.str :=
  [92%N; 117%N; hexLower (c / 4096); hexLower ((c / 256) mod 16);
   hexLower ((c / 16) mod 16); hexLower (c mod 16)].

(** One code unit inside a JSON string, a surrogate apart. *)
Definition quoteUnit (c : N) : Js.str :=
  (if c =? 8 then [92; 98]
   else if c =? 9 then [92; 116]
   else if c =? 10 then [92; 110]
   else if c =? 12 then [92; 102]
   else if c =? 13 then [92; 114]
   else if c =? 34 then [92; 34]
   else if c =? 92 then [92; 92]
   else if c <? 32 then unicodeEscape c
   else [c])%N.

(** The characters of [JSON.stringify(s)] between the quotes: a surrogate
    pair stays, a surrogate on its own is escaped. *)
Fixpoint quoteUnits (s : Js.str) : Js.str :=
  match s with
  | [] => []
  | c :: r =>
      if Js.isLead c then
        match r with
        | d :: r' =>
            if Js.isTrail d then c :: d :: quoteUnits r'
            else unicodeEscape c ++ quoteUnits r
        | [] => unicodeEscape c
        end
      else if Js.isTrail c then unicodeEscape c ++ quoteUnits r
      else quoteUnit c ++ quoteUnits r
  end.

(** [JSON.stringify(s)] for a string. *)
Definition stringifyString (s : Js.str) : Js.str := quoted (quoteUnits s).

(** [JSON.stringify(b)] for a bookmark, members in the order of the object
    literals that make one. *)
Definition stringifyBookmark (b : Bookmark.t) : Js.str :=
  123%N ::
  member (Js.lit "id") (stringifyString (Bookmark.id b)) 44
    (member (Js.lit "title") (stringifyString (Bookmark.title b)) 44
       (member (Js.lit "url") (stringifyString (Bookmark.url b)) 44
          (member (Js.lit "createdAt") (Js.toString (Bookmark.createdAt b)) 125 []))).

(** The elements of an array text after the first, and the closing
    bracket. *)
Fixpoint stringifyMore (bs : list Bookmark.t) : Js.str :=
  match bs with
  | [] => [93%N]
  | b :: bs' => 44%N :: stringifyBookmark b ++ stringifyMore bs'
  end.

(** [JSON.stringify(bookmarks)] *)
Definition stringifyBookmarks (bs : list Bookmark.t) : Js.str :=
  match bs with
  | [] => [91%N; 93%N]
  | b :: bs' => 91%N :: stringifyBookmark b ++ stringifyMore bs'
  end.

(** [exportBookmarks()]: the [href] of the anchor that is clicked; [None]
    would be the URIError of [encodeURIComponent]. *)
Definition exportBookmarks (s : State) : option Js.str :=
  match Js.encodeURIComponent (stringifyBookmarks (bookmarks s)) with
  | Some e => Some (Js.lit "data:text/json;charset=utf-8," ++ e)
  | None => None
  end.

Definition wfBookmark (b : Bookmark.t) : Prop :=
  Js.wf (Bookmark.id b) /\ Js.wf (Bookmark.title b) /\ Js.wf (Bookmark.url b).

(** What [JSON.parse] makes of the text of a bookmark. *)
Definition bookmarkValue (b : Bookmark.t) : Json.value :=
  Json.JObject
    [ (Js.lit "id", Json.JString (Bookmark.id b));
      (Js.lit "title", Json.JString (Bookmark.title b));
      (Js.lit "url", Json.JString (Bookmark.url b));
      (Js.lit "createdAt", Json.JNumber (Json.decimal (Bookmark.createdAt b) 0)) ].

(** What [parseString] answers once it has read the unit [c]: [c] in front
    of what it reads from the rest. *)
Definition consUnit (c : N) (r : option (Js.str * Js.str)) : option (Js.str * Js.str) :=
  match r with Some (t, r1) => Some (c :: t, r1) | None => None end.

(** The keys under which the component keeps its cells. *)
Definition persistentKeys : list Js.str :=
  [ Js.lit "chimera_url"; Js.lit "chimera_history_stack";
    Js.lit "chimera_history_index"; Js.lit "chimera_theme";
    Js.lit "chimera_bookmarks"; Js.lit "chimera_visited_history";
    Js.lit "chimera_downloads"; adBlockKey ].

(** A printable ASCII code unit, the space apart. *)
Definition isPrintable (c : N) : Prop := (33 <= c < 128)%N.

(** ** The dashboard *)

(** The [App] component around the browser view: the security modules, the
    runtime log and the window of resource samples.  Rates are exact
    rationals; [timeStr] is what [toLocaleTimeString()] answers. *)

Module App.

Inductive Level := INFO | WARN | ERROR | DEBUG.

Inductive Status := active | warning | error.

Module SecurityModule.
Record t := mk {
  id : Js.str;
  name : Js.str;
  enabled : bool;
  status : Status;
  description : Js.str
}.
End SecurityModule.

Module LogEntry.
Record t := mk {
  id : Js.str;
  timestamp : Js.str;
  level : Level;
  component : Js.str;
  message : Js.str
}.
End LogEntry.

Module ResourcePoint.
Record t := mk { time : Js.str; cpu : Q; memory : Q }.
End ResourcePoint.

Record Cells := mkCells {
  activeTab : Js.str;
  logs : list LogEntry.t;
  modules : list SecurityModule.t;
  resourceData : list ResourcePoint.t
}.

Definition INITIAL_LOGS : list LogEntry.t :=
  [ LogEntry.mk (Js.lit "1") (Js.lit "10:00:01") INFO (Js.lit "launcher")
      (Js.lit "Chimera Launcher initialized (uid=0)");
    LogEntry.mk (Js.lit "2") (Js.lit "10:00:01") INFO (Js.lit "ns_setup")
      (Js.lit "Unsharing namespaces: NEWUSER NEWNET NEWNS NEWPID");
    LogEntry.mk (Js.lit "3") (Js.lit "10:00:02") INFO (Js.lit "caps")
      (Js.lit "Dropped capabilities: Effective, Permitted, Inheritable");
    LogEntry.mk (Js.lit "4") (Js.lit "10:00:02") INFO (Js.lit "seccomp")
      (Js.lit "Filter loaded: 14 syscalls allowed");
    LogEntry.mk (Js.lit "5") (Js.lit "10:00:03") INFO (Js.lit "launcher")
      (Js.lit "Exec: chimera-browser (sandbox active)");
    LogEntry.mk (Js.lit "6") (Js.lit "10:00:05") DEBUG (Js.lit "bpf")
      (Js.lit "LSM attached: socket_connect") ].

Definition initialModules : list SecurityModule.t :=
  [ SecurityModule.mk (Js.lit "apparmor") (Js.lit "AppArmor Profiles") true active
      (Js.lit "/etc/apparmor.d/usr.bin.chimera-browser enforced");
    SecurityModule.mk (Js.lit "seccomp") (Js.lit "Seccomp-BPF") true active
      (Js.lit "Strict syscall filtering whitelist active");
    SecurityModule.mk (Js.lit "bpf") (Js.lit "eBPF LSM") true active
      (Js.lit "Socket connect hooks attached");
    SecurityModule.mk (Js.lit "netns") (Js.lit "Network Namespaces") false warning
      (Js.lit "Tor per-tab isolation (pending)") ].

Definition initialCells : Cells :=
  mkCells (Js.lit "dashboard") INITIAL_LOGS initialModules [].

(** [l.slice(-n)] for a positive [n]. *)
Definition lastN {A : Type} (n : nat) (l : list A) : list A :=
  drop (length l - n) l.

(** The sample that one tick of the interval adds. *)
Definition newPoint (timeStr : Js.str) (amb : Ambient) : ResourcePoint.t :=
  ResourcePoint.mk timeStr
    (Qplus (10 # 1) (Qmult (random amb 0) (15 # 1)))
    (Qplus (200 # 1) (Qmult (random amb 1) (50 # 1))).

(** The log line that one tick of the interval adds, if it adds one. *)
Definition newLog (timeStr : Js.str) (amb : Ambient) : option LogEntry.t :=
  if Qle_bool (random amb 2) (8 # 10) then None
  else
    let msgType := random amb 3 in
    if negb (Qle_bool msgType (9 # 10)) then
      Some (LogEntry.mk (Js.toString (dateNow amb 0)) timeStr WARN (Js.lit "seccomp")
              (Js.lit "Syscall blocked: SYS_ptrace ("
               ++ Js.toString (Qfloor (Qmult (random amb 4) (9999 # 1)))
               ++ Js.lit ")"))
    else if negb (Qle_bool msgType (6 # 10)) then
      Some (LogEntry.mk (Js.toString (dateNow amb 0)) timeStr DEBUG (Js.lit "netns")
              (Js.lit "Packet drop: out-of-bounds destination"))
    else
      Some (LogEntry.mk (Js.toString (dateNow amb 0)) timeStr INFO (Js.lit "browser")
              (Js.lit "Garbage collection in isolated heap")).

(** One tick of the interval. *)
Definition tick (timeStr : Js.str) (amb : Ambient) (s : Cells) : Cells :=
  mkCells (activeTab s)
    (logs s ++ match newLog timeStr amb with Some l => [l] | None => [] end)
    (modules s)
    (lastN 20 (resourceData s ++ [newPoint timeStr amb])).

Definition flip (id : Js.str) (m : SecurityModule.t) : SecurityModule.t :=
  if Js.eqb (SecurityModule.id m) id then
    SecurityModule.mk (SecurityModule.id m) (SecurityModule.name m)
      (negb (SecurityModule.enabled m)) (SecurityModule.status m)
      (SecurityModule.description m)
  else m.

(** [toggleModule(id)] *)
Definition toggleModule (timeStr : Js.str) (amb : Ambient) (id : Js.str) (s : Cells)
    : Cells :=
  mkCells (activeTab s)
    (logs s ++
       [LogEntry.mk (Js.toString (dateNow amb 0)) timeStr WARN (Js.lit "user_action")
          (Js.lit "Security module " ++ id ++ Js.lit " toggled by admin")])
    (List.map (flip id) (modules s))
    (resourceData s).

(** What happens to the dashboard: a tick of the interval, a switch of a
    module, a tab of the side bar. *)
Inductive Step :=
| Tick (timeStr : Js.str)
| ToggleModule (timeStr id : Js.str)
| SetActiveTab (tab : Js.str).

Definition step (amb : Ambient) (a : Step) (s : Cells) : Cells :=
  match a with
  | Tick timeStr => tick timeStr amb s
  | ToggleModule timeStr id => toggleModule timeStr amb id s
  | SetActiveTab tab => mkCells tab (logs s) (modules s) (resourceData s)
  end.

(** [Math.random()] answers in [0, 1). *)
Definition unitRandom (amb : Ambient) : Prop :=
  forall k, (0 <= random amb k)%Q /\ (random amb k < 1)%Q.

Inductive attainable : Cells -> Prop :=
| attainable_init : attainable initialCells
| attainable_step (amb : Ambient) (a : Step) (s : Cells) :
    attainable s -> unitRandom amb -> attainable (step amb a s).

(** A sample within the bands of the simulation. *)
Definition inBand (p : ResourcePoint.t) : Prop :=
  (10 # 1 <= ResourcePoint.cpu p)%Q /\ (ResourcePoint.cpu p <= 25 # 1)%Q
  /\ (200 # 1 <= ResourcePoint.memory p)%Q /\ (ResourcePoint.memory p <= 250 # 1)%Q.

(** What a switch never touches. *)
Definition fixedPart (m : SecurityModule.t) : Js.str * Js.str * Status * Js.str :=
  (SecurityModule.id m, SecurityModule.name m, SecurityModule.status m,
   SecurityModule.description m).

End App.

(** * Properties *)

(** ** Strings *)

Lemma eqb_eq (a b : Js.str) : Js.eqb a b = true <-> a = b.
Proof.
  revert b; induction a as [|x a IH]; intros [|y b]; simpl; split;
    try congruence; try discriminate; auto.
  - intros [Hx Hab]%andb_prop. apply N.eqb_eq in Hx. apply IH in Hab. congruence.
  - intros [= -> ->]. rewrite N.eqb_refl. simpl. now apply IH.
Qed.

Lemma eqb_refl (a : Js.str) : Js.eqb a a = true.
Proof. now apply eqb_eq. Qed.

Lemma eqb_neq (a b : Js.str) : Js.eqb a b = false <-> a <> b.
Proof.
  split.
  - intros H E. apply eqb_eq in E. congruence.
  - intros H. destruct (Js.eqb a b) eqn:E; [apply eqb_eq in E; contradiction | reflexivity].
Qed.

(** ** The history stack *)

Lemma slice0_nonneg {A} (a : list A) (e : Z) :
  (0 <= e)%Z -> slice0 a e = take (Z.to_nat e) a.
Proof.
  intros He. unfold slice0.
  destruct (e <? 0)%Z eqn:E; [lia|].
  destruct (Z.min_spec e (Z.of_nat (length a))) as [[Hlt ->]|[Hge ->]]; [reflexivity|].
  rewrite Nat2Z.id, !take_ge; [reflexivity|lia..].
Qed.

Lemma slice0_length {A} (a : list A) (e : Z) :
  (0 <= e <= Z.of_nat (length a))%Z -> Z.of_nat (length (slice0 a e)) = e.
Proof.
  intros He. rewrite slice0_nonneg, length_take by lia. lia.
Qed.

Lemma pushHistory_history (u : Js.str) (s0 s : State) :
  history (pushHistory u s0 s) = slice0 (history s0) (historyIndex s0 + 1) ++ [u].
Proof. reflexivity. Qed.

Lemma pushHistory_index (u : Js.str) (s0 s : State) :
  historyIndex (pushHistory u s0 s)
  = (Z.of_nat (length (history (pushHistory u s0 s))) - 1)%Z.
Proof. reflexivity. Qed.

Lemma pushHistory_url (u : Js.str) (s0 s : State) :
  url (pushHistory u s0 s) = url s.
Proof. reflexivity. Qed.

(** What [navigate] does to the stack, the index and the URL: nothing when
    nothing is committed, the truncate-and-append otherwise. *)
Lemma navigate_stack (amb : Ambient) (input : Js.str) (s : State) :
  match committedUrl input with
  | Some u =>
      history (navigate amb input s)
        = slice0 (history s) (historyIndex s + 1) ++ [u]
      /\ historyIndex (navigate amb input s)
        = (Z.of_nat (length (history (navigate amb input s))) - 1)%Z
      /\ url (navigate amb input s) = u
  | None =>
      history (navigate amb input s) = history s
      /\ historyIndex (navigate amb input s) = historyIndex s
      /\ url (navigate amb input s) = url s
  end.
Proof.
  unfold committedUrl, navigate.
  destruct (Js.eqb (Js.trim input) newtabUrl || Js.eqb (Js.trim input) []).
  - repeat split.
  - destruct (classify (Js.trim input)) as [target [|]].
    + destruct (Js.encodeURIComponent target); repeat split.
    + repeat split.
Qed.

Lemma navigate_indexInRange (amb : Ambient) (input : Js.str) (s : State) :
  indexInRange s -> indexInRange (navigate amb input s).
Proof.
  unfold indexInRange. intros H.
  pose proof (navigate_stack amb input s) as N.
  destruct (committedUrl input) as [u|].
  - destruct N as (Hh & Hi & _). rewrite Hi, Hh, length_app. simpl.
    assert (Z.of_nat (length (slice0 (history s) (historyIndex s + 1)))
            = historyIndex s + 1)%Z by (apply slice0_length; lia).
    lia.
  - destruct N as (-> & -> & _). exact H.
Qed.

Lemma index_Some {A} (a : list A) (i : Z) :
  (0 <= i < Z.of_nat (length a))%Z -> exists x, index a i = Some x.
Proof.
  intros H. unfold index. destruct (i <? 0)%Z eqn:E; [lia|].
  destruct (lookup_lt_is_Some_2 a (Z.to_nat i)) as [x Hx]; [lia|]. eauto.
Qed.

Lemma handleBack_indexInRange (s s' : State) :
  indexInRange s -> handleBack s = Some s' -> indexInRange s'.
Proof.
  unfold indexInRange, handleBack. intros H.
  destruct (0 <? historyIndex s)%Z eqn:E.
  - destruct (index (history s) (historyIndex s - 1)); intros [= <-]; simpl; lia.
  - intros [= <-]. exact H.
Qed.

Lemma handleForward_indexInRange (s s' : State) :
  indexInRange s -> handleForward s = Some s' -> indexInRange s'.
Proof.
  unfold indexInRange, handleForward. intros H.
  destruct (historyIndex s <? Z.of_nat (length (history s)) - 1)%Z eqn:E.
  - destruct (index (history s) (historyIndex s + 1)); intros [= <-]; simpl; lia.
  - intros [= <-]. exact H.
Qed.

(** The URL effect leaves the stack and its index alone. *)
Lemma syncUrl_stack (s s' : State) :
  syncUrl s = Some s' ->
  history s' = history s /\ historyIndex s' = historyIndex s /\ url s' = url s.
Proof.
  unfold syncUrl.
  destruct (Js.eqb (url s) newtabUrl); [intros [= <-]; auto|].
  destruct (Js.startsWith _ (url s)); [|intros [= <-]; auto].
  destruct (Js.decodeURIComponent _); [|discriminate].
  destruct (length (searchResults s) =? 0)%nat; intros [= <-]; auto.
Qed.

Lemma afterRender_stack (s0 s s' : State) :
  afterRender s0 s = Some s' ->
  history s' = history s /\ historyIndex s' = historyIndex s /\ url s' = url s.
Proof.
  unfold afterRender. destruct (Js.eqb (url s) (url s0)).
  - intros [= <-]; auto.
  - apply syncUrl_stack.
Qed.

Lemma handle_indexInRange (amb : Ambient) (ev : Event) (s s' : State) :
  indexInRange s -> handle amb ev s = Some s' -> indexInRange s'.
Proof.
  intros H. destruct ev; simpl.
  - intros [= <-]. now apply navigate_indexInRange.
  - now apply handleBack_indexInRange.
  - now apply handleForward_indexInRange.
  - intros [= <-]. unfold indexInRange. simpl. lia.
  - intros [= <-]. exact H.
  - intros [= <-]. exact H.
  - intros [= <-]. unfold toggleBookmark.
    destruct (List.find _ _); exact H.
  - destruct (importBookmarks text s) as [[s1 l]|] eqn:E; [|discriminate].
    intros [= <-]. unfold importBookmarks in E.
    destruct (Json.parse text) as [[]|]; try (injection E as <- _; exact H).
    destruct (asBookmarks items); [|discriminate].
    injection E as <- _. exact H.
  - intros [= <-]. exact H.
Qed.

Lemma dispatch_indexInRange (amb : Ambient) (ev : Event) (s s' : State) :
  indexInRange s -> dispatch amb ev s = Some s' -> indexInRange s'.
Proof.
  unfold dispatch. intros H.
  destruct (handle amb ev s) as [s1|] eqn:E; [|discriminate].
  intros R. apply afterRender_stack in R as (Hh & Hi & _).
  pose proof (handle_indexInRange amb ev s s1 H E) as H1.
  unfold indexInRange in *. rewrite Hh, Hi. exact H1.
Qed.

(** C1. History invariant: in every state reachable from the seeded session
    (stack [[newtab]], index 0) through events, among them every sequence of
    navigate, back, forward and reset, the index satisfies
    [0 <= historyIndex < history.length]. *)
Theorem history_index_in_range (s : State) :
  reachable s ->
  (0 <= historyIndex s < Z.of_nat (length (history s)))%Z.
Proof.
  induction 1 as [t | amb ev s s' _ IH D].
  - simpl. lia.
  - exact (dispatch_indexInRange amb ev s s' IH D).
Qed.

Lemma run_reachable (amb : Ambient) (evs : list Event) (s s' : State) :
  reachable s -> run amb evs s = Some s' -> reachable s'.
Proof.
  revert s. induction evs as [|ev evs IH]; simpl; intros s R.
  - intros [= <-]. exact R.
  - destruct (dispatch amb ev s) as [s1|] eqn:D; [|discriminate].
    apply IH. exact (reachable_step amb ev s s1 R D).
Qed.

Lemma history_index_in_range_witness :
  run sampleAmbient [Navigate urlA; Navigate urlB; Back] (initialState 0)
    = Some sessionABack
  /\ (0 <= historyIndex sessionABack
        < Z.of_nat (length (history sessionABack)))%Z.
Proof.
  assert (E : run sampleAmbient [Navigate urlA; Navigate urlB; Back] (initialState 0)
              = Some sessionABack) by (vm_compute; reflexivity).
  split; [exact E|].
  apply history_index_in_range.
  exact (run_reachable _ _ _ _ (reachable_init 0) E).
Defined.

Lemma committedUrl_absolute (input : Js.str) :
  Js.trim input = input ->
  Js.includes (Js.lit "://") input = true ->
  committedUrl input = Some input.
Proof.
  intros T I. unfold committedUrl. rewrite T.
  destruct (Js.eqb input newtabUrl) eqn:E1.
  - apply eqb_eq in E1. simpl. congruence.
  - destruct (Js.eqb input []) eqn:E2.
    + apply eqb_eq in E2. subst. discriminate.
    + simpl. unfold classify. rewrite I. reflexivity.
Qed.

(** C2. Forward truncation: [navigate] keeps the first [historyIndex + 1]
    entries of the stack, appends the URL it commits and points the index at
    that last entry; so from [[A; B; C]] at index 2, back and then
    navigate(D) give [[A; B; D]] at index 2.  (The committed URL is the
    input itself when the input is an absolute URL.) *)
Theorem navigate_discards_forward_branch
    (amb : Ambient) (input u : Js.str) (s : State) :
  (-1 <= historyIndex s)%Z ->
  committedUrl input = Some u ->
  history (navigate amb input s)
    = take (Z.to_nat (historyIndex s + 1)) (history s) ++ [u]
  /\ historyIndex (navigate amb input s)
    = (Z.of_nat (length (history (navigate amb input s))) - 1)%Z
  /\ (forall A B C : Js.str,
        history s = [A; B; C] -> historyIndex s = 2%Z ->
        exists s1, handleBack s = Some s1
                   /\ history (navigate amb input s1) = [A; B; u]
                   /\ historyIndex (navigate amb input s1) = 2%Z)
  /\ (Js.trim input = input -> Js.includes (Js.lit "://") input = true ->
      u = input).
Proof.
  intros Hi Hu.
  pose proof (navigate_stack amb input s) as N. rewrite Hu in N.
  destruct N as (Hh & Hx & _).
  rewrite slice0_nonneg in Hh by lia.
  split; [exact Hh|]. split; [exact Hx|]. split.
  - intros A B C HS HI.
    unfold handleBack. rewrite HI, HS. simpl.
    eexists. split; [reflexivity|].
    match goal with |- context [navigate amb input ?s1] =>
      pose proof (navigate_stack amb input s1) as N1 end.
    rewrite Hu in N1. destruct N1 as (Hh1 & Hx1 & _).
    rewrite Hx1, Hh1. simpl. rewrite HS. split; reflexivity.
  - intros T I. rewrite (committedUrl_absolute input T I) in Hu. congruence.
Qed.

Lemma navigate_discards_forward_branch_witness :
  history sessionAB = [newtabUrl; urlA; urlB]
  /\ historyIndex sessionAB = 2%Z
  /\ exists s1, handleBack sessionAB = Some s1
       /\ history (navigate sampleAmbient urlD s1) = [newtabUrl; urlA; urlD]
       /\ historyIndex (navigate sampleAmbient urlD s1) = 2%Z.
Proof.
  assert (HS : history sessionAB = [newtabUrl; urlA; urlB]) by (vm_compute; reflexivity).
  assert (HI : historyIndex sessionAB = 2%Z) by (vm_compute; reflexivity).
  split; [exact HS|]. split; [exact HI|].
  assert (H0 : (-1 <= historyIndex sessionAB)%Z) by (rewrite HI; lia).
  assert (HU : committedUrl urlD = Some urlD) by (vm_compute; reflexivity).
  destruct (navigate_discards_forward_branch sampleAmbient urlD urlD sessionAB H0 HU)
    as (_ & _ & Hex & _).
  exact (Hex newtabUrl urlA urlB HS HI).
Defined.

(** ** Back and forward *)

Lemma handleBack_at_first (s : State) :
  (historyIndex s <= 0)%Z -> handleBack s = Some s.
Proof.
  intros H. unfold handleBack. destruct (0 <? historyIndex s)%Z eqn:E; [lia|reflexivity].
Qed.

Lemma handleForward_at_last (s : State) :
  (Z.of_nat (length (history s)) - 1 <= historyIndex s)%Z -> handleForward s = Some s.
Proof.
  intros H. unfold handleForward.
  destruct (historyIndex s <? _)%Z eqn:E; [lia|reflexivity].
Qed.

Lemma handleBack_moves (s : State) :
  indexInRange s -> (0 < historyIndex s)%Z ->
  exists u s', index (history s) (historyIndex s - 1) = Some u
    /\ handleBack s = Some s'
    /\ historyIndex s' = (historyIndex s - 1)%Z /\ url s' = u
    /\ history s' = history s.
Proof.
  unfold indexInRange. intros R P.
  destruct (index_Some (history s) (historyIndex s - 1)) as [u Hu]; [lia|].
  exists u. unfold handleBack. rewrite Hu.
  destruct (0 <? historyIndex s)%Z eqn:E; [|lia].
  eexists. repeat split; reflexivity.
Qed.

Lemma handleForward_moves (s : State) :
  indexInRange s -> (historyIndex s < Z.of_nat (length (history s)) - 1)%Z ->
  exists u s', index (history s) (historyIndex s + 1) = Some u
    /\ handleForward s = Some s'
    /\ historyIndex s' = (historyIndex s + 1)%Z /\ url s' = u
    /\ history s' = history s.
Proof.
  unfold indexInRange. intros R P.
  destruct (index_Some (history s) (historyIndex s + 1)) as [u Hu]; [lia|].
  exists u. unfold handleForward. rewrite Hu.
  destruct (historyIndex s <? _)%Z eqn:E; [|lia].
  eexists. repeat split; reflexivity.
Qed.

(** At the boundaries back and forward change nothing, and no effect
    runs. *)
Lemma dispatch_back_at_first (amb : Ambient) (s : State) :
  (historyIndex s <= 0)%Z -> dispatch amb Back s = Some s.
Proof.
  intros H. unfold dispatch, handle. rewrite (handleBack_at_first s H).
  unfold afterRender. now rewrite eqb_refl.
Qed.

Lemma dispatch_forward_at_last (amb : Ambient) (s : State) :
  (Z.of_nat (length (history s)) - 1 <= historyIndex s)%Z ->
  dispatch amb Forward s = Some s.
Proof.
  intros H. unfold dispatch, handle. rewrite (handleForward_at_last s H).
  unfold afterRender. now rewrite eqb_refl.
Qed.

(** When the URL effect runs, the page, the query and the address bar follow
    from the URL; the results are synthesized only when there are none. *)
Lemma syncUrl_derives (s s' : State) :
  syncUrl s = Some s' ->
  (url s = newtabUrl -> internalPage s' = newtab /\ searchResults s' = searchResults s)
  /\ (url s <> newtabUrl ->
      Js.startsWith (Js.lit "chimera://search") (url s) = true ->
      exists q,
        Js.decodeURIComponent (Js.orEmpty (Js.splitSecond (Js.lit "q=") (url s))) = Some q
        /\ internalPage s' = search /\ searchQuery s' = q
        /\ searchResults s'
           = match searchResults s with [] => mockResults q | _ => searchResults s end)
  /\ (url s <> newtabUrl ->
      Js.startsWith (Js.lit "chimera://search") (url s) = false ->
      internalPage s' = external /\ searchResults s' = searchResults s).
Proof.
  unfold syncUrl. intros H.
  destruct (Js.eqb (url s) newtabUrl) eqn:E1.
  - apply eqb_eq in E1. injection H as <-. repeat split; try contradiction.
  - apply eqb_neq in E1.
    destruct (Js.startsWith _ (url s)) eqn:E2.
    + destruct (Js.decodeURIComponent _) as [q|]; [|discriminate].
      injection H as <-. split; [contradiction|]. split; [|discriminate].
      intros _ _. exists q. split; [reflexivity|].
      destruct (searchResults s) eqn:ER; simpl; rewrite ?ER; repeat split; reflexivity.
    + injection H as <-. split; [contradiction|]. split; [discriminate|].
      intros _ _. split; reflexivity.
Qed.

(** C3. Back onto a search URL while results of another query are on
    display: the URL, the page and the query are those of the earlier
    search, but the results are not synthesized again; the list stays that
    of the later query. *)
Theorem back_keeps_stale_results :
  exists s,
    run sampleAmbient sessionCatsDogs (initialState 0) = Some s
    /\ historyIndex s = 1%Z
    /\ url s = Js.lit "chimera://search?q=cats"
    /\ internalPage s = search
    /\ searchQuery s = Js.lit "cats"
    /\ searchResults s = mockResults (Js.lit "dogs")
    /\ searchResults s <> mockResults (Js.lit "cats").
Proof.
  eexists. split; [vm_compute; reflexivity|].
  repeat split; try (vm_compute; reflexivity).
  vm_compute. discriminate.
Qed.

(** ** The synthesizer *)

Lemma navigate_results (amb : Ambient) (input : Js.str) (s : State) :
  searchResults (navigate amb input s)
  = match committedUrl input, classify (Js.trim input) with
    | Some u, (q, true) =>
        if Js.eqb (Js.trim input) newtabUrl || Js.eqb (Js.trim input) []
        then searchResults s else mockResults q
    | _, _ => searchResults s
    end.
Proof.
  unfold committedUrl, navigate.
  destruct (Js.eqb (Js.trim input) newtabUrl || Js.eqb (Js.trim input) []).
  - destruct (classify (Js.trim input)) as [q [|]]; reflexivity.
  - destruct (classify (Js.trim input)) as [q [|]].
    + destruct (Js.encodeURIComponent q); reflexivity.
    + reflexivity.
Qed.

(** C4. Determinism: the results synthesized for a query are the same list,
    field for field and ad flag for ad flag, whatever the state they are
    synthesized in; and the results on display after [navigate] depend on
    the input and on the results shown before, not on the clock, the random
    source, the URL parser or any other part of the state. *)
Theorem synthesizer_deterministic
    (q : Js.str) (amb1 amb2 : Ambient) (s1 s2 : State) :
  searchResults (generateMockResults q s1) = searchResults (generateMockResults q s2)
  /\ List.map SearchResult.ads (searchResults (generateMockResults q s1))
     = List.map SearchResult.ads (searchResults (generateMockResults q s2))
  /\ (searchResults s1 = searchResults s2 ->
      searchResults (navigate amb1 q s1) = searchResults (navigate amb2 q s2)).
Proof.
  split; [reflexivity|]. split; [reflexivity|].
  intros H. rewrite !navigate_results, H. reflexivity.
Qed.

Lemma synthesizer_deterministic_witness :
  searchResults (navigate sampleAmbient (Js.lit "cats") (initialState 0))
  = searchResults
      (navigate (mkAmbient (fun _ => 7%Z) (fun _ => 0 # 1) (fun _ => None))
         (Js.lit "cats") sessionAB).
Proof.
  apply (synthesizer_deterministic (Js.lit "cats")).
  vm_compute. reflexivity.
Defined.

Lemma toInt32_range (z : Z) : (- 2 ^ 31 <= toInt32 z < 2 ^ 31)%Z.
Proof.
  unfold toInt32.
  pose proof (Z.mod_pos_bound (z + 2 ^ 31) (2 ^ 32) ltac:(lia)). lia.
Qed.

(** One round of the loop is [31 * hash + c], wrapped to 32 bits. *)
Lemma hashStep_polynomial (h : Z) (c : N) :
  hashStep h c = toInt32 (31 * h + Z.of_N c).
Proof.
  unfold hashStep, toInt32. rewrite Z.shiftl_mul_pow2 by lia.
  f_equal.
  change (2 ^ 5)%Z with 32%Z. change (2 ^ 31)%Z with 2147483648%Z.
  change (2 ^ 32)%Z with 4294967296%Z.
  Z.div_mod_to_equations. lia.
Qed.

Lemma hashOf_snoc (q : Js.str) (c : N) :
  hashOf (q ++ [c]) = toInt32 (31 * hashOf q + Z.of_N c).
Proof.
  unfold hashOf. rewrite fold_left_app. simpl. apply hashStep_polynomial.
Qed.

Lemma hashOf_range (q : Js.str) : (- 2 ^ 31 <= hashOf q < 2 ^ 31)%Z.
Proof.
  induction q as [|c q _] using rev_ind.
  - unfold hashOf. simpl. lia.
  - rewrite hashOf_snoc. apply toInt32_range.
Qed.

Lemma mockResults_lookup (q : Js.str) (i : nat) (r : SearchResult.t) :
  mockResults q !! i = Some r ->
  (i < 8)%nat /\ r = mockResult q (Z.of_nat i).
Proof.
  unfold mockResults. intros H.
  change (List.map ?f ?l) with (f <$> l) in H.
  rewrite list_lookup_fmap in H.
  destruct (seq 0 8 !! i) as [j|] eqn:E; [|discriminate].
  apply lookup_seq in E as [-> Hi]. simpl in H. injection H as <-.
  split; [lia|reflexivity].
Qed.

Lemma typeOf_tag (seed : Z) :
  (0 <= seed)%Z ->
  exists tag, types !! Z.to_nat (seed mod 4) = Some tag /\ typeOf seed = tag.
Proof.
  intros H. unfold typeOf. change (Z.of_nat (length types)) with 4%Z.
  rewrite Z.rem_mod_nonneg by lia.
  pose proof (Z.mod_pos_bound seed 4 ltac:(lia)) as B.
  unfold index. destruct (seed mod 4 <? 0)%Z eqn:E; [lia|].
  assert (C : (seed mod 4 = 0 \/ seed mod 4 = 1 \/ seed mod 4 = 2 \/ seed mod 4 = 3)%Z) by lia.
  destruct C as [-> | [-> | [-> | ->]]]; simpl; eauto.
Qed.

(** C6. The synthesizer returns exactly 8 results; the hash is the rolling
    accumulation [31 * hash + c] wrapped to a signed 32-bit integer at every
    character; the seed of slot [i] is the absolute value of the hash plus
    [i]; the tag in the title is the one of the four fixed tags selected by
    the seed modulo 4; and the slot is an advertisement exactly when its
    seed is divisible by 4. *)
Theorem synthesizer_slots (q : Js.str) :
  length (mockResults q) = 8%nat
  /\ hashOf [] = 0%Z
  /\ (forall c, hashOf (q ++ [c]) = toInt32 (31 * hashOf q + Z.of_N c))
  /\ (- 2 ^ 31 <= hashOf q < 2 ^ 31)%Z
  /\ (forall (i : nat) (r : SearchResult.t),
        mockResults q !! i = Some r ->
        let seed := (Z.abs (hashOf q) + Z.of_nat i)%Z in
        (i < 8)%nat
        /\ (SearchResult.ads r = true <-> (4 | seed)%Z)
        /\ exists tag,
             types !! Z.to_nat (seed mod 4) = Some tag
             /\ SearchResult.title r
                = q ++ Js.lit " - Result " ++ Js.toString (Z.of_nat i + 1)
                    ++ Js.lit " (" ++ tag ++ Js.lit ")").
Proof.
  split; [reflexivity|]. split; [reflexivity|].
  split; [intros c; apply hashOf_snoc|]. split; [apply hashOf_range|].
  intros i r H seed. apply mockResults_lookup in H as [Hi ->].
  split; [exact Hi|].
  assert (Hs : (0 <= seed)%Z) by (unfold seed; lia).
  split.
  - unfold mockResult. simpl. fold seed. change (resultSeed q (Z.of_nat i)) with seed.
    rewrite Z.rem_mod_nonneg by lia. rewrite Z.eqb_eq.
    rewrite <- Z.mod_divide by lia. reflexivity.
  - destruct (typeOf_tag seed Hs) as (tag & Ht & Hy).
    exists tag. split; [exact Ht|].
    unfold mockResult. simpl. change (resultSeed q (Z.of_nat i)) with seed.
    rewrite Hy. reflexivity.
Qed.

Lemma synthesizer_slots_witness :
  exists r, mockResults (Js.lit "rocq prover") !! 3%nat = Some r
    /\ (SearchResult.ads r = true
        <-> (4 | Z.abs (hashOf (Js.lit "rocq prover")) + 3)%Z).
Proof.
  eexists. split; [reflexivity|].
  destruct (synthesizer_slots (Js.lit "rocq prover")) as (_ & _ & _ & _ & H).
  exact (proj1 (proj2 (H 3%nat _ eq_refl))).
Defined.

(** With the signed hash in place of its absolute value the ad slots come
    out different: for "rocq prover" the hash is negative and odd, slot 1 is
    not an advertisement although [hash + 1] is divisible by 4. *)
Lemma seed_is_not_signed_hash :
  ~ (forall (q : Js.str) (i : nat) (r : SearchResult.t),
       mockResults q !! i = Some r ->
       (SearchResult.ads r = true <-> (4 | hashOf q + Z.of_nat i)%Z)).
Proof.
  intros H.
  specialize (H (Js.lit "rocq prover") 1%nat _ eq_refl).
  assert (D : (4 | hashOf (Js.lit "rocq prover") + Z.of_nat 1)%Z).
  { exists (-214232821)%Z. vm_compute. reflexivity. }
  apply H in D. vm_compute in D. discriminate.
Qed.

(** ** Downloads *)






(** ** Progress stays within range *)

Lemma tickOne_bounded (r : Q) (dl : DownloadItem.t) :
  (DownloadItem.progress dl <= 100 # 1)%Q ->
  (DownloadItem.progress (tickOne r dl) <= 100 # 1)%Q.
Proof.
  intros H. unfold tickOne. destruct (DownloadItem.status dl); try exact H.
  destruct (Qle_bool (100 # 1) (DownloadItem.progress dl + r * (8 # 1))) eqn:E; simpl.
  - lra.
  - destruct (Qlt_le_dec (DownloadItem.progress dl + r * (8 # 1)) (100 # 1)) as [L|L].
    + lra.
    + apply Qle_bool_iff in L. congruence.
Qed.

Lemma tickFrom_bounded (amb : Ambient) (dls : list DownloadItem.t) :
  forall k,
    Forall (fun dl => (DownloadItem.progress dl <= 100 # 1)%Q) dls ->
    Forall (fun dl => (DownloadItem.progress dl <= 100 # 1)%Q) (tickFrom amb k dls).
Proof.
  induction dls as [|d dls IH]; intros k H; [constructor|].
  apply Forall_cons in H as [Hd Hr]. simpl.
  destruct (DownloadItem.status d) eqn:S; constructor;
    try (apply tickOne_bounded; exact Hd); apply IH; exact Hr.
Qed.

Lemma navigate_downloads (amb : Ambient) (input : Js.str) (s : State) :
  downloads (navigate amb input s) = downloads s.
Proof.
  unfold navigate.
  destruct (Js.eqb (Js.trim input) newtabUrl || Js.eqb (Js.trim input) []); [reflexivity|].
  destruct (classify (Js.trim input)) as [target [|]]; [|reflexivity].
  destruct (Js.encodeURIComponent target); reflexivity.
Qed.

Lemma afterRender_downloads (s0 s s' : State) :
  afterRender s0 s = Some s' -> downloads s' = downloads s.
Proof.
  unfold afterRender, syncUrl.
  destruct (Js.eqb (url s) (url s0)); [intros [= <-]; reflexivity|].
  destruct (Js.eqb (url s) newtabUrl); [intros [= <-]; reflexivity|].
  destruct (Js.startsWith _ (url s)); [|intros [= <-]; reflexivity].
  destruct (Js.decodeURIComponent _); [|discriminate].
  destruct (length (searchResults s) =? 0)%nat; intros [= <-]; reflexivity.
Qed.

(** In every reachable state the progress of every download is at most
    100, whatever the random source gave. *)
Lemma reachable_progress_bounded (s : State) :
  reachable s ->
  Forall (fun dl => (DownloadItem.progress dl <= 100 # 1)%Q) (downloads s).
Proof.
  induction 1 as [t | amb ev s s' _ IH D]; [constructor|].
  unfold dispatch in D.
  destruct (handle amb ev s) as [s1|] eqn:H; [|discriminate].
  rewrite (afterRender_downloads s s1 s' D). clear D.
  destruct ev; simpl in H.
  - injection H as <-. now rewrite navigate_downloads.
  - unfold handleBack in H. destruct (0 <? historyIndex s)%Z.
    + destruct (index _ _); [|discriminate]. now injection H as <-.
    + now injection H as <-.
  - unfold handleForward in H. destruct (historyIndex s <? _)%Z.
    + destruct (index _ _); [|discriminate]. now injection H as <-.
    + now injection H as <-.
  - injection H as <-. constructor.
  - now injection H as <-.
  - injection H as <-. simpl. now apply tickFrom_bounded.
  - injection H as <-. unfold toggleBookmark. now destruct (List.find _ _).
  - unfold importBookmarks in H.
    destruct (Json.parse text) as [[]|]; try (now injection H as <-).
    destruct (asBookmarks items); [|discriminate]. now injection H as <-.
  - injection H as <-. simpl. constructor; [simpl; lra|exact IH].
Qed.

(** ** Bookmarks *)

Section Toggle.
Variable p : Bookmark.t -> bool.

Lemma find_none_filter (l : list Bookmark.t) :
  List.find p l = None -> List.filter (fun b => negb (p b)) l = l.
Proof.
  induction l as [|b l IH]; simpl; [reflexivity|].
  destruct (p b); [discriminate|]. simpl. intros H. now rewrite IH.
Qed.



Lemma filter_negb_snoc (l : list Bookmark.t) (b : Bookmark.t) :
  p b = true ->
  List.filter (fun b => negb (p b)) (l ++ [b]) = List.filter (fun b => negb (p b)) l.
Proof.
  intros H. rewrite List.filter_app. simpl. rewrite H. simpl. apply app_nil_r.
Qed.

Lemma filter_negb_idem (l : list Bookmark.t) :
  List.filter (fun b => negb (p b)) (List.filter (fun b => negb (p b)) l)
  = List.filter (fun b => negb (p b)) l.
Proof.
  induction l as [|b l IH]; simpl; [reflexivity|].
  destruct (p b) eqn:E; simpl; [exact IH|]. rewrite E. simpl. now rewrite IH.
Qed.
End Toggle.






(** On a bookmarked URL the second toggle makes a new bookmark: the one
    removed is not put back in its place, a fresh one goes to the end. *)
Lemma toggle_twice_on_bookmarked_url :
  List.map Bookmark.title (bookmarks sessionWikipedia)
    = [Js.lit "Wikipedia"; Js.lit "Hacker News"; Js.lit "EFF"]
  /\ List.map Bookmark.title
       (bookmarks (toggleBookmark sampleAmbient
                     (toggleBookmark sampleAmbient sessionWikipedia)))
     = [Js.lit "Hacker News"; Js.lit "EFF"; Js.lit "www.wikipedia.org"].
Proof. split; vm_compute; reflexivity. Qed.

(** ** Bookmark import *)




(** ** Percent-encoding round trip *)

#[local] Ltac Zify.zify_post_hook ::= Z.to_euclidean_division_equations.

(** Settles the comparisons of the goal that follow from the context. *)
Ltac settle_comparisons :=
  repeat match goal with
  | |- context [(?a <=? ?b)%N] =>
      first [ replace (a <=? b)%N with true by (symmetry; apply N.leb_le; lia)
            | replace (a <=? b)%N with false by (symmetry; apply N.leb_gt; lia) ]
  | |- context [(?a <? ?b)%N] =>
      first [ replace (a <? b)%N with true by (symmetry; apply N.ltb_lt; lia)
            | replace (a <? b)%N with false by (symmetry; apply N.ltb_ge; lia) ]
  | |- context [(?a =? ?b)%N] =>
      first [ replace (a =? b)%N with true by (symmetry; apply N.eqb_eq; lia)
            | replace (a =? b)%N with false by (symmetry; apply N.eqb_neq; lia) ]
  end.

Lemma hexVal_hexDigit (d : N) : (d < 16)%N -> Js.hexVal (Js.hexDigit d) = Some d.
Proof.
  intros H. unfold Js.hexVal, Js.hexDigit.
  destruct (d <? 10)%N eqn:E; [apply N.ltb_lt in E | apply N.ltb_ge in E];
    settle_comparisons; simpl; f_equal; lia.
Qed.

Lemma hexDigit_not_equals_sign (d : N) : Js.hexDigit d <> 61%N.
Proof.
  unfold Js.hexDigit. destruct (d <? 10)%N eqn:E;
    [apply N.ltb_lt in E | apply N.ltb_ge in E]; lia.
Qed.

Lemma readPct_escape (b : N) (rest : Js.str) :
  (b < 256)%N ->
  Js.readPct (37%N :: Js.hexDigit (b / 16) :: Js.hexDigit (b mod 16) :: rest)
  = Some (b, rest).
Proof.
  intros H. unfold Js.readPct. rewrite N.eqb_refl.
  rewrite !hexVal_hexDigit by lia. do 2 f_equal. lia.
Qed.

Lemma readCodePoint_two (b0 b1 : N) (r : Js.str) :
  (194 <= b0 <= 223)%N -> (128 <= b1 <= 191)%N ->
  Js.readCodePoint b0 (Js.pctAll [b1] ++ r)
  = Some (((b0 - 192) * 64 + (b1 - 128))%N, r).
Proof.
  intros H0 H1. unfold Js.readCodePoint.
  cbn [Js.pctAll List.map List.concat app Js.pct].
  rewrite readPct_escape by lia. unfold Js.isCont.
  settle_comparisons. reflexivity.
Qed.

Lemma readCodePoint_three (b0 b1 b2 : N) (r : Js.str) :
  (224 <= b0 <= 239)%N -> (128 <= b1 <= 191)%N -> (128 <= b2 <= 191)%N ->
  (2048 <= (b0 - 224) * 4096 + (b1 - 128) * 64 + (b2 - 128))%N ->
  ~ (55296 <= (b0 - 224) * 4096 + (b1 - 128) * 64 + (b2 - 128) <= 57343)%N ->
  Js.readCodePoint b0 (Js.pctAll [b1; b2] ++ r)
  = Some (((b0 - 224) * 4096 + (b1 - 128) * 64 + (b2 - 128))%N, r).
Proof.
  intros H0 H1 H2 Hlo Hs. unfold Js.readCodePoint.
  cbn [Js.pctAll List.map List.concat app Js.pct].
  rewrite !readPct_escape by lia. unfold Js.isCont.
  cbv zeta.
  replace ((194 <=? b0) && (b0 <=? 223))%N with false
    by (symmetry; apply andb_false_iff; right; apply N.leb_gt; lia).
  replace ((224 <=? b0) && (b0 <=? 239))%N with true
    by (symmetry; apply andb_true_iff; split; apply N.leb_le; lia).
  replace ((128 <=? b1) && (b1 <=? 191))%N with true
    by (symmetry; apply andb_true_iff; split; apply N.leb_le; lia).
  replace ((128 <=? b2) && (b2 <=? 191))%N with true
    by (symmetry; apply andb_true_iff; split; apply N.leb_le; lia).
  replace (2048 <=? _)%N with true by (symmetry; apply N.leb_le; lia).
  replace ((55296 <=? _) && (_ <=? 57343))%N with false; [reflexivity|].
  symmetry. apply andb_false_iff.
  destruct (N.le_gt_cases 55296 ((b0 - 224) * 4096 + (b1 - 128) * 64 + (b2 - 128)))
    as [Hge|Hlt].
  - right. apply N.leb_gt. lia.
  - left. apply N.leb_gt. lia.
Qed.

Lemma readCodePoint_four (b0 b1 b2 b3 : N) (r : Js.str) :
  (240 <= b0 <= 244)%N -> (128 <= b1 <= 191)%N -> (128 <= b2 <= 191)%N ->
  (128 <= b3 <= 191)%N ->
  (65536 <= (b0 - 240) * 262144 + (b1 - 128) * 4096 + (b2 - 128) * 64 + (b3 - 128)
     <= 1114111)%N ->
  Js.readCodePoint b0 (Js.pctAll [b1; b2; b3] ++ r)
  = Some (((b0 - 240) * 262144 + (b1 - 128) * 4096 + (b2 - 128) * 64 + (b3 - 128))%N, r).
Proof.
  intros H0 H1 H2 H3 Hr. unfold Js.readCodePoint.
  cbn [Js.pctAll List.map List.concat app Js.pct].
  rewrite !readPct_escape by lia. unfold Js.isCont.
  cbv zeta.
  replace ((194 <=? b0) && (b0 <=? 223))%N with false
    by (symmetry; apply andb_false_iff; right; apply N.leb_gt; lia).
  replace ((224 <=? b0) && (b0 <=? 239))%N with false
    by (symmetry; apply andb_false_iff; right; apply N.leb_gt; lia).
  replace ((240 <=? b0) && (b0 <=? 244))%N with true
    by (symmetry; apply andb_true_iff; split; apply N.leb_le; lia).
  replace ((128 <=? b1) && (b1 <=? 191))%N with true
    by (symmetry; apply andb_true_iff; split; apply N.leb_le; lia).
  replace ((128 <=? b2) && (b2 <=? 191))%N with true
    by (symmetry; apply andb_true_iff; split; apply N.leb_le; lia).
  replace ((128 <=? b3) && (b3 <=? 191))%N with true
    by (symmetry; apply andb_true_iff; split; apply N.leb_le; lia).
  replace (65536 <=? _)%N with true by (symmetry; apply N.leb_le; lia).
  replace (_ <=? 1114111)%N with true by (symmetry; apply N.leb_le; lia).
  reflexivity.
Qed.
Lemma pctAll_cons (b : N) (bs : list N) (r : Js.str) :
  Js.pctAll (b :: bs) ++ r
  = 37%N :: Js.hexDigit (b / 16) :: Js.hexDigit (b mod 16) :: (Js.pctAll bs ++ r).
Proof. reflexivity. Qed.

Lemma decodeFuel_escape (n : nat) (b : N) (s0 : Js.str) :
  (b < 256)%N ->
  Js.decodeFuel (S n) (37%N :: Js.hexDigit (b / 16) :: Js.hexDigit (b mod 16) :: s0)
  = if (b <? 128)%N then
      match Js.decodeFuel n s0 with Some r => Some (b :: r) | None => None end
    else
      match Js.readCodePoint b s0 with
      | Some (cp, s1) =>
          match Js.decodeFuel n s1 with
          | Some r => Some (Js.utf16 cp ++ r)
          | None => None
          end
      | None => None
      end.
Proof.
  intros H. cbn [Js.decodeFuel]. rewrite N.eqb_refl.
  rewrite readPct_escape by lia. reflexivity.
Qed.

Lemma decodeFuel_utf8 (cp : N) (r : Js.str) (n : nat) :
  (cp < 1114112)%N -> ~ (55296 <= cp <= 57343)%N ->
  Js.decodeFuel (S n) (Js.pctAll (Js.utf8 cp) ++ r)
  = match Js.decodeFuel n r with
    | Some t => Some (Js.utf16 cp ++ t)
    | None => None
    end.
Proof.
  intros Hmax Hs. unfold Js.utf8.
  destruct (cp <? 128)%N eqn:E1; [apply N.ltb_lt in E1|apply N.ltb_ge in E1].
  { rewrite pctAll_cons, decodeFuel_escape by lia.
    unfold Js.utf16. settle_comparisons. reflexivity. }
  destruct (cp <? 2048)%N eqn:E2; [apply N.ltb_lt in E2|apply N.ltb_ge in E2].
  { rewrite pctAll_cons, decodeFuel_escape by lia.
    replace (192 + cp / 64 <? 128)%N with false by (symmetry; apply N.ltb_ge; lia).
    rewrite readCodePoint_two by lia. simpl app.
    replace ((192 + cp / 64 - 192) * 64 + (128 + cp mod 64 - 128))%N with cp by lia.
    reflexivity. }
  destruct (cp <? 65536)%N eqn:E3; [apply N.ltb_lt in E3|apply N.ltb_ge in E3].
  { rewrite pctAll_cons, decodeFuel_escape by lia.
    replace (224 + cp / 4096 <? 128)%N with false by (symmetry; apply N.ltb_ge; lia).
    assert (Hcp : ((224 + cp / 4096 - 224) * 4096 + (128 + (cp / 64) mod 64 - 128) * 64
                   + (128 + cp mod 64 - 128) = cp)%N) by lia.
    rewrite readCodePoint_three by (rewrite ?Hcp; lia).
    rewrite Hcp. reflexivity. }
  rewrite pctAll_cons, decodeFuel_escape by lia.
  replace (240 + cp / 262144 <? 128)%N with false by (symmetry; apply N.ltb_ge; lia).
  assert (Hcp : ((240 + cp / 262144 - 240) * 262144 + (128 + (cp / 4096) mod 64 - 128) * 4096
                 + (128 + (cp / 64) mod 64 - 128) * 64
                 + (128 + cp mod 64 - 128) = cp)%N) by lia.
  rewrite readCodePoint_four by (rewrite ?Hcp; lia).
  rewrite Hcp. reflexivity.
Qed.

Lemma unreserved_not_percent (c : N) : Js.isUnreserved c = true -> (c =? 37)%N = false.
Proof.
  intros H. destruct (c =? 37)%N eqn:E; [|reflexivity].
  apply N.eqb_eq in E. subst. discriminate.
Qed.

Lemma length_pctAll (bs : list N) : length (Js.pctAll bs) = (3 * length bs)%nat.
Proof.
  induction bs as [|b bs IH]; simpl; [reflexivity|].
  unfold Js.pctAll in IH. rewrite IH. lia.
Qed.

Lemma length_utf8_pos (cp : N) : (1 <= length (Js.utf8 cp))%nat.
Proof.
  unfold Js.utf8.
  repeat match goal with |- context [if ?b then _ else _] => destruct b end;
    simpl; lia.
Qed.

Lemma decodeFuel_encode (k : nat) :
  forall (s e : Js.str),
    (length s <= k)%nat -> Js.wf s -> Js.encodeURIComponent s = Some e ->
    forall n, (length e <= n)%nat -> Js.decodeFuel n e = Some s.
Proof.
  induction k as [|k IH]; intros s e Hk Hwf Henc n Hn.
  - destruct s; [|simpl in Hk; lia]. injection Henc as <-. destruct n; reflexivity.
  - destruct s as [|c rest].
    { injection Henc as <-. destruct n; reflexivity. }
    apply Forall_cons in Hwf as [Hc Hrest].
    simpl in Hk. cbn [Js.encodeURIComponent] in Henc.
    destruct (Js.isUnreserved c) eqn:U.
    + destruct (Js.encodeURIComponent rest) as [r|] eqn:Er; [|discriminate].
      injection Henc as <-. simpl in Hn.
      destruct n as [|n]; [lia|].
      cbn [Js.decodeFuel]. rewrite (unreserved_not_percent c U).
      rewrite (IH rest r) by (auto; lia). reflexivity.
    + destruct (Js.isTrail c) eqn:Tr; [discriminate|].
      destruct (Js.isLead c) eqn:Ld.
      * destruct rest as [|d rest']; [discriminate|].
        destruct (Js.isTrail d) eqn:Td; [|discriminate].
        destruct (Js.encodeURIComponent rest') as [r|] eqn:Er; [|discriminate].
        injection Henc as <-.
        apply Forall_cons in Hrest as [Hd Hrest'].
        unfold Js.isLead in Ld. unfold Js.isTrail in Td.
        apply andb_prop in Ld as [L1 L2]. apply andb_prop in Td as [T1 T2].
        apply N.leb_le in L1, L2, T1, T2.
        rewrite length_app, length_pctAll in Hn.
        pose proof (length_utf8_pos (65536 + (c - 55296) * 1024 + (d - 56320))).
        destruct n as [|n]; [lia|].
        rewrite decodeFuel_utf8 by lia.
        rewrite (IH rest' r) by (auto; simpl in Hk; lia).
        unfold Js.utf16. settle_comparisons. simpl. do 3 f_equal; lia.
      * destruct (Js.encodeURIComponent rest) as [r|] eqn:Er; [|discriminate].
        injection Henc as <-.
        rewrite length_app, length_pctAll in Hn.
        pose proof (length_utf8_pos c).
        destruct n as [|n]; [lia|].
        assert (Hns : ~ (55296 <= c <= 57343)%N).
        { unfold Js.isLead in Ld. unfold Js.isTrail in Tr.
          apply andb_false_iff in Ld, Tr. rewrite !N.leb_gt in Ld, Tr. lia. }
        rewrite decodeFuel_utf8 by lia.
        rewrite (IH rest r) by (auto; lia).
        unfold Js.utf16. settle_comparisons. reflexivity.
Qed.

(** Decoding undoes encoding. *)
Lemma decode_encode (s e : Js.str) :
  Js.wf s -> Js.encodeURIComponent s = Some e -> Js.decodeURIComponent e = Some s.
Proof.
  intros Hwf Henc. unfold Js.decodeURIComponent.
  exact (decodeFuel_encode (length s) s e (le_n _) Hwf Henc (length e) (le_n _)).
Qed.

Lemma pctAll_no_equals_sign (bs : list N) : ~ In 61%N (Js.pctAll bs).
Proof.
  induction bs as [|b bs IH]; [intros []|].
  change (Js.pctAll (b :: bs))
    with (37%N :: Js.hexDigit (b / 16) :: Js.hexDigit (b mod 16) :: Js.pctAll bs).
  intros [H|[H|[H|H]]]; try discriminate.
  - exact (hexDigit_not_equals_sign _ H).
  - exact (hexDigit_not_equals_sign _ H).
  - exact (IH H).
Qed.

(** An encoded component holds no [=]. *)
Lemma encode_no_equals_sign (k : nat) :
  forall s e, (length s <= k)%nat ->
    Js.encodeURIComponent s = Some e -> ~ In 61%N e.
Proof.
  induction k as [|k IH]; intros s e Hk Henc.
  - destruct s; [|simpl in Hk; lia]. injection Henc as <-. intros [].
  - destruct s as [|c rest]; [injection Henc as <-; intros []|].
    simpl in Hk. cbn [Js.encodeURIComponent] in Henc.
    destruct (Js.isUnreserved c) eqn:U.
    + destruct (Js.encodeURIComponent rest) as [r|] eqn:Er; [|discriminate].
      injection Henc as <-. intros [H|H].
      * subst. discriminate.
      * exact (IH rest r ltac:(lia) Er H).
    + destruct (Js.isTrail c); [discriminate|].
      destruct (Js.isLead c).
      * destruct rest as [|d rest']; [discriminate|].
        destruct (Js.isTrail d); [|discriminate].
        destruct (Js.encodeURIComponent rest') as [r|] eqn:Er; [|discriminate].
        injection Henc as <-. intros H. apply in_app_or in H as [H|H].
        -- exact (pctAll_no_equals_sign _ H).
        -- simpl in Hk. exact (IH rest' r ltac:(lia) Er H).
      * destruct (Js.encodeURIComponent rest) as [r|] eqn:Er; [|discriminate].
        injection Henc as <-. intros H. apply in_app_or in H as [H|H].
        -- exact (pctAll_no_equals_sign _ H).
        -- exact (IH rest r ltac:(lia) Er H).
Qed.

Lemma breakOn_q_equals_none (e : Js.str) :
  ~ In 61%N e -> Js.breakOn [113%N; 61%N] e = None.
Proof.
  induction e as [|c e IH]; intros H; [reflexivity|].
  assert (He : ~ In 61%N e) by (intros X; apply H; now right).
  specialize (IH He).
  cbn [Js.breakOn Js.startsWith].
  rewrite IH.
  destruct (113 =? c)%N; [|reflexivity].
  destruct e as [|d e']; [reflexivity|].
  destruct (61 =? d)%N eqn:E; [|reflexivity].
  apply N.eqb_eq in E. subst d. exfalso. apply H. right. now left.
Qed.

(** The query part that the URL effect cuts out of a search URL made by
    [navigate]. *)
Lemma splitSecond_searchUrl (e : Js.str) :
  ~ In 61%N e ->
  Js.orEmpty (Js.splitSecond (Js.lit "q=") (Js.lit "chimera://search?q=" ++ e)) = e.
Proof.
  intros H. unfold Js.splitSecond.
  change (Js.breakOn (Js.lit "q=") (Js.lit "chimera://search?q=" ++ e))
    with (Some (Js.lit "chimera://search?", e)).
  cbv beta iota. change (Js.lit "q=") with [113%N; 61%N].
  rewrite (breakOn_q_equals_none e H). reflexivity.
Qed.

(** ** Input classification *)






(** The state [navigate] leaves when it takes an input for an address. *)
Lemma navigate_external (amb : Ambient) (input address : Js.str) (s : State) :
  Js.eqb (Js.trim input) newtabUrl || Js.eqb (Js.trim input) [] = false ->
  classify (Js.trim input) = (address, false) ->
  url (navigate amb input s) = address
  /\ internalPage (navigate amb input s) = external
  /\ searchResults (navigate amb input s) = searchResults s
  /\ isLoading (navigate amb input s) = true
  /\ sessionBlocked (adBlockStats (navigate amb input s)) = 0%Z.
Proof.
  intros B C. unfold navigate. rewrite B, C. repeat split.
Qed.


(** The URL effect on a state that [navigate] left on an [https://] URL. *)
Lemma afterRender_https (s0 s1 : State) (host : Js.str) :
  url s1 = Js.lit "https://" ++ host ->
  internalPage s1 = external ->
  exists s', afterRender s0 s1 = Some s'
    /\ internalPage s' = external /\ url s' = url s1
    /\ searchResults s' = searchResults s1.
Proof.
  intros U P. unfold afterRender.
  destruct (Js.eqb (url s1) (url s0)); [exists s1; auto|].
  unfold syncUrl. rewrite U.
  change (Js.eqb (Js.lit "https://" ++ host) newtabUrl) with false.
  change (Js.startsWith (Js.lit "chimera://search") (Js.lit "https://" ++ host))
    with false.
  cbv iota. eexists. split; [reflexivity|]. simpl. auto.
Qed.

Lemma wf_best_coffee_shop : Js.wf (Js.lit "best coffee shop").
Proof. unfold Js.wf. repeat (constructor; [reflexivity|]). constructor. Qed.




(** A dotted input that begins with [http] is kept as it is, without a
    scheme. *)
Lemma dotted_input_beginning_with_http :
  exists s',
    dispatch sampleAmbient (Navigate (Js.lit "httpbin.org")) (initialState 0) = Some s'
    /\ internalPage s' = external
    /\ url s' = Js.lit "httpbin.org".
Proof.
  eexists. split; [vm_compute; reflexivity|]. split; reflexivity.
Qed.

(** A query with an unpaired surrogate: [encodeURIComponent] throws, no URL
    is committed and the stack is as before. *)
Lemma unpaired_surrogate_not_committed (amb : Ambient) (s : State) :
  committedUrl [55357%N] = None
  /\ url (navigate amb [55357%N] s) = url s
  /\ history (navigate amb [55357%N] s) = history s
  /\ internalPage (navigate amb [55357%N] s) = search.
Proof. repeat split. Qed.

(** A search URL typed with a malformed escape takes the component down
    when the URL effect decodes it. *)
Lemma malformed_escape_unmounts :
  dispatch sampleAmbient (Navigate (Js.lit "chimera://search?q=%")) (initialState 0)
  = None.
Proof. vm_compute. reflexivity. Qed.

(** ** Back onto a search *)

(** The URL effect on a search URL made by [navigate]: the query is the one
    that was encoded, and results already on display stay. *)
Lemma syncUrl_search (s : State) (q e : Js.str) :
  Js.wf q -> Js.encodeURIComponent q = Some e ->
  url s = Js.lit "chimera://search?q=" ++ e ->
  exists s', syncUrl s = Some s'
    /\ url s' = url s /\ internalPage s' = search /\ searchQuery s' = q
    /\ searchResults s'
       = match searchResults s with [] => mockResults q | _ => searchResults s end.
Proof.
  intros W E U. unfold syncUrl. rewrite U.
  change (Js.eqb (Js.lit "chimera://search?q=" ++ e) newtabUrl) with false.
  change (Js.startsWith (Js.lit "chimera://search") (Js.lit "chimera://search?q=" ++ e))
    with true.
  cbv iota.
  rewrite (splitSecond_searchUrl e (encode_no_equals_sign _ q e (le_n _) E)).
  rewrite (decode_encode q e W E).
  eexists. split; [reflexivity|].
  destruct (searchResults s) eqn:R; simpl; rewrite ?R, ?U; auto.
Qed.

(** Back onto the URL of an earlier search: the query is restored, the
    results on display are not replaced. *)
Lemma back_to_search_keeps_results (amb : Ambient) (s : State) (q e : Js.str) :
  (0 < historyIndex s)%Z ->
  index (history s) (historyIndex s - 1) = Some (Js.lit "chimera://search?q=" ++ e) ->
  Js.wf q -> Js.encodeURIComponent q = Some e ->
  url s <> Js.lit "chimera://search?q=" ++ e ->
  searchResults s <> [] ->
  exists s', dispatch amb Back s = Some s'
    /\ historyIndex s' = (historyIndex s - 1)%Z
    /\ url s' = Js.lit "chimera://search?q=" ++ e
    /\ internalPage s' = search /\ searchQuery s' = q
    /\ searchResults s' = searchResults s.
Proof.
  intros P I W E NU NR. unfold dispatch, handle, handleBack.
  destruct (0 <? historyIndex s)%Z eqn:C; [|lia]. rewrite I.
  unfold afterRender.
  set (s1 := setUrl _ _).
  assert (U1 : url s1 = Js.lit "chimera://search?q=" ++ e) by reflexivity.
  replace (Js.eqb (url s1) (url s)) with false
    by (symmetry; apply eqb_neq; rewrite U1; congruence).
  destruct (syncUrl_search s1 q e W E U1) as (s' & S & U' & P' & Q' & R').
  exists s'. split; [exact S|].
  apply syncUrl_stack in S as (_ & HI & _).
  rewrite HI, U', P', Q', R'. repeat split; try reflexivity.
  change (searchResults s1) with (searchResults s).
  destruct (searchResults s); [contradiction|reflexivity].
Qed.

(** ** JSON text of the ad-block cell *)

Lemma digitsValue_snoc (ds : list N) (d : N) :
  Json.digitsValue (ds ++ [d]) = (10 * Json.digitsValue ds + (Z.of_N d - 48))%Z.
Proof. unfold Json.digitsValue. rewrite fold_left_app. reflexivity. Qed.

Lemma isDigit_digit (n : N) : Json.isDigit (48 + n mod 10) = true.
Proof.
  unfold Json.isDigit. apply andb_true_iff. split; apply N.leb_le; lia.
Qed.

(** The digits that [digitsAcc] puts in front of the accumulator. *)
Lemma digitsAcc_spec (fuel : nat) :
  forall (n : N) (acc : Js.str),
    (n < 2 ^ N.of_nat fuel)%N -> (1 <= fuel)%nat ->
    exists ds,
      Js.digitsAcc fuel n acc = ds ++ acc
      /\ Forall (fun c => Json.isDigit c = true) ds
      /\ Json.digitsValue ds = Z.of_N n
      /\ ds <> []
      /\ (n <> 0%N -> forall d ds', ds = d :: ds' -> d <> 48%N).
Proof.
  induction fuel as [|fuel IH]; intros n acc Hn Hf; [lia|].
  cbn [Js.digitsAcc]. cbv zeta.
  destruct (n / 10 =? 0)%N eqn:E; [apply N.eqb_eq in E|apply N.eqb_neq in E].
  - exists [(48 + n mod 10)%N]. split; [reflexivity|].
    split; [constructor; [apply isDigit_digit|constructor]|].
    split; [unfold Json.digitsValue; simpl; lia|].
    split; [discriminate|].
    intros Hn0 d ds' [= <- <-]. lia.
  - assert (P2 : (2 ^ N.of_nat (S fuel) = 2 * 2 ^ N.of_nat fuel)%N).
    { rewrite Nat2N.inj_succ, N.pow_succ_r'. reflexivity. }
    assert (Hf' : (1 <= fuel)%nat).
    { destruct fuel; [|lia]. simpl in Hn. lia. }
    destruct (IH (n / 10)%N ((48 + n mod 10)%N :: acc)) as (ds & Hd & Hall & Hval & Hne & Hhd).
    { rewrite P2 in Hn. set (P := (2 ^ N.of_nat fuel)%N) in *. clearbody P. lia. }
    { exact Hf'. }
    exists (ds ++ [(48 + n mod 10)%N]).
    split; [rewrite Hd, <- app_assoc; reflexivity|].
    split; [apply Forall_app; split; [exact Hall|constructor; [apply isDigit_digit|constructor]]|].
    split; [rewrite digitsValue_snoc, Hval; lia|].
    split; [destruct ds; discriminate|].
    intros _ d ds' Heq. destruct ds as [|d0 ds0]; [contradiction|].
    injection Heq as <- _. exact (Hhd E d0 ds0 eq_refl).
Qed.

Lemma N_toString_spec (n : N) :
  exists d ds,
    Js.N_toString n = d :: ds
    /\ Forall (fun c => Json.isDigit c = true) (d :: ds)
    /\ Json.digitsValue (d :: ds) = Z.of_N n
    /\ ((d =? 48)%N && negb (length ds =? 0)%nat = false).
Proof.
  destruct (N.eq_dec n 0%N) as [->|Hn].
  - exists 48%N, []. repeat split; try reflexivity. repeat constructor.
  - unfold Js.N_toString.
    destruct (digitsAcc_spec (S (N.to_nat (N.log2 n))) n []) as (ds & Hd & Hall & Hval & Hne & Hhd).
    { rewrite Nat2N.inj_succ, N2Nat.id. apply N.log2_spec. lia. }
    { lia. }
    rewrite app_nil_r in Hd. destruct ds as [|d ds]; [contradiction|].
    exists d, ds. repeat split; auto.
    pose proof (Hhd Hn d ds eq_refl) as H48. apply N.eqb_neq in H48. now rewrite H48.
Qed.

Lemma spanDigits_app (ds : list N) (c : N) (rest : Js.str) :
  Forall (fun c => Json.isDigit c = true) ds -> Json.isDigit c = false ->
  Json.spanDigits (ds ++ c :: rest) = (ds, c :: rest).
Proof.
  intros Hall Hc. induction Hall as [|d ds Hd _ IH]; simpl.
  - now rewrite Hc.
  - now rewrite Hd, IH.
Qed.

Lemma parseUnsigned_toString (neg : bool) (n : N) (c : N) (rest : Js.str) :
  isDelimiter c ->
  Json.parseUnsigned neg (Js.N_toString n ++ c :: rest)
  = Some (Json.decimal (if neg then - Z.of_N n else Z.of_N n)%Z 0, c :: rest).
Proof.
  intros Hc.
  assert (Hnd : Json.isDigit c = false) by (destruct Hc as [-> | ->]; reflexivity).
  assert (HF : Json.parseFraction (c :: rest) = Some ([], c :: rest))
    by (destruct Hc as [-> | ->]; reflexivity).
  assert (HE : Json.parseExponent (c :: rest) = Some (0%Z, c :: rest))
    by (destruct Hc as [-> | ->]; reflexivity).
  destruct (N_toString_spec n) as (d & ds & -> & Hall & Hval & Hlz).
  unfold Json.parseUnsigned.
  rewrite (spanDigits_app (d :: ds) c rest Hall Hnd), Hlz, HF, HE.
  cbv zeta. rewrite app_nil_r, Hval. reflexivity.
Qed.

Lemma parseNumber_toString (z : Z) (c : N) (rest : Js.str) :
  isDelimiter c ->
  Json.parseNumber (Js.toString z ++ c :: rest)
  = Some (Json.decimal z 0, c :: rest).
Proof.
  intros Hc. unfold Js.toString, Json.parseNumber.
  destruct (z <? 0)%Z eqn:E; [apply Z.ltb_lt in E|apply Z.ltb_ge in E].
  - cbn [app Json.parseSign]. rewrite N.eqb_refl.
    rewrite (parseUnsigned_toString true _ c rest Hc). do 3 f_equal. lia.
  - destruct (N_toString_spec (Z.to_N z)) as (d & ds & Hs & Hall & _).
    assert (Hsign : Json.parseSign (Js.N_toString (Z.to_N z) ++ c :: rest)
                    = (false, Js.N_toString (Z.to_N z) ++ c :: rest)).
    { rewrite Hs. cbn [app Json.parseSign].
      apply Forall_cons in Hall as [X _].
      destruct (d =? 45)%N eqn:E45; [|reflexivity].
      apply N.eqb_eq in E45. subst d. discriminate. }
    rewrite Hsign, (parseUnsigned_toString false _ c rest Hc). do 3 f_equal. lia.
Qed.


Lemma toString_head (z : Z) :
  exists d ds, Js.toString z = d :: ds /\ ((d =? 45)%N || Json.isDigit d = true).
Proof.
  unfold Js.toString. destruct (z <? 0)%Z.
  - eexists _, _. split; reflexivity.
  - destruct (N_toString_spec (Z.to_N z)) as (d & ds & -> & Hall & _).
    exists d, ds. split; [reflexivity|].
    apply Forall_cons in Hall as [-> _]. apply orb_true_r.
Qed.

Lemma toString_value (z : Z) : isValueText (Js.toString z) (Json.JNumber (Json.decimal z 0)).
Proof.
  intros fuel c rest Hc.
  pose proof (parseNumber_toString z c rest Hc) as PN.
  destruct (toString_head z) as (d & ds & Hs & Hd).
  rewrite Hs in *. cbn [app] in *.
  assert (R : (d = 45 \/ 48 <= d <= 57)%N).
  { apply orb_prop in Hd as [Hd|Hd]; [left; now apply N.eqb_eq|right].
    unfold Json.isDigit in Hd. apply andb_prop in Hd as [H1 H2].
    apply N.leb_le in H1, H2. lia. }
  cbn [Json.parseValue].
  assert (Hws : Json.skipWs (d :: ds ++ c :: rest) = d :: ds ++ c :: rest).
  { unfold Json.skipWs. cbn [Js.dropWhile].
    replace (Json.isWs d) with false; [reflexivity|].
    unfold Json.isWs. settle_comparisons. reflexivity. }
  rewrite Hws.
  replace (d =? 34)%N with false by (symmetry; apply N.eqb_neq; lia).
  replace (d =? 91)%N with false by (symmetry; apply N.eqb_neq; lia).
  replace (d =? 123)%N with false by (symmetry; apply N.eqb_neq; lia).
  replace (Js.startsWith (Js.lit "null") (d :: ds ++ c :: rest)) with false.
  2:{ change (Js.lit "null") with [110%N; 117%N; 108%N; 108%N]. cbn [Js.startsWith].
      replace (110 =? d)%N with false; [reflexivity|].
      symmetry. apply N.eqb_neq. lia. }
  replace (Js.startsWith (Js.lit "true") (d :: ds ++ c :: rest)) with false.
  2:{ change (Js.lit "true") with [116%N; 114%N; 117%N; 101%N]. cbn [Js.startsWith].
      replace (116 =? d)%N with false; [reflexivity|].
      symmetry. apply N.eqb_neq. lia. }
  replace (Js.startsWith (Js.lit "false") (d :: ds ++ c :: rest)) with false.
  2:{ change (Js.lit "false") with [102%N; 97%N; 108%N; 115%N; 101%N]. cbn [Js.startsWith].
      replace (102 =? d)%N with false; [reflexivity|].
      symmetry. apply N.eqb_neq. lia. }
  rewrite Hd, PN. reflexivity.
Qed.

Lemma skipWs_cons (c : N) (s : Js.str) :
  Json.isWs c = false -> Json.skipWs (c :: s) = c :: s.
Proof. intros H. unfold Json.skipWs. cbn [Js.dropWhile]. now rewrite H. Qed.

Lemma parseMembers_more (fuel : nat) (key text : Js.str) (v : Json.value) (rest : Js.str) :
  isPlainKey key -> isValueText text v ->
  Json.parseMembers (S (S fuel)) (member key text 44 rest)
  = match Json.parseMembers (S fuel) rest with
    | Some (ms, r) => Some ((key, v) :: ms, r)
    | None => None
    end.
Proof.
  intros Hk Hv. unfold member.
  cbn [Json.parseMembers]. rewrite skipWs_cons by reflexivity.
  rewrite N.eqb_refl, Hk, skipWs_cons by reflexivity.
  rewrite N.eqb_refl, (Hv fuel 44%N rest) by (now left).
  rewrite skipWs_cons by reflexivity. rewrite N.eqb_refl. reflexivity.
Qed.

Lemma parseMembers_last (fuel : nat) (key text : Js.str) (v : Json.value) (rest : Js.str) :
  isPlainKey key -> isValueText text v ->
  Json.parseMembers (S (S fuel)) (member key text 125 rest) = Some ([(key, v)], rest).
Proof.
  intros Hk Hv. unfold member.
  cbn [Json.parseMembers]. rewrite skipWs_cons by reflexivity.
  rewrite N.eqb_refl, Hk, skipWs_cons by reflexivity.
  rewrite N.eqb_refl, (Hv fuel 125%N rest) by (now right).
  rewrite skipWs_cons by reflexivity.
  change (125 =? 44)%N with false. rewrite N.eqb_refl. reflexivity.
Qed.




Lemma decimal_integer (z : Z) :
  Json.asInteger (Some (Json.JNumber (Json.decimal z 0))) = Some z.
Proof.
  unfold Json.decimal, Json.asInteger.
  cbn [Z.leb Z.compare Qden Qnum Pos.eqb].
  change (10 ^ 0)%Z with 1%Z. now rewrite Z.mul_1_r.
Qed.


(** ** The persistent store *)



(** * Further properties *)

(** Comparisons settled in hypotheses, as facts for [lia]. *)
Ltac comparisons_to_facts :=
  repeat match goal with
  | H : (_ <? _)%Z = true |- _ => apply Z.ltb_lt in H
  | H : (_ <? _)%Z = false |- _ => apply Z.ltb_ge in H
  | H : (_ <=? _)%Z = true |- _ => apply Z.leb_le in H
  | H : (_ <=? _)%Z = false |- _ => apply Z.leb_gt in H
  | H : (_ =? _)%Z = true |- _ => apply Z.eqb_eq in H
  | H : (_ =? _)%Z = false |- _ => apply Z.eqb_neq in H
  end.

Ltac blia := comparisons_to_facts; lia.

(** ** The current URL and the stack *)

Lemma index_last {A} (l : list A) (x : A) :
  index (l ++ [x]) (Z.of_nat (length (l ++ [x])) - 1) = Some x.
Proof.
  unfold index.
  assert (L : length (l ++ [x]) = S (length l)) by (rewrite length_app; simpl; lia).
  rewrite L.
  destruct (Z.of_nat (S (length l)) - 1 <? 0)%Z eqn:E; [blia|].
  replace (Z.to_nat (Z.of_nat (S (length l)) - 1)) with (length l) by lia.
  apply list_lookup_middle. reflexivity.
Qed.

Lemma handle_session_untouched (amb : Ambient) (ev : Event) (s s' : State) :
  match ev with
  | LoadingDone | DownloadTick | ToggleBookmark | ImportBookmarks _
  | StartDownload _ _ => True
  | _ => False
  end ->
  handle amb ev s = Some s' ->
  url s' = url s /\ history s' = history s /\ historyIndex s' = historyIndex s.
Proof.
  destruct ev; try contradiction; intros _; simpl.
  - intros [= <-]. auto.
  - intros [= <-]. auto.
  - intros [= <-]. unfold toggleBookmark. destruct (List.find _ _); auto.
  - unfold importBookmarks.
    destruct (Json.parse text) as [[]|]; try (intros [= <-]; auto).
    destruct (asBookmarks items); [|discriminate]. intros [= <-]. auto.
  - intros [= <-]. auto.
Qed.

Lemma dispatch_url_is_stack_entry (amb : Ambient) (ev : Event) (s s' : State) :
  index (history s) (historyIndex s) = Some (url s) ->
  dispatch amb ev s = Some s' ->
  index (history s') (historyIndex s') = Some (url s').
Proof.
  intros IH D. unfold dispatch in D.
  destruct (handle amb ev s) as [s1|] eqn:H; [|discriminate].
  apply afterRender_stack in D as (-> & -> & ->).
  destruct ev;
    try (apply handle_session_untouched in H as (E1 & E2 & E3); [|exact I];
         rewrite E1, E2, E3; exact IH);
    simpl in H.
  - injection H as <-.
    pose proof (navigate_stack amb input s) as N.
    destruct (committedUrl input) as [u|].
    + destruct N as (Hh & Hi & ->). rewrite Hi, Hh. apply index_last.
    + destruct N as (-> & -> & ->). exact IH.
  - unfold handleBack in H. destruct (0 <? historyIndex s)%Z.
    + destruct (index (history s) (historyIndex s - 1)) eqn:E; [|discriminate].
      injection H as <-. exact E.
    + injection H as <-. exact IH.
  - unfold handleForward in H. destruct (historyIndex s <? _)%Z.
    + destruct (index (history s) (historyIndex s + 1)) eqn:E; [|discriminate].
      injection H as <-. exact E.
    + injection H as <-. exact IH.
  - injection H as <-. reflexivity.
Qed.

(** What the handlers written inline leave alone, and what they do to the
    visited log and to the downloads. *)
Lemma perform_inline (amb : Ambient) (a : Action) (s s' : State) :
  (forall ev, a <> OfEvent ev) ->
  perform amb a s = Some s' ->
  url s' = url s /\ history s' = history s /\ historyIndex s' = historyIndex s
  /\ (visitedHistory s' = visitedHistory s \/ visitedHistory s' = [])
  /\ (downloads s' = downloads s \/ downloads s' = []
      \/ exists dl, downloads s' = dl :: downloads s
           /\ DownloadItem.progress dl = 0 # 1
           /\ DownloadItem.status dl = downloading).
Proof.
  intros NE. destruct a; simpl; try (intros [= <-]; repeat split; auto; fail).
  - now contradiction (NE ev).
  - intros [= <-]. unfold adBlockTick.
    destruct (enabled (adBlockStats s) && isLoading s); [|repeat split; auto].
    destruct (Qle_bool _ _); repeat split; auto.
  - intros [= <-]. unfold handleMediaGrab. destruct mediaUrl; simpl; repeat split; auto.
    right. right. eexists. repeat split.
Qed.

Lemma reachable_attainable (s : State) : reachable s -> attainable s.
Proof.
  induction 1 as [t | amb ev s s' _ IH D]; [constructor|].
  exact (attainable_step amb (OfEvent ev) s s' IH D).
Qed.

Lemma action_cases (a : Action) :
  (exists ev, a = OfEvent ev) \/ (forall ev, a <> OfEvent ev).
Proof. destruct a; eauto; right; discriminate. Qed.

Lemma attainable_stack_entry (s : State) :
  attainable s -> index (history s) (historyIndex s) = Some (url s).
Proof.
  induction 1 as [t | amb a s s' _ IH P]; [reflexivity|].
  destruct (action_cases a) as [[ev ->]|NE].
  - exact (dispatch_url_is_stack_entry amb ev s s' IH P).
  - destruct (perform_inline amb a s s' NE P) as (-> & -> & -> & _). exact IH.
Qed.

(** X1. In every state the component can attain, the current URL is the
    entry of the back/forward stack at the index; so the index points into
    the stack whatever handler ran. *)
Theorem url_is_stack_entry (s : State) :
  attainable s ->
  index (history s) (historyIndex s) = Some (url s)
  /\ (0 <= historyIndex s < Z.of_nat (length (history s)))%Z.
Proof.
  intros A. pose proof (attainable_stack_entry s A) as U.
  split; [exact U|].
  unfold index in U. destruct (historyIndex s <? 0)%Z eqn:E; [discriminate|].
  apply lookup_lt_Some in U. blia.
Qed.

Lemma url_is_stack_entry_witness :
  index (history sessionABack) (historyIndex sessionABack) = Some (url sessionABack)
  /\ (0 <= historyIndex sessionABack < Z.of_nat (length (history sessionABack)))%Z.
Proof.
  apply url_is_stack_entry. apply reachable_attainable.
  apply (run_reachable sampleAmbient [Navigate urlA; Navigate urlB; Back] (initialState 0));
    [apply reachable_init | vm_compute; reflexivity].
Defined.





(** ** The visited log *)

Lemma noRepeat_take (n : nat) (l : list HistoryItem.t) :
  noRepeat l -> noRepeat (take n l).
Proof.
  revert n. induction l as [|a l IH]; intros n H; [now destruct n|].
  destruct n as [|n]; [exact I|].
  destruct l as [|b l]; [now destruct n|].
  destruct H as [Hab Hr]. destruct n as [|n]; [exact I|].
  split; [exact Hab|]. exact (IH (S n) Hr).
Qed.

Lemma addToHistory_visitedOk
    (amb : Ambient) (targetUrl title : Js.str) (prev : list HistoryItem.t) :
  title <> [] \/ targetUrl <> [] ->
  visitedOk prev -> visitedOk (addToHistory amb targetUrl title prev).
Proof.
  intros Hne (Hlen & Hrep & Htit). unfold addToHistory.
  set (fresh := HistoryItem.mk _ _ _ _).
  assert (Hfresh : HistoryItem.title fresh <> []).
  { unfold fresh. simpl. destruct title; [|discriminate].
    destruct Hne as [H|H]; [contradiction|exact H]. }
  assert (Ok : forall l, noRepeat (fresh :: l) -> Forall (fun h => HistoryItem.title h <> []) l ->
                 visitedOk (take 1000 (fresh :: l))).
  { intros l R T. split; [rewrite length_take; lia|].
    split; [now apply noRepeat_take|].
    apply Forall_take. now constructor. }
  destruct prev as [|h prev].
  - apply Ok; [exact I|constructor].
  - destruct (Js.eqb (HistoryItem.url h) targetUrl) eqn:E.
    + repeat split; assumption.
    + apply Ok; [|exact Htit]. split; [|exact Hrep].
      apply eqb_neq in E. simpl. congruence.
Qed.

Lemma classify_nonempty (target address : Js.str) (isSearch : bool) :
  target <> [] -> classify target = (address, isSearch) -> address <> [].
Proof.
  intros H. unfold classify.
  repeat match goal with |- context [if ?b then _ else _] => destruct b end;
    intros [= <- _]; try exact H; discriminate.
Qed.

(** What [navigate] does to the visited log: nothing, or one
    [addToHistory] with a title or a URL that is not empty. *)
Lemma navigate_visited (amb : Ambient) (input : Js.str) (s : State) :
  visitedHistory (navigate amb input s) = visitedHistory s
  \/ exists u t, (t <> [] \/ u <> [])
       /\ visitedHistory (navigate amb input s)
          = addToHistory amb u t (visitedHistory s).
Proof.
  unfold navigate.
  destruct (Js.eqb (Js.trim input) newtabUrl || Js.eqb (Js.trim input) []) eqn:B.
  - right. exists newtabUrl, (Js.lit "New Tab"). split; [left; discriminate|reflexivity].
  - apply orb_false_elim in B as [_ B]. apply eqb_neq in B.
    destruct (classify (Js.trim input)) as [target [|]] eqn:C.
    + destruct (Js.encodeURIComponent target); [|left; reflexivity].
      right. eexists _, _. split; [|reflexivity]. left. discriminate.
    + right. eexists _, _. split; [|reflexivity]. right.
      exact (classify_nonempty _ _ _ B C).
Qed.

Lemma afterRender_visited (s0 s s' : State) :
  afterRender s0 s = Some s' -> visitedHistory s' = visitedHistory s.
Proof.
  unfold afterRender, syncUrl.
  destruct (Js.eqb (url s) (url s0)); [intros [= <-]; reflexivity|].
  destruct (Js.eqb (url s) newtabUrl); [intros [= <-]; reflexivity|].
  destruct (Js.startsWith _ (url s)); [|intros [= <-]; reflexivity].
  destruct (Js.decodeURIComponent _); [|discriminate].
  destruct (length (searchResults s) =? 0)%nat; intros [= <-]; reflexivity.
Qed.

Lemma dispatch_visitedOk (amb : Ambient) (ev : Event) (s s' : State) :
  visitedOk (visitedHistory s) -> dispatch amb ev s = Some s' ->
  visitedOk (visitedHistory s').
Proof.
  intros IH D. unfold dispatch in D.
  destruct (handle amb ev s) as [s1|] eqn:H; [|discriminate].
  rewrite (afterRender_visited s s1 s' D). clear D.
  destruct ev; simpl in H.
  - injection H as <-.
    destruct (navigate_visited amb input s) as [->|(u & t & Hne & ->)];
      [exact IH|now apply addToHistory_visitedOk].
  - unfold handleBack in H. destruct (0 <? historyIndex s)%Z.
    + destruct (index _ _); [|discriminate]. now injection H as <-.
    + now injection H as <-.
  - unfold handleForward in H. destruct (historyIndex s <? _)%Z.
    + destruct (index _ _); [|discriminate]. now injection H as <-.
    + now injection H as <-.
  - injection H as <-. split; [simpl; lia|]. split; [exact I|constructor].
  - now injection H as <-.
  - now injection H as <-.
  - injection H as <-. unfold toggleBookmark. now destruct (List.find _ _).
  - unfold importBookmarks in H.
    destruct (Json.parse text) as [[]|]; try (now injection H as <-).
    destruct (asBookmarks items); [|discriminate]. now injection H as <-.
  - now injection H as <-.
Qed.

(** X3. In every state the component can attain, the visited log holds at
    most 1000 entries, no entry has the URL of its neighbour, and no entry
    has an empty title. *)
Theorem visited_log_kept (s : State) :
  attainable s ->
  (length (visitedHistory s) <= 1000)%nat
  /\ noRepeat (visitedHistory s)
  /\ Forall (fun h => HistoryItem.title h <> []) (visitedHistory s).
Proof.
  change (attainable s -> visitedOk (visitedHistory s)).
  induction 1 as [t | amb a s s' _ IH P].
  - split; [simpl; lia|]. split; [exact I|]. repeat constructor. discriminate.
  - destruct (action_cases a) as [[ev ->]|NE].
    + exact (dispatch_visitedOk amb ev s s' IH P).
    + destruct (perform_inline amb a s s' NE P) as (_ & _ & _ & [->| ->] & _);
        [exact IH|].
      split; [simpl; lia|]. split; [exact I|constructor].
Qed.

Lemma visited_log_kept_witness :
  (length (visitedHistory sessionABack) <= 1000)%nat
  /\ noRepeat (visitedHistory sessionABack)
  /\ Forall (fun h => HistoryItem.title h <> []) (visitedHistory sessionABack).
Proof.
  apply visited_log_kept. apply reachable_attainable.
  apply (run_reachable sampleAmbient [Navigate urlA; Navigate urlB; Back] (initialState 0));
    [apply reachable_init | vm_compute; reflexivity].
Defined.

Lemma addToHistory_head
    (amb : Ambient) (targetUrl title : Js.str) (prev : list HistoryItem.t) :
  exists h rest,
    addToHistory amb targetUrl title prev = h :: rest
    /\ HistoryItem.url h = targetUrl.
Proof.
  unfold addToHistory. destruct prev as [|h prev].
  - eexists _, _. split; reflexivity.
  - destruct (Js.eqb (HistoryItem.url h) targetUrl) eqn:E.
    + apply eqb_eq in E. eauto.
    + eexists _, _. split; reflexivity.
Qed.

(** X4. After a navigation that commits a URL, the most recent entry of the
    visited log is that URL: either a new entry, or the entry already on
    top when it carries the same URL. *)
Theorem committed_url_tops_visited_log
    (amb : Ambient) (input u : Js.str) (s : State) :
  committedUrl input = Some u ->
  exists h rest,
    visitedHistory (navigate amb input s) = h :: rest
    /\ HistoryItem.url h = u
    /\ (h :: rest = visitedHistory s \/ rest = take 999 (visitedHistory s)).
Proof.
  unfold committedUrl, navigate.
  destruct (Js.eqb (Js.trim input) newtabUrl || Js.eqb (Js.trim input) []).
  - intros [= <-]. simpl.
    unfold addToHistory. destruct (visitedHistory s) as [|h prev].
    + eexists _, _. repeat split. now right.
    + destruct (Js.eqb (HistoryItem.url h) newtabUrl) eqn:E.
      * apply eqb_eq in E. eexists _, _. repeat split; [exact E|]. now left.
      * eexists _, _. repeat split. now right.
  - destruct (classify (Js.trim input)) as [target [|]].
    + destruct (Js.encodeURIComponent target) as [e|]; [|discriminate].
      intros [= <-]. simpl.
      unfold addToHistory. destruct (visitedHistory s) as [|h prev].
      * eexists _, _. repeat split. now right.
      * destruct (Js.eqb (HistoryItem.url h) _) eqn:E.
        -- apply eqb_eq in E. eexists _, _. repeat split; [exact E|]. now left.
        -- eexists _, _. repeat split. now right.
    + intros [= <-]. simpl.
      unfold addToHistory. destruct (visitedHistory s) as [|h prev].
      * eexists _, _. repeat split. now right.
      * destruct (Js.eqb (HistoryItem.url h) target) eqn:E.
        -- apply eqb_eq in E. eexists _, _. repeat split; [exact E|]. now left.
        -- eexists _, _. repeat split. now right.
Qed.

Lemma committed_url_tops_visited_log_witness :
  exists h rest,
    visitedHistory (navigate sampleAmbient urlD sessionAB) = h :: rest
    /\ HistoryItem.url h = urlD.
Proof.
  destruct (committed_url_tops_visited_log sampleAmbient urlD urlD sessionAB)
    as (h & rest & E & U & _); [vm_compute; reflexivity|].
  exists h, rest. split; assumption.
Defined.

(** ** More on the synthesizer *)

Ltac settle_remainders :=
  repeat match goal with
  | |- context [(Z.rem ?x 4 =? 0)%Z] =>
      first [ replace (Z.rem x 4 =? 0)%Z with true by (symmetry; apply Z.eqb_eq; lia)
            | replace (Z.rem x 4 =? 0)%Z with false by (symmetry; apply Z.eqb_neq; lia) ]
  end.

(** X5. Every result list carries exactly two advertisements, four slots
    apart. *)
Theorem two_advertisements (q : Js.str) :
  length (List.filter SearchResult.ads (mockResults q)) = 2%nat
  /\ (forall (i : nat) (r r' : SearchResult.t),
        mockResults q !! i = Some r -> mockResults q !! (i + 4)%nat = Some r' ->
        SearchResult.ads r = SearchResult.ads r').
Proof.
  split.
  - unfold mockResults, mockResult, resultSeed.
    set (a := Z.abs (hashOf q)). assert (Ha : (0 <= a)%Z) by (unfold a; lia).
    clearbody a. cbn [seq List.map List.filter SearchResult.ads Z.of_nat Pos.of_succ_nat Pos.succ].
    assert (C : (a mod 4 = 0 \/ a mod 4 = 1 \/ a mod 4 = 2 \/ a mod 4 = 3)%Z) by lia.
    destruct C as [C|[C|[C|C]]]; settle_remainders; reflexivity.
  - intros i r r' H H'.
    apply mockResults_lookup in H as [_ ->]. apply mockResults_lookup in H' as [_ ->].
    unfold mockResult, resultSeed. simpl.
    set (a := Z.abs (hashOf q)). assert (Ha : (0 <= a)%Z) by (unfold a; lia).
    clearbody a.
    destruct (Z.rem (a + Z.of_nat i) 4 =? 0)%Z eqn:E1;
      destruct (Z.rem (a + Z.of_nat (i + 4)) 4 =? 0)%Z eqn:E2; try reflexivity;
      exfalso; blia.
Qed.

Lemma two_advertisements_witness :
  exists r r',
    mockResults (Js.lit "cats") !! 3%nat = Some r
    /\ mockResults (Js.lit "cats") !! 7%nat = Some r'
    /\ SearchResult.ads r = SearchResult.ads r'.
Proof.
  eexists _, _. split; [reflexivity|]. split; [reflexivity|].
  exact (proj2 (two_advertisements (Js.lit "cats")) 3%nat _ _ eq_refl eq_refl).
Defined.

Lemma dropWhile_kept (f : N -> bool) (c : N) (s : Js.str) :
  f c = false -> Js.dropWhile f (c :: s) = c :: s.
Proof. intros H. simpl. now rewrite H. Qed.

(** [trim] leaves a text alone when neither end is white space. *)
Lemma trim_kept (c d : N) (m : Js.str) :
  Js.isWhiteSpace c = false -> Js.isWhiteSpace d = false ->
  Js.trim (c :: m ++ [d]) = c :: m ++ [d].
Proof.
  intros Hc Hd. unfold Js.trim. rewrite (dropWhile_kept _ c _ Hc).
  assert (R : rev (c :: m ++ [d]) = d :: rev m ++ [c]).
  { simpl. now rewrite rev_app_distr. }
  rewrite R, (dropWhile_kept _ d _ Hd). simpl.
  now rewrite rev_app_distr, rev_involutive.
Qed.

Lemma resultUrl_shape (q : Js.str) (i : nat) :
  (i < 8)%nat ->
  exists d,
    Js.isWhiteSpace d = false
    /\ SearchResult.url (mockResult q (Z.of_nat i))
       = 104%N :: (Js.lit "ttps://www.example.com/" ++ Js.replaceWsRuns false q
                     ++ Js.lit "/") ++ [d].
Proof.
  intros Hi. unfold mockResult. cbn [SearchResult.url].
  do 8 (destruct i as [|i]; [eexists; split;
    [|cbn [Z.of_nat Pos.of_succ_nat Pos.succ];
      match goal with |- context [Js.toString ?z] =>
        let v := eval vm_compute in (Js.toString z) in
        change (Js.toString z) with v end;
      change (Js.lit "https://www.example.com/" ++ ?x)
        with (104%N :: Js.lit "ttps://www.example.com/" ++ x);
      f_equal; rewrite <- !app_assoc; reflexivity]; reflexivity|]).
  lia.
Qed.

(** X6. Opening any synthesized result leads to the external page at the
    result's URL, with the URL on top of the back/forward stack. *)
Theorem result_opens_external_page
    (amb : Ambient) (q : Js.str) (i : nat) (r : SearchResult.t) (s : State) :
  mockResults q !! i = Some r ->
  exists s',
    dispatch amb (Navigate (SearchResult.url r)) s = Some s'
    /\ internalPage s' = external
    /\ url s' = SearchResult.url r
    /\ index (history s') (historyIndex s') = Some (SearchResult.url r).
Proof.
  intros H. apply mockResults_lookup in H as [Hi ->].
  destruct (resultUrl_shape q i Hi) as (d & Hd & U).
  set (target := SearchResult.url (mockResult q (Z.of_nat i))) in *.
  assert (T : Js.trim target = target).
  { rewrite U. now apply trim_kept. }
  assert (Hs : target = Js.lit "https://"
                 ++ (Js.lit "www.example.com/" ++ Js.replaceWsRuns false q
                       ++ Js.lit "/" ++ Js.toString (Z.of_nat i))) by reflexivity.
  assert (I : Js.includes (Js.lit "://") target = true) by (rewrite Hs; reflexivity).
  assert (B : Js.eqb (Js.trim target) newtabUrl || Js.eqb (Js.trim target) [] = false)
    by (rewrite T, Hs; reflexivity).
  assert (C : classify (Js.trim target) = (target, false)).
  { rewrite T. unfold classify. now rewrite I. }
  destruct (navigate_external amb target target s B C) as (Un & P & _).
  rewrite Hs in Un at 2.
  destruct (afterRender_https s (navigate amb target s) _ Un P) as (s' & A & P' & U' & _).
  exists s'. unfold dispatch. simpl. rewrite A. split; [reflexivity|].
  split; [exact P'|].
  assert (Un' : url (navigate amb target s) = target) by (rewrite Un, Hs; reflexivity).
  split; [now rewrite U'|].
  apply afterRender_stack in A as (-> & -> & _).
  pose proof (navigate_stack amb target s) as N.
  rewrite (committedUrl_absolute target T I) in N.
  destruct N as (Hh & Hx & _). rewrite Hx, Hh. apply index_last.
Qed.

Lemma result_opens_external_page_witness :
  exists r s',
    mockResults (Js.lit "cats") !! 2%nat = Some r
    /\ dispatch sampleAmbient (Navigate (SearchResult.url r)) (initialState 0) = Some s'
    /\ internalPage s' = external.
Proof.
  destruct (result_opens_external_page sampleAmbient (Js.lit "cats") 2
              (mockResult (Js.lit "cats") 2) (initialState 0) eq_refl)
    as (s' & D & P & _).
  exists (mockResult (Js.lit "cats") 2), s'. split; [reflexivity|]. split; assumption.
Defined.

(** ** More on downloads *)

Lemma tickOne_downloadOk (r : Q) (dl : DownloadItem.t) :
  downloadOk dl -> downloadOk (tickOne r dl).
Proof.
  intros H. pose proof H as (He & Hp & Hc). unfold tickOne.
  destruct (DownloadItem.status dl) eqn:S; [|exact H|exact H].
  destruct (Qle_bool (100 # 1) (DownloadItem.progress dl + r * (8 # 1))) eqn:E.
  - split; [simpl; discriminate|]. split; [simpl; lra|]. intros _. reflexivity.
  - split; [simpl; discriminate|]. split; [|simpl; discriminate].
    simpl. destruct (Qlt_le_dec (DownloadItem.progress dl + r * (8 # 1)) (100 # 1)) as [L|L].
    + lra.
    + apply Qle_bool_iff in L. congruence.
Qed.

Lemma tickFrom_downloadOk (amb : Ambient) (dls : list DownloadItem.t) :
  forall k, Forall downloadOk dls -> Forall downloadOk (tickFrom amb k dls).
Proof.
  induction dls as [|d dls IH]; intros k H; [constructor|].
  apply Forall_cons in H as [Hd Hr]. simpl.
  destruct (DownloadItem.status d); constructor;
    try (apply tickOne_downloadOk; exact Hd); apply IH; exact Hr.
Qed.

Lemma dispatch_downloadOk (amb : Ambient) (ev : Event) (s s' : State) :
  Forall downloadOk (downloads s) -> dispatch amb ev s = Some s' ->
  Forall downloadOk (downloads s').
Proof.
  intros IH D. unfold dispatch in D.
  destruct (handle amb ev s) as [s1|] eqn:H; [|discriminate].
  rewrite (afterRender_downloads s s1 s' D). clear D.
  destruct ev; simpl in H.
  - injection H as <-. now rewrite navigate_downloads.
  - unfold handleBack in H. destruct (0 <? historyIndex s)%Z.
    + destruct (index _ _); [|discriminate]. now injection H as <-.
    + now injection H as <-.
  - unfold handleForward in H. destruct (historyIndex s <? _)%Z.
    + destruct (index _ _); [|discriminate]. now injection H as <-.
    + now injection H as <-.
  - injection H as <-. constructor.
  - now injection H as <-.
  - injection H as <-. simpl. now apply tickFrom_downloadOk.
  - injection H as <-. unfold toggleBookmark. now destruct (List.find _ _).
  - unfold importBookmarks in H.
    destruct (Json.parse text) as [[]|]; try (now injection H as <-).
    destruct (asBookmarks items); [|discriminate]. now injection H as <-.
  - injection H as <-. simpl. constructor; [|exact IH].
    split; [simpl; discriminate|]. split; [simpl; lra|]. simpl. discriminate.
Qed.

(** X7. In every state the component can attain, no download is in error,
    none is beyond 100, and the completed ones stand at exactly 100. *)
Theorem downloads_kept (s : State) :
  attainable s ->
  Forall (fun dl =>
            DownloadItem.status dl <> error
            /\ (DownloadItem.progress dl <= 100 # 1)%Q
            /\ (DownloadItem.status dl = completed ->
                DownloadItem.progress dl = 100 # 1))
    (downloads s).
Proof.
  change (attainable s -> Forall downloadOk (downloads s)).
  induction 1 as [t | amb a s s' _ IH P]; [constructor|].
  destruct (action_cases a) as [[ev ->]|NE].
  - exact (dispatch_downloadOk amb ev s s' IH P).
  - destruct (perform_inline amb a s s' NE P)
      as (_ & _ & _ & _ & [->|[->|(dl & -> & Hp & Hs)]]);
      [exact IH|constructor|].
    constructor; [|exact IH].
    split; [rewrite Hs; discriminate|]. split; [rewrite Hp; lra|].
    rewrite Hs. discriminate.
Qed.

Lemma downloads_kept_witness :
  Forall (fun dl =>
            DownloadItem.status dl <> error
            /\ (DownloadItem.progress dl <= 100 # 1)%Q
            /\ (DownloadItem.status dl = completed ->
                DownloadItem.progress dl = 100 # 1))
    (downloads (downloadTick sampleAmbient sessionJustStarted)).
Proof.
  apply downloads_kept. apply reachable_attainable.
  apply (run_reachable sampleAmbient
           [StartDownload (Js.lit "video_7.mp4") video; DownloadTick] (initialState 0));
    [apply reachable_init | vm_compute; reflexivity].
Defined.

(** A tick touches progress and status only. *)
Lemma tickOne_identity (r : Q) (dl : DownloadItem.t) :
  DownloadItem.id (tickOne r dl) = DownloadItem.id dl
  /\ DownloadItem.filename (tickOne r dl) = DownloadItem.filename dl
  /\ DownloadItem.size (tickOne r dl) = DownloadItem.size dl
  /\ DownloadItem.type (tickOne r dl) = DownloadItem.type dl
  /\ DownloadItem.date (tickOne r dl) = DownloadItem.date dl.
Proof.
  unfold tickOne. destruct (DownloadItem.status dl); auto.
  destruct (Qle_bool _ _); auto.
Qed.




(** X9. The media box: an empty box does nothing; otherwise a video download
    named [video_N.mp4], with [N] between 0 and 999 for a random reading in
    [0, 1), starts at progress 0 in front of the others, the downloads panel
    opens and the box is cleared. *)
Theorem media_grab_starts_download (amb : Ambient) (mediaUrl : Js.str) (s : State) :
  handleMediaGrab amb [] s = (s, [])
  /\ (mediaUrl <> [] -> (0 <= random amb 0)%Q -> (random amb 0 < 1)%Q ->
      exists (n : Z) (dl : DownloadItem.t) (s' : State),
        handleMediaGrab amb mediaUrl s = (s', [])
        /\ (0 <= n <= 999)%Z
        /\ downloads s' = dl :: downloads s
        /\ DownloadItem.filename dl
           = Js.lit "video_" ++ Js.toString n ++ Js.lit ".mp4"
        /\ DownloadItem.progress dl = 0 # 1
        /\ DownloadItem.status dl = downloading
        /\ DownloadItem.type dl = video
        /\ DownloadItem.size dl = Js.lit "145.2 MB"
        /\ showDownloads s' = true
        /\ bookmarks s' = bookmarks s /\ url s' = url s).
Proof.
  split; [reflexivity|].
  intros Hne H0 H1. destruct mediaUrl as [|c m]; [contradiction|].
  exists (Qfloor (random amb 0 * (1000 # 1))). eexists. eexists.
  split; [reflexivity|]. split; [|repeat split].
  pose proof (Qfloor_le (random amb 0 * (1000 # 1))) as Hle.
  pose proof (Qlt_floor (random amb 0 * (1000 # 1))) as Hlt.
  split.
  - apply Qfloor_resp_le in H0 as X.
    assert (Z0 : (0 <= random amb 0 * (1000 # 1))%Q) by lra.
    change 0%Z with (Qfloor 0). now apply Qfloor_resp_le.
  - assert (Zl : (inject_Z (Qfloor (random amb 0 * (1000 # 1))) < inject_Z 1000)%Q).
    { change (inject_Z 1000) with (1000 # 1). lra. }
    rewrite <- Zlt_Qlt in Zl. lia.
Qed.

Lemma media_grab_starts_download_witness :
  exists s', handleMediaGrab sampleAmbient (Js.lit "https://a.example/v") (initialState 0)
             = (s', [])
    /\ length (downloads s') = 1%nat /\ showDownloads s' = true.
Proof.
  destruct (proj2 (media_grab_starts_download sampleAmbient
                     (Js.lit "https://a.example/v") (initialState 0)))
    as (n & dl & s' & E & _ & D & _ & _ & _ & _ & _ & S & _).
  - discriminate.
  - simpl. lra.
  - simpl. lra.
  - exists s'. split; [exact E|]. split; [now rewrite D|exact S].
Defined.

(** ** The blocker's counters *)

Lemma navigate_adBlock (amb : Ambient) (input : Js.str) (s : State) :
  adBlockStats (navigate amb input s) = adBlockStats s
  \/ adBlockStats (navigate amb input s) = resetSessionBlocked (adBlockStats s).
Proof.
  unfold navigate.
  destruct (Js.eqb (Js.trim input) newtabUrl || Js.eqb (Js.trim input) []); [now left|].
  destruct (classify (Js.trim input)) as [target [|]]; [|now right].
  destruct (Js.encodeURIComponent target); now right.
Qed.

Lemma afterRender_adBlock (s0 s s' : State) :
  afterRender s0 s = Some s' -> adBlockStats s' = adBlockStats s.
Proof.
  unfold afterRender, syncUrl.
  destruct (Js.eqb (url s) (url s0)); [intros [= <-]; reflexivity|].
  destruct (Js.eqb (url s) newtabUrl); [intros [= <-]; reflexivity|].
  destruct (Js.startsWith _ (url s)); [|intros [= <-]; reflexivity].
  destruct (Js.decodeURIComponent _); [|discriminate].
  destruct (length (searchResults s) =? 0)%nat; intros [= <-]; reflexivity.
Qed.

Lemma dispatch_adBlock (amb : Ambient) (ev : Event) (s s' : State) :
  dispatch amb ev s = Some s' ->
  adBlockStats s' = adBlockStats s
  \/ adBlockStats s' = resetSessionBlocked (adBlockStats s).
Proof.
  intros D. unfold dispatch in D.
  destruct (handle amb ev s) as [s1|] eqn:H; [|discriminate].
  rewrite (afterRender_adBlock s s1 s' D). clear D.
  destruct ev; simpl in H.
  - injection H as <-. apply navigate_adBlock.
  - unfold handleBack in H. destruct (0 <? historyIndex s)%Z.
    + destruct (index _ _); [|discriminate]. injection H as <-. now left.
    + injection H as <-. now left.
  - unfold handleForward in H. destruct (historyIndex s <? _)%Z.
    + destruct (index _ _); [|discriminate]. injection H as <-. now left.
    + injection H as <-. now left.
  - injection H as <-. now left.
  - injection H as <-. now left.
  - injection H as <-. now left.
  - injection H as <-. unfold toggleBookmark. destruct (List.find _ _); now left.
  - unfold importBookmarks in H.
    destruct (Json.parse text) as [[]|]; try (injection H as <-; now left).
    destruct (asBookmarks items); [|discriminate]. injection H as <-. now left.
  - injection H as <-. now left.
Qed.

(** What one handler does to the counters: nothing, a reset of the session
    count, or one more on both. *)
Lemma perform_counters (amb : Ambient) (a : Action) (s s' : State) :
  perform amb a s = Some s' ->
  (totalBlocked (adBlockStats s') = totalBlocked (adBlockStats s)
   /\ (sessionBlocked (adBlockStats s') = sessionBlocked (adBlockStats s)
       \/ sessionBlocked (adBlockStats s') = 0%Z))
  \/ (totalBlocked (adBlockStats s') = (totalBlocked (adBlockStats s) + 1)%Z
      /\ sessionBlocked (adBlockStats s') = (sessionBlocked (adBlockStats s) + 1)%Z
      /\ a = AdBlockTick
      /\ enabled (adBlockStats s) = true /\ isLoading s = true).
Proof.
  destruct a; simpl; try (intros [= <-]; left; simpl; auto; fail).
  - intros D. left. destruct (dispatch_adBlock amb ev s s' D) as [-> | ->]; simpl; auto.
  - intros [= <-]. unfold adBlockTick.
    destruct (enabled (adBlockStats s)) eqn:E; [|left; auto].
    destruct (isLoading s) eqn:L; [|left; auto]. simpl.
    destruct (Qle_bool _ _); [left; auto|]. right. simpl. auto.
  - intros [= <-]. left. unfold handleMediaGrab. destruct mediaUrl; simpl; auto.
Qed.

(** X10. The counters of the blocker: in every attainable state the session
    count is not negative and is at most what was blocked beyond the seeded
    1420. *)
Theorem blocker_counters_kept (s : State) :
  attainable s ->
  (0 <= sessionBlocked (adBlockStats s))%Z
  /\ (1420 + sessionBlocked (adBlockStats s) <= totalBlocked (adBlockStats s))%Z.
Proof.
  induction 1 as [t | amb a s s' _ IH P]; [simpl; lia|].
  destruct (perform_counters amb a s s' P) as [(T & [S|S])|(T & S & _)]; lia.
Qed.

Lemma blocker_counters_kept_witness :
  (0 <= sessionBlocked (adBlockStats sessionAB))%Z
  /\ (1420 + sessionBlocked (adBlockStats sessionAB)
      <= totalBlocked (adBlockStats sessionAB))%Z.
Proof.
  apply blocker_counters_kept. apply reachable_attainable.
  apply (run_reachable sampleAmbient [Navigate urlA; Navigate urlB] (initialState 0));
    [apply reachable_init | vm_compute; reflexivity].
Defined.

(** X11. No handler lowers the total of the blocker, and the only one that
    raises it is the tick, by one, with the blocker enabled and a page
    loading; a tick in any other state changes nothing. *)
Theorem blocked_total_monotone (amb : Ambient) (a : Action) (s s' : State) :
  perform amb a s = Some s' ->
  (totalBlocked (adBlockStats s) <= totalBlocked (adBlockStats s'))%Z
  /\ (totalBlocked (adBlockStats s') <> totalBlocked (adBlockStats s) ->
      a = AdBlockTick /\ enabled (adBlockStats s) = true /\ isLoading s = true
      /\ totalBlocked (adBlockStats s') = (totalBlocked (adBlockStats s) + 1)%Z)
  /\ (enabled (adBlockStats s) && isLoading s = false -> adBlockTick amb s = s).
Proof.
  intros P. split; [|split].
  - destruct (perform_counters amb a s s' P) as [(T & _)|(T & _)]; lia.
  - intros NE. destruct (perform_counters amb a s s' P) as [(T & _)|(T & _ & A & E & L)];
      [contradiction|auto].
  - intros G. unfold adBlockTick. now rewrite G.
Qed.

Lemma blocked_total_monotone_witness :
  (totalBlocked (adBlockStats (initialState 0))
   <= totalBlocked (adBlockStats (adBlockTick sampleAmbient (initialState 0))))%Z
  /\ adBlockTick sampleAmbient (initialState 0) = initialState 0.
Proof.
  destruct (blocked_total_monotone sampleAmbient AdBlockTick (initialState 0)
              (adBlockTick sampleAmbient (initialState 0)) eq_refl) as (M & _ & G).
  split; [exact M|]. apply G. reflexivity.
Defined.

(** ** The network sample *)

Lemma active_count (dls : list DownloadItem.t) :
  (0 <? length (List.filter isDownloading dls))%nat = true ->
  (1 <= inject_Z (Z.of_nat (length (List.filter isDownloading dls))))%Q.
Proof.
  intros H. apply Nat.ltb_lt in H.
  change 1%Q with (inject_Z 1). rewrite <- Zle_Qle. lia.
Qed.

(** X12. The network sample, for readings of the random source in [0, 1):
    both rates are non-negative; down is at most 2000 + 8 MiB + 40 MiB per
    active download; with no page loading and no active download, down is
    at most 2000 and up at most 500 and the activity indicator is dark;
    with an active download, down is at least 15 MiB per active download
    and the indicator is lit. *)
Theorem network_sample_bounds
    (amb : Ambient) (loading : bool) (dls : list DownloadItem.t) :
  (forall k, 0 <= random amb k /\ random amb k < 1)%Q ->
  let sample := netSample amb loading dls in
  let active := inject_Z (Z.of_nat (length (List.filter isDownloading dls))) in
  (0 <= fst sample)%Q /\ (0 <= snd sample)%Q
  /\ (fst sample <= (2000 # 1) + (8 * 1024 * 1024 # 1)
                    + active * (40 * 1024 * 1024 # 1))%Q
  /\ (loading = false -> List.filter isDownloading dls = [] ->
      (fst sample <= 2000 # 1)%Q /\ (snd sample <= 500 # 1)%Q
      /\ activityLit sample = false)
  /\ (List.filter isDownloading dls <> [] ->
      (active * (15 * 1024 * 1024 # 1) <= fst sample)%Q
      /\ activityLit sample = true).
Proof.
  intros R sample active.
  pose proof (R 0%nat) as R0. pose proof (R 1%nat) as R1. pose proof (R 2%nat) as R2.
  pose proof (R 3%nat) as R3. pose proof (R 4%nat) as R4. pose proof (R 5%nat) as R5.
  assert (A0 : (0 <= active)%Q).
  { unfold active. change 0%Q with (inject_Z 0). rewrite <- Zle_Qle. lia. }
  assert (Lit : forall x : Q, (1024 * 1024 # 1 < x)%Q -> negb (Qle_bool x (1024 * 1024 # 1)) = true).
  { intros x Hx. destruct (Qle_bool x (1024 * 1024 # 1)) eqn:E; [|reflexivity].
    apply Qle_bool_iff in E. lra. }
  assert (Dark : forall x : Q, (x <= 1024 * 1024 # 1)%Q -> negb (Qle_bool x (1024 * 1024 # 1)) = false).
  { intros x Hx. apply Qle_bool_iff in Hx. now rewrite Hx. }
  unfold sample, netSample, activityLit. fold active.
  change (8 * 1024 * 1024)%Z with 8388608%Z in *.
  change (40 * 1024 * 1024)%Z with 41943040%Z in *.
  change (15 * 1024 * 1024)%Z with 15728640%Z in *.
  change (1024 * 1024)%Z with 1048576%Z in *.
  change (200 * 1024)%Z with 204800%Z in *.
  destruct (0 <? length (List.filter isDownloading dls))%nat eqn:E.
  - pose proof (active_count dls E) as A1. fold active in A1.
    assert (NE : List.filter isDownloading dls <> []).
    { intros X. rewrite X in E. discriminate. }
    destruct loading; cbn [fst snd].
    + pose proof (Qmult_le_0_compat _ _ A0 (proj1 R4)) as M4.
      pose proof (Qmult_le_0_compat _ _ A0 (proj1 R5)) as M5.
      assert (U4 : (active * random amb 4 <= active)%Q) by nra.
      split; [lra|]. split; [lra|]. split; [lra|].
      split; [intros _ X; contradiction|].
      intros _. split; [lra|]. apply Lit. lra.
    + pose proof (Qmult_le_0_compat _ _ A0 (proj1 R2)) as M2.
      pose proof (Qmult_le_0_compat _ _ A0 (proj1 R3)) as M3.
      assert (U2 : (active * random amb 2 <= active)%Q) by nra.
      split; [lra|]. split; [lra|]. split; [lra|].
      split; [intros _ X; contradiction|].
      intros _. split; [lra|]. apply Lit. lra.
  - apply Nat.ltb_ge in E.
    assert (Z0 : List.filter isDownloading dls = []).
    { destruct (List.filter isDownloading dls); [reflexivity|simpl in E; lia]. }
    destruct loading; cbn [fst snd].
    + split; [lra|]. split; [lra|]. split; [lra|].
      split; [discriminate|]. intros X. contradiction.
    + split; [lra|]. split; [lra|]. split; [lra|].
      split; [|intros X; contradiction].
      intros _ _. split; [lra|]. split; [lra|]. apply Dark. lra.
Qed.

Lemma network_sample_bounds_witness :
  (fst (netSample sampleAmbient false []) <= 2000 # 1)%Q
  /\ activityLit (netSample sampleAmbient false []) = false.
Proof.
  assert (R : (forall k, 0 <= random sampleAmbient k /\ random sampleAmbient k < 1)%Q)
    by (intros k; simpl; lra).
  destruct (network_sample_bounds sampleAmbient false [] R) as (_ & _ & _ & I & _).
  destruct (I eq_refl eq_refl) as (D & _ & L). split; assumption.
Defined.

(** ** The side panels *)



(** ** Strings as JSON text *)

Lemma hexVal_hexLower (d : N) : (d < 16)%N -> Js.hexVal (hexLower d) = Some d.
Proof.
  intros H. unfold Js.hexVal, hexLower.
  destruct (d <? 10)%N eqn:E; [apply N.ltb_lt in E | apply N.ltb_ge in E];
    settle_comparisons; simpl; f_equal; lia.
Qed.

Lemma parseString_unicodeEscape (c : N) (rest : Js.str) :
  (c < 65536)%N ->
  Json.parseString (unicodeEscape c ++ rest) = consUnit c (Json.parseString rest).
Proof.
  intros H. unfold unicodeEscape. cbn [app Json.parseString].
  change (92 =? 34)%N with false. change (92 =? 92)%N with true.
  change (117 =? 117)%N with true. cbv iota.
  rewrite !hexVal_hexLower by lia.
  replace (4096 * (c / 4096) + 256 * ((c / 256) mod 16) + 16 * ((c / 16) mod 16)
           + c mod 16)%N with c by lia.
  reflexivity.
Qed.

Lemma parseString_literal (c : N) (rest : Js.str) :
  c <> 34%N -> c <> 92%N -> (32 <= c)%N ->
  Json.parseString (c :: rest) = consUnit c (Json.parseString rest).
Proof.
  intros H1 H2 H3. cbn [Json.parseString]. settle_comparisons. reflexivity.
Qed.

Lemma parseString_quoteUnit (c : N) (rest : Js.str) :
  Json.parseString (quoteUnit c ++ rest) = consUnit c (Json.parseString rest).
Proof.
  unfold quoteUnit.
  destruct (c =? 8)%N eqn:E1; [apply N.eqb_eq in E1; subst; reflexivity|].
  destruct (c =? 9)%N eqn:E2; [apply N.eqb_eq in E2; subst; reflexivity|].
  destruct (c =? 10)%N eqn:E3; [apply N.eqb_eq in E3; subst; reflexivity|].
  destruct (c =? 12)%N eqn:E4; [apply N.eqb_eq in E4; subst; reflexivity|].
  destruct (c =? 13)%N eqn:E5; [apply N.eqb_eq in E5; subst; reflexivity|].
  destruct (c =? 34)%N eqn:E6; [apply N.eqb_eq in E6; subst; reflexivity|].
  destruct (c =? 92)%N eqn:E7; [apply N.eqb_eq in E7; subst; reflexivity|].
  apply N.eqb_neq in E6, E7.
  destruct (c <? 32)%N eqn:E8; [apply N.ltb_lt in E8 | apply N.ltb_ge in E8].
  - apply parseString_unicodeEscape. lia.
  - now apply parseString_literal.
Qed.

Lemma surrogate_range (c : N) :
  Js.isLead c = true \/ Js.isTrail c = true -> (55296 <= c < 57344)%N.
Proof.
  unfold Js.isLead, Js.isTrail.
  intros [H|H]; apply andb_prop in H as [H1 H2]; apply N.leb_le in H1, H2; lia.
Qed.

(** The string token written for [s] reads back as [s]. *)
Lemma parseString_quoteUnits (n : nat) :
  forall (s rest : Js.str), (length s <= n)%nat ->
    Json.parseString (quoteUnits s ++ 34%N :: rest) = Some (s, rest).
Proof.
  induction n as [|n IH]; intros s rest L.
  - destruct s; [reflexivity|simpl in L; lia].
  - destruct s as [|c r]; [reflexivity|]. simpl in L.
    cbn [quoteUnits].
    destruct (Js.isLead c) eqn:Ld.
    + pose proof (surrogate_range c (or_introl Ld)) as Rc.
      destruct r as [|d r'].
      * rewrite parseString_unicodeEscape by lia. reflexivity.
      * destruct (Js.isTrail d) eqn:Td.
        -- pose proof (surrogate_range d (or_intror Td)) as Rd.
           cbn [app]. rewrite parseString_literal by lia.
           rewrite parseString_literal by lia.
           rewrite IH by (simpl in L; lia). reflexivity.
        -- rewrite <- app_assoc, parseString_unicodeEscape by lia.
           rewrite IH by lia. reflexivity.
    + destruct (Js.isTrail c) eqn:Tr.
      * pose proof (surrogate_range c (or_intror Tr)) as Rc.
        rewrite <- app_assoc, parseString_unicodeEscape by lia.
        rewrite IH by lia. reflexivity.
      * rewrite <- app_assoc, parseString_quoteUnit.
        rewrite IH by lia. reflexivity.
Qed.

Lemma stringifyString_value (s : Js.str) :
  isValueText (stringifyString s) (Json.JString s).
Proof.
  intros fuel c rest _. unfold stringifyString, quoted.
  cbn [app Json.parseValue]. rewrite skipWs_cons by reflexivity.
  rewrite N.eqb_refl, <- app_assoc. cbn [app].
  rewrite (parseString_quoteUnits (length s)) by lia. reflexivity.
Qed.

(** X14. A string cell of the store: whatever the string holds (quotes,
    backslashes, control characters, surrogates with or without partner),
    the text [JSON.stringify] writes for it is read back by [JSON.parse] as
    the same string, so a URL saved under a key is the URL loaded from it,
    with nothing for the diagnostics. *)
Theorem string_cell_round_trip
    (key u : Js.str) (d : Json.value) (storage : gmap Js.str Js.str) :
  Json.parse (stringifyString u) = Some (Json.JString u)
  /\ loadState Json.parse key d (saveState stringifyString key u storage)
     = (Json.JString u, []).
Proof.
  assert (P : Json.parse (stringifyString u) = Some (Json.JString u)).
  { unfold Json.parse.
    replace (2 * length (stringifyString u) + 2)%nat
      with (S (2 * length (stringifyString u) + 1))%nat by lia.
    unfold stringifyString, quoted.
    cbn [app Json.parseValue]. rewrite skipWs_cons by reflexivity.
    rewrite N.eqb_refl, (parseString_quoteUnits (length u)) by lia. reflexivity. }
  split; [exact P|].
  unfold loadState, saveState. rewrite lookup_insert_eq.
  rewrite P. unfold stringifyString, quoted. reflexivity.
Qed.

(** ** Bookmarks as JSON text *)

Lemma member_app (key text : Js.str) (delimiter : N) (r rest : Js.str) :
  member key text delimiter r ++ rest = member key text delimiter (r ++ rest).
Proof.
  unfold member. cbn [app]. rewrite <- !app_assoc. cbn [app].
  rewrite <- !app_assoc. reflexivity.
Qed.

Lemma bookmark_keys_plain :
  isPlainKey (Js.lit "id") /\ isPlainKey (Js.lit "title")
  /\ isPlainKey (Js.lit "url") /\ isPlainKey (Js.lit "createdAt").
Proof. repeat split; intros r; reflexivity. Qed.

Lemma parseValue_bookmark (fuel : nat) (b : Bookmark.t) (rest : Js.str) :
  Json.parseValue (S (S (S (S (S (S fuel)))))) (stringifyBookmark b ++ rest)
  = Some (bookmarkValue b, rest).
Proof.
  unfold stringifyBookmark. cbn [app]. rewrite !member_app. cbn [app].
  cbn [Json.parseValue]. rewrite skipWs_cons by reflexivity.
  change (123 =? 34)%N with false. change (123 =? 91)%N with false.
  rewrite N.eqb_refl.
  unfold member at 1. rewrite skipWs_cons by reflexivity.
  change (34 =? 125)%N with false. cbv iota.
  change (34%N :: Js.lit "id" ++ 34%N :: 58%N :: stringifyString (Bookmark.id b) ++ 44%N :: ?r)
    with (member (Js.lit "id") (stringifyString (Bookmark.id b)) 44 r).
  destruct bookmark_keys_plain as (K1 & K2 & K3 & K4).
  rewrite (parseMembers_more _ _ _ _ _ K1 (stringifyString_value _)).
  rewrite (parseMembers_more _ _ _ _ _ K2 (stringifyString_value _)).
  rewrite (parseMembers_more _ _ _ _ _ K3 (stringifyString_value _)).
  rewrite (parseMembers_last _ _ _ _ _ K4 (toString_value _)).
  reflexivity.
Qed.

Lemma asBookmark_bookmarkValue (b : Bookmark.t) : asBookmark (bookmarkValue b) = Some b.
Proof.
  unfold asBookmark, bookmarkValue.
  change (Json.getProp (Js.lit "id") _) with (Some (Json.JString (Bookmark.id b))).
  change (Json.getProp (Js.lit "title") _) with (Some (Json.JString (Bookmark.title b))).
  change (Json.getProp (Js.lit "url") _) with (Some (Json.JString (Bookmark.url b))).
  change (Json.getProp (Js.lit "createdAt") _)
    with (Some (Json.JNumber (Json.decimal (Bookmark.createdAt b) 0))).
  rewrite decimal_integer. destruct b; reflexivity.
Qed.

Lemma asBookmarks_bookmarkValues (bs : list Bookmark.t) :
  asBookmarks (List.map bookmarkValue bs) = Some bs.
Proof.
  induction bs as [|b bs IH]; [reflexivity|].
  cbn [List.map asBookmarks]. now rewrite asBookmark_bookmarkValue, IH.
Qed.

Lemma stringifyBookmark_head (b : Bookmark.t) :
  exists r, stringifyBookmark b = 123%N :: 34%N :: r.
Proof. eexists. reflexivity. Qed.

Lemma parseElements_step (fuel : nat) (s : Js.str) :
  Json.parseElements (S fuel) s
  = match Json.parseValue fuel s with
    | Some (v, r) =>
        match Json.skipWs r with
        | c :: r1 =>
            if (c =? 44)%N then
              match Json.parseElements fuel r1 with
              | Some (vs, r2) => Some (v :: vs, r2)
              | None => None
              end
            else if (c =? 93)%N then Some ([v], r1)
            else None
        | [] => None
        end
    | None => None
    end.
Proof. reflexivity. Qed.

Lemma parseElements_bookmarks (bs : list Bookmark.t) :
  forall (fuel : nat) (b : Bookmark.t) (rest : Js.str),
    Json.parseElements (S (S (S (S (S (S (S (length bs + fuel))))))))
      (stringifyBookmark b ++ stringifyMore bs ++ rest)
    = Some (List.map bookmarkValue (b :: bs), rest).
Proof.
  induction bs as [|b' bs IH]; intros fuel b rest.
  - rewrite parseElements_step, parseValue_bookmark.
    cbn [stringifyMore app]. rewrite skipWs_cons by reflexivity.
    change (93 =? 44)%N with false. rewrite N.eqb_refl. reflexivity.
  - cbn [length Nat.add]. rewrite parseElements_step.
    rewrite (parseValue_bookmark (S (length bs + fuel))).
    cbn [stringifyMore app]. rewrite skipWs_cons by reflexivity.
    rewrite N.eqb_refl, <- app_assoc, IH. reflexivity.
Qed.

Lemma length_stringifyMore (bs : list Bookmark.t) :
  (length bs < length (stringifyMore bs))%nat.
Proof.
  induction bs as [|b bs IH]; cbn [stringifyMore length]; [lia|].
  rewrite length_app. lia.
Qed.

(** The text written for the bookmarks parses to an array of their values. *)
Lemma parse_stringifyBookmarks (bs : list Bookmark.t) :
  Json.parse (stringifyBookmarks bs) = Some (Json.JArray (List.map bookmarkValue bs)).
Proof.
  destruct bs as [|b bs]; [reflexivity|].
  unfold Json.parse.
  assert (L : exists k, (2 * length (stringifyBookmarks (b :: bs)) + 2
                         = S (S (S (S (S (S (S (S (length bs + k)))))))))%nat).
  { pose proof (length_stringifyMore bs) as M.
    destruct (stringifyBookmark_head b) as (r & Hb).
    exists (2 * length (stringifyBookmarks (b :: bs)) + 2 - 8 - length bs)%nat.
    cbn [stringifyBookmarks length]. rewrite length_app, Hb.
    cbn [stringifyBookmarks length]. lia. }
  destruct L as [k ->].
  destruct (stringifyBookmark_head b) as (r & Hb).
  cbn [stringifyBookmarks Json.parseValue]. rewrite skipWs_cons by reflexivity.
  change (91 =? 34)%N with false. rewrite N.eqb_refl.
  replace (Json.skipWs (stringifyBookmark b ++ stringifyMore bs))
    with (123%N :: 34%N :: r ++ stringifyMore bs)
    by (rewrite Hb; reflexivity).
  change (123 =? 93)%N with false. cbv iota.
  rewrite <- (app_nil_r (stringifyMore bs)), parseElements_bookmarks.
  reflexivity.
Qed.

(** ** Surrogates *)

Lemma unreserved_ascii (c : N) : Js.isUnreserved c = true -> (c < 128)%N.
Proof.
  intros H. destruct (c <? 128)%N eqn:E; [now apply N.ltb_lt in E|].
  apply N.ltb_ge in E. exfalso. revert H.
  unfold Js.isUnreserved, Js.isAlnum. settle_comparisons. discriminate.
Qed.

Lemma below_surrogates (c : N) :
  (c < 55296)%N -> Js.isLead c = false /\ Js.isTrail c = false.
Proof.
  intros H. unfold Js.isLead, Js.isTrail. settle_comparisons. split; reflexivity.
Qed.

Lemma lead_not_trail (c : N) : Js.isLead c = true -> Js.isTrail c = false.
Proof.
  unfold Js.isLead, Js.isTrail. intros H. apply andb_prop in H as [H1 H2].
  apply N.leb_le in H1, H2. settle_comparisons. reflexivity.
Qed.

(** [encodeURIComponent] throws on the strings that are not well formed,
    and on no other. *)
Lemma encode_wellFormed (n : nat) :
  forall s, (length s <= n)%nat ->
    match Js.encodeURIComponent s with Some _ => true | None => false end
    = isWellFormed s.
Proof.
  induction n as [|n IH]; intros s L.
  - destruct s; [reflexivity|simpl in L; lia].
  - destruct s as [|c r]; [reflexivity|]. simpl in L.
    cbn [Js.encodeURIComponent isWellFormed].
    destruct (Js.isUnreserved c) eqn:U.
    + destruct (below_surrogates c) as [-> ->];
        [pose proof (unreserved_ascii c U); lia|].
      cbn [negb andb]. rewrite <- (IH r) by lia.
      destruct (Js.encodeURIComponent r); reflexivity.
    + destruct (Js.isTrail c) eqn:Tr.
      * destruct (Js.isLead c) eqn:Ld; [|reflexivity].
        apply lead_not_trail in Ld. congruence.
      * destruct (Js.isLead c) eqn:Ld.
        -- destruct r as [|d r']; [reflexivity|].
           destruct (Js.isTrail d); [|reflexivity].
           cbn [andb]. rewrite <- (IH r') by (simpl in L; lia).
           destruct (Js.encodeURIComponent r'); reflexivity.
        -- cbn [negb andb]. rewrite <- (IH r) by lia.
           destruct (Js.encodeURIComponent r); reflexivity.
Qed.

Lemma wellFormed_cons (c : N) (s : Js.str) :
  (c < 55296)%N -> isWellFormed (c :: s) = isWellFormed s.
Proof.
  intros H. cbn [isWellFormed]. destruct (below_surrogates c H) as [-> ->]. reflexivity.
Qed.

Lemma wellFormed_app (n : nat) :
  forall a b, (length a <= n)%nat ->
    isWellFormed a = true -> isWellFormed b = true -> isWellFormed (a ++ b) = true.
Proof.
  induction n as [|n IH]; intros a b L A B.
  - destruct a; [exact B|simpl in L; lia].
  - destruct a as [|c r]; [exact B|]. simpl in L.
    cbn [app isWellFormed] in *.
    destruct (Js.isLead c).
    + destruct r as [|d r']; [discriminate|]. cbn [app].
      apply andb_prop in A as [-> A]. cbn [andb].
      apply IH; [simpl in L; lia|assumption..].
    + apply andb_prop in A as [-> A]. cbn [andb]. apply IH; [lia|assumption..].
Qed.

Lemma wellFormed_ascii (s : Js.str) :
  Forall (fun c => (c < 128)%N) s -> isWellFormed s = true.
Proof.
  induction 1 as [|c s H _ IH]; [reflexivity|].
  rewrite wellFormed_cons by lia. exact IH.
Qed.

Lemma hexLower_ascii (d : N) : (d < 16)%N -> (hexLower d < 128)%N.
Proof. intros H. unfold hexLower. destruct (d <? 10)%N; lia. Qed.

Lemma unicodeEscape_ascii (c : N) :
  (c < 65536)%N -> Forall (fun c => (c < 128)%N) (unicodeEscape c).
Proof.
  intros H. unfold unicodeEscape.
  repeat (constructor; [first [lia | apply hexLower_ascii; lia]|]). constructor.
Qed.

(** What [quoteUnit] writes for a unit that is no surrogate: ASCII, or the
    unit. *)
Lemma quoteUnit_units (c : N) :
  Forall (fun x => (x < 128)%N \/ x = c) (quoteUnit c).
Proof.
  unfold quoteUnit.
  repeat match goal with
         | |- context [if (c =? ?k)%N then _ else _] =>
             destruct (c =? k)%N; [repeat constructor; lia|]
         end.
  destruct (c <? 32)%N eqn:E.
  - apply N.ltb_lt in E.
    eapply Forall_impl; [apply unicodeEscape_ascii; lia|].
    intros x Hx. simpl in Hx. now left.
  - constructor; [now right|constructor].
Qed.

Lemma wellFormed_units (c : N) (l : Js.str) :
  Js.isLead c = false -> Js.isTrail c = false ->
  Forall (fun x => (x < 128)%N \/ x = c) l -> isWellFormed l = true.
Proof.
  intros Ld Tr. induction 1 as [|x l H _ IH]; [reflexivity|].
  cbn [isWellFormed]. destruct H as [H| ->].
  - destruct (below_surrogates x) as [-> ->]; [lia|]. exact IH.
  - rewrite Ld, Tr. exact IH.
Qed.

Lemma quoteUnits_wellFormed (n : nat) :
  forall s, (length s <= n)%nat -> isWellFormed (quoteUnits s) = true.
Proof.
  induction n as [|n IH]; intros s L.
  - destruct s; [reflexivity|simpl in L; lia].
  - destruct s as [|c r]; [reflexivity|]. simpl in L.
    cbn [quoteUnits].
    destruct (Js.isLead c) eqn:Ld.
    + pose proof (surrogate_range c (or_introl Ld)) as Rc.
      destruct r as [|d r'].
      * apply wellFormed_ascii, unicodeEscape_ascii. lia.
      * destruct (Js.isTrail d) eqn:Td.
        -- cbn [isWellFormed]. rewrite Ld, Td. cbn [andb].
           apply IH. simpl in L. lia.
        -- apply (wellFormed_app 6); [reflexivity| |apply IH; lia].
           apply wellFormed_ascii, unicodeEscape_ascii. lia.
    + destruct (Js.isTrail c) eqn:Tr.
      * pose proof (surrogate_range c (or_intror Tr)) as Rc.
        apply (wellFormed_app 6); [reflexivity| |apply IH; lia].
        apply wellFormed_ascii, unicodeEscape_ascii. lia.
      * apply (wellFormed_app (length (quoteUnit c))); [lia| |apply IH; lia].
        exact (wellFormed_units c _ Ld Tr (quoteUnit_units c)).
Qed.

Lemma wf_quoteUnits (n : nat) :
  forall s, (length s <= n)%nat -> Js.wf s -> Js.wf (quoteUnits s).
Proof.
  assert (A : forall l, Forall (fun c => (c < 128)%N) l -> Js.wf l).
  { intros l H. eapply Forall_impl; [exact H|]. intros x Hx. simpl in Hx. lia. }
  induction n as [|n IH]; intros s L W.
  - destruct s; [constructor|simpl in L; lia].
  - destruct s as [|c r]; [constructor|]. simpl in L.
    apply Forall_cons in W as [Wc Wr].
    cbn [quoteUnits].
    destruct (Js.isLead c).
    + destruct r as [|d r'].
      * apply A, unicodeEscape_ascii. exact Wc.
      * apply Forall_cons in Wr as [Wd Wr'].
        destruct (Js.isTrail d).
        -- constructor; [exact Wc|]. constructor; [exact Wd|].
           apply IH; [simpl in L; lia|exact Wr'].
        -- apply Forall_app. split; [apply A, unicodeEscape_ascii; exact Wc|].
           apply IH; [lia|]. now constructor.
    + destruct (Js.isTrail c).
      * apply Forall_app. split; [apply A, unicodeEscape_ascii; exact Wc|].
        apply IH; [lia|exact Wr].
      * apply Forall_app. split; [|apply IH; [lia|exact Wr]].
        eapply Forall_impl; [apply quoteUnit_units|].
        intros x [Hx| ->]; simpl; [lia|exact Wc].
Qed.

Lemma toString_ascii (z : Z) : Forall (fun c => (c < 128)%N) (Js.toString z).
Proof.
  assert (D : forall n, Forall (fun c => (c < 128)%N) (Js.N_toString n)).
  { intros n. destruct (N_toString_spec n) as (d & ds & -> & Hall & _).
    eapply Forall_impl; [exact Hall|]. intros x Hx. simpl in Hx.
    unfold Json.isDigit in Hx. apply andb_prop in Hx as [_ Hx].
    apply N.leb_le in Hx. lia. }
  unfold Js.toString. destruct (z <? 0)%Z; [constructor; [lia|]|]; apply D.
Qed.

(** ** The exported file *)

Lemma stringifyString_wellFormed (s : Js.str) :
  isWellFormed (stringifyString s) = true.
Proof.
  unfold stringifyString, quoted. cbn [app]. rewrite wellFormed_cons by lia.
  apply (wellFormed_app (length (quoteUnits s))); [lia| |reflexivity].
  apply (quoteUnits_wellFormed (length s)). lia.
Qed.

Lemma member_wellFormed (key text : Js.str) (delimiter : N) (rest : Js.str) :
  Forall (fun c => (c < 128)%N) key -> isWellFormed text = true ->
  (delimiter < 128)%N -> isWellFormed rest = true ->
  isWellFormed (member key text delimiter rest) = true.
Proof.
  intros K T D R. unfold member. rewrite wellFormed_cons by lia.
  apply (wellFormed_app (length key)); [lia|now apply wellFormed_ascii|].
  rewrite !wellFormed_cons by lia.
  apply (wellFormed_app (length text)); [lia|exact T|].
  now rewrite wellFormed_cons by lia.
Qed.

Lemma lit_ascii_keys :
  Forall (fun c => (c < 128)%N) (Js.lit "id")
  /\ Forall (fun c => (c < 128)%N) (Js.lit "title")
  /\ Forall (fun c => (c < 128)%N) (Js.lit "url")
  /\ Forall (fun c => (c < 128)%N) (Js.lit "createdAt").
Proof. repeat split; repeat (constructor; [reflexivity|]); constructor. Qed.

Lemma stringifyBookmark_wellFormed (b : Bookmark.t) :
  isWellFormed (stringifyBookmark b) = true.
Proof.
  destruct lit_ascii_keys as (K1 & K2 & K3 & K4).
  unfold stringifyBookmark. rewrite wellFormed_cons by lia.
  repeat (apply member_wellFormed;
          [assumption | first [apply stringifyString_wellFormed
                              | apply wellFormed_ascii, toString_ascii]
          | lia | ]).
  reflexivity.
Qed.

Lemma stringifyMore_wellFormed (bs : list Bookmark.t) :
  isWellFormed (stringifyMore bs) = true.
Proof.
  induction bs as [|b bs IH]; [reflexivity|].
  cbn [stringifyMore]. rewrite wellFormed_cons by lia.
  apply (wellFormed_app (length (stringifyBookmark b)));
    [lia|apply stringifyBookmark_wellFormed|exact IH].
Qed.

Lemma stringifyBookmarks_wellFormed (bs : list Bookmark.t) :
  isWellFormed (stringifyBookmarks bs) = true.
Proof.
  destruct bs as [|b bs]; [reflexivity|].
  cbn [stringifyBookmarks]. rewrite wellFormed_cons by lia.
  apply (wellFormed_app (length (stringifyBookmark b)));
    [lia|apply stringifyBookmark_wellFormed|apply stringifyMore_wellFormed].
Qed.

Lemma wf_ascii (l : Js.str) : Forall (fun c => (c < 128)%N) l -> Js.wf l.
Proof. intros H. eapply Forall_impl; [exact H|]. intros x Hx. simpl in Hx. lia. Qed.

Lemma wf_stringifyString (s : Js.str) : Js.wf s -> Js.wf (stringifyString s).
Proof.
  intros W. unfold stringifyString, quoted.
  apply Forall_app. split; [repeat constructor|].
  apply Forall_app. split; [|repeat constructor].
  apply (wf_quoteUnits (length s)); [lia|exact W].
Qed.

Lemma wf_member (key text : Js.str) (delimiter : N) (rest : Js.str) :
  Forall (fun c => (c < 128)%N) key -> Js.wf text ->
  (delimiter < 128)%N -> Js.wf rest ->
  Js.wf (member key text delimiter rest).
Proof.
  intros K T D R. unfold member.
  constructor; [lia|]. apply Forall_app. split; [now apply wf_ascii|].
  constructor; [lia|]. constructor; [lia|].
  apply Forall_app. split; [exact T|]. constructor; [lia|exact R].
Qed.

Lemma wf_stringifyBookmark (b : Bookmark.t) :
  wfBookmark b -> Js.wf (stringifyBookmark b).
Proof.
  intros (W1 & W2 & W3).
  destruct lit_ascii_keys as (K1 & K2 & K3 & K4).
  unfold stringifyBookmark. constructor; [lia|].
  repeat (apply wf_member;
          [assumption | first [now apply wf_stringifyString
                              | apply wf_ascii, toString_ascii]
          | lia | ]).
  constructor.
Qed.

Lemma wf_stringifyMore (bs : list Bookmark.t) :
  Forall wfBookmark bs -> Js.wf (stringifyMore bs).
Proof.
  induction 1 as [|b bs H _ IH]; [repeat constructor|].
  cbn [stringifyMore]. constructor; [lia|].
  apply Forall_app. split; [now apply wf_stringifyBookmark|exact IH].
Qed.

Lemma wf_stringifyBookmarks (bs : list Bookmark.t) :
  Forall wfBookmark bs -> Js.wf (stringifyBookmarks bs).
Proof.
  intros [|b bs' H Hs]; [repeat constructor|].
  cbn [stringifyBookmarks]. constructor; [lia|].
  apply Forall_app. split; [now apply wf_stringifyBookmark|now apply wf_stringifyMore].
Qed.

(** X15. The text [JSON.stringify] writes for a list of bookmarks is an
    array for [importBookmarks]: importing it appends exactly those
    bookmarks, in their order, and logs nothing, whatever their titles
    and addresses hold. *)
Theorem exported_text_imports_back (bs : list Bookmark.t) (s : State) :
  importBookmarks (stringifyBookmarks bs) s
  = Some (setBookmarks (bookmarks s ++ bs) s, [])
  /\ forall amb, exists s',
       dispatch amb (ImportBookmarks (stringifyBookmarks bs)) s = Some s'
       /\ bookmarks s' = bookmarks s ++ bs.
Proof.
  assert (I : importBookmarks (stringifyBookmarks bs) s
              = Some (setBookmarks (bookmarks s ++ bs) s, [])).
  { unfold importBookmarks.
    now rewrite parse_stringifyBookmarks, asBookmarks_bookmarkValues. }
  split; [exact I|]. intros amb.
  unfold dispatch. cbn [handle]. rewrite I.
  unfold afterRender. cbn [url setBookmarks]. rewrite eqb_refl.
  eexists. split; reflexivity.
Qed.

(** X16. [exportBookmarks] never throws: the text it encodes has no
    surrogate without partner, since [JSON.stringify] escapes those.  The
    [href] it makes is the data prefix and a component that, when the
    strings of the bookmarks are strings of 16-bit units, decodes to the
    JSON text of the bookmarks. *)
Theorem export_never_throws (s : State) :
  exists e,
    exportBookmarks s = Some (Js.lit "data:text/json;charset=utf-8," ++ e)
    /\ (Forall wfBookmark (bookmarks s) ->
        Js.decodeURIComponent e = Some (stringifyBookmarks (bookmarks s))).
Proof.
  unfold exportBookmarks.
  pose proof (encode_wellFormed _ (stringifyBookmarks (bookmarks s)) (le_n _)) as E.
  rewrite stringifyBookmarks_wellFormed in E.
  destruct (Js.encodeURIComponent (stringifyBookmarks (bookmarks s))) as [e|] eqn:X;
    [|discriminate].
  exists e. split; [reflexivity|].
  intros W. apply decode_encode; [now apply wf_stringifyBookmarks|exact X].
Qed.

Lemma export_never_throws_witness :
  exists e,
    exportBookmarks (initialState 0)
    = Some (Js.lit "data:text/json;charset=utf-8," ++ e)
    /\ Js.decodeURIComponent e = Some (stringifyBookmarks (bookmarks (initialState 0))).
Proof.
  destruct (export_never_throws (initialState 0)) as (e & X & D).
  exists e. split; [exact X|]. apply D.
  repeat (constructor;
          [repeat split; unfold Js.wf; repeat (constructor; [reflexivity|]); constructor|]).
  constructor.
Defined.

(** ** A query that cannot be encoded *)

(** X17. [navigate] commits a URL for every input that is well formed
    after the trim.  For an input where it commits none, the trimmed input
    holds a surrogate without partner and was taken for a search; the
    address, the stack, its index, the visit log and the results are as
    before, the page is the search page for that query, and the loading
    flag is set. *)
Theorem lone_surrogate_query (amb : Ambient) (input : Js.str) (s : State) :
  (isWellFormed (Js.trim input) = true -> exists u, committedUrl input = Some u)
  /\ (committedUrl input = None ->
      isWellFormed (Js.trim input) = false
      /\ classify (Js.trim input) = (Js.trim input, true)
      /\ url (navigate amb input s) = url s
      /\ history (navigate amb input s) = history s
      /\ historyIndex (navigate amb input s) = historyIndex s
      /\ visitedHistory (navigate amb input s) = visitedHistory s
      /\ searchResults (navigate amb input s) = searchResults s
      /\ internalPage (navigate amb input s) = search
      /\ searchQuery (navigate amb input s) = Js.trim input
      /\ isLoading (navigate amb input s) = true).
Proof.
  assert (C : forall t, snd (classify t) = true -> fst (classify t) = t).
  { intros t. unfold classify.
    destruct (negb (Js.includes (Js.lit "://") t) && _); [|discriminate].
    destruct (Js.includes (Js.lit ".") t && _); [discriminate|reflexivity]. }
  unfold committedUrl, navigate.
  destruct (Js.eqb (Js.trim input) newtabUrl || Js.eqb (Js.trim input) []).
  { split; [eauto|discriminate]. }
  pose proof (C (Js.trim input)) as Ct.
  destruct (classify (Js.trim input)) as [query [|]].
  2:{ split; [eauto|discriminate]. }
  cbn [fst snd] in Ct. rewrite (Ct eq_refl).
  pose proof (encode_wellFormed _ (Js.trim input) (le_n _)) as E.
  destruct (Js.encodeURIComponent (Js.trim input)) as [e|].
  - split; [eauto|discriminate].
  - split; [intros W; rewrite W in E; discriminate|].
    intros _. repeat split. now symmetry.
Qed.

Lemma lone_surrogate_query_witness :
  isWellFormed (Js.trim [55357%N]) = false
  /\ url (navigate sampleAmbient [55357%N] (initialState 0)) = url (initialState 0).
Proof.
  destruct (lone_surrogate_query sampleAmbient [55357%N] (initialState 0)) as [_ N].
  destruct (N eq_refl) as (W & _ & U & _). split; assumption.
Defined.

(** ** The bin beside a bookmark *)

(** X18. The bin removes by id: afterwards the list holds the bookmarks
    with another id, in their order, and a second click changes nothing.
    It undoes the star: when the address is not bookmarked and no bookmark
    carries the reading of the clock as its id, starring the page and then
    binning the new entry gives the list back. *)
Theorem bin_removes_by_id (amb : Ambient) (id : Js.str) (s : State) :
  (forall b, In b (bookmarks (deleteBookmark id s))
             <-> In b (bookmarks s) /\ Bookmark.id b <> id)
  /\ deleteBookmark id (deleteBookmark id s) = deleteBookmark id s
  /\ (List.find (fun b => Js.eqb (Bookmark.url b) (url s)) (bookmarks s) = None ->
      List.find (fun b => Js.eqb (Bookmark.id b) (Js.toString (dateNow amb 0)))
        (bookmarks s) = None ->
      deleteBookmark (Js.toString (dateNow amb 0)) (toggleBookmark amb s) = s).
Proof.
  split; [|split].
  - intros b. unfold deleteBookmark. cbn [bookmarks setBookmarks].
    rewrite List.filter_In, negb_true_iff, eqb_neq. reflexivity.
  - unfold deleteBookmark. cbn [bookmarks setBookmarks].
    rewrite (filter_negb_idem (fun b => Js.eqb (Bookmark.id b) id)).
    destruct s; reflexivity.
  - intros U F. unfold toggleBookmark. rewrite U.
    unfold deleteBookmark. cbn [bookmarks setBookmarks].
    rewrite (filter_negb_snoc (fun b => Js.eqb (Bookmark.id b) (Js.toString (dateNow amb 0))))
      by apply eqb_refl.
    rewrite (find_none_filter _ _ F). destruct s; reflexivity.
Qed.

Lemma bin_removes_by_id_witness :
  deleteBookmark (Js.toString (dateNow sampleAmbient 0))
    (toggleBookmark sampleAmbient (initialState 0))
  = initialState 0.
Proof.
  destruct (bin_removes_by_id sampleAmbient [] (initialState 0)) as (_ & _ & R).
  apply R; reflexivity.
Defined.

(** ** Cells of the store *)

(** X19. The cells of the store do not disturb one another.  A load under a
    key that is absent, or present with the empty text, gives the default
    and logs nothing, without asking [JSON.parse]; a load logs at most one
    line, and what it returns is the default or the parse of the stored
    text; a save under another key does not change it; of two saves under
    one key the second stands; and the keys of the component are pairwise
    different. *)
Theorem persistent_cells_isolated
    {T U : Type} (parse : Js.str -> option T) (stringify : U -> Js.str)
    (key key' : Js.str) (d : T) (v w : U) (storage : gmap Js.str Js.str) :
  (storage !! key = None \/ storage !! key = Some [] ->
   loadState parse key d storage = (d, []))
  /\ (length (snd (loadState parse key d storage)) <= 1)%nat
  /\ (fst (loadState parse key d storage) = d
      \/ exists item, storage !! key = Some item
                      /\ parse item = Some (fst (loadState parse key d storage)))
  /\ (key <> key' ->
      loadState parse key d (saveState stringify key' v storage)
      = loadState parse key d storage)
  /\ saveState stringify key w (saveState stringify key v storage)
     = saveState stringify key w storage
  /\ NoDup persistentKeys.
Proof.
  split; [|split; [|split; [|split; [|split]]]].
  - unfold loadState. intros [-> | ->]; reflexivity.
  - unfold loadState. destruct (storage !! key) as [[|c item]|]; simpl; try lia.
    destruct (parse (c :: item)); simpl; lia.
  - unfold loadState. destruct (storage !! key) as [[|c item]|] eqn:L; simpl; auto.
    destruct (parse (c :: item)) eqn:P; simpl; eauto.
  - intros NE. unfold loadState, saveState.
    rewrite lookup_insert_ne by congruence. reflexivity.
  - unfold saveState. apply insert_insert_eq.
  - unfold persistentKeys.
    repeat (apply NoDup_cons_2;
            [rewrite ?elem_of_cons, elem_of_nil;
             intros H; repeat (destruct H as [H|H]; [discriminate H|]); exact H|]).
    apply NoDup_nil_2.
Qed.

Lemma persistent_cells_isolated_witness :
  loadState parseAdBlock adBlockKey sampleStats
    (saveState stringifyString (Js.lit "chimera_url") newtabUrl ∅)
  = (sampleStats, []).
Proof.
  destruct (persistent_cells_isolated parseAdBlock stringifyString adBlockKey
              (Js.lit "chimera_url") sampleStats newtabUrl newtabUrl ∅)
    as (A & _ & _ & B & _).
  rewrite B by discriminate. apply A. left. reflexivity.
Defined.

(** ** The dashboard *)

Lemma length_lastN {A : Type} (n : nat) (l : list A) :
  length (App.lastN n l) = Nat.min (length l) n.
Proof. unfold App.lastN. rewrite length_drop. lia. Qed.

Lemma lastN_short {A : Type} (n : nat) (l : list A) :
  (length l <= n)%nat -> App.lastN n l = l.
Proof.
  intros H. unfold App.lastN. replace (length l - n)%nat with 0%nat by lia. reflexivity.
Qed.

Lemma newPoint_inBand (timeStr : Js.str) (amb : Ambient) :
  App.unitRandom amb -> App.inBand (App.newPoint timeStr amb).
Proof.
  intros R. destruct (R 0%nat) as [A0 B0]. destruct (R 1%nat) as [A1 B1].
  unfold App.inBand, App.newPoint. simpl. repeat split; lra.
Qed.

Lemma step_resourceData (amb : Ambient) (a : App.Step) (s : App.Cells) :
  App.resourceData (App.step amb a s) = App.resourceData s
  \/ exists timeStr,
       App.resourceData (App.step amb a s)
       = App.lastN 20 (App.resourceData s ++ [App.newPoint timeStr amb]).
Proof. destruct a; simpl; eauto. Qed.

(** X20. The window of resource samples: in every attainable state of the
    dashboard it holds at most 20 samples, each with cpu between 10 and 25
    and memory between 200 and 250. *)
Theorem resource_window_kept (s : App.Cells) :
  App.attainable s ->
  (length (App.resourceData s) <= 20)%nat
  /\ Forall App.inBand (App.resourceData s).
Proof.
  induction 1 as [|amb a s _ [IHl IHb] R]; [split; [simpl; lia|constructor]|].
  destruct (step_resourceData amb a s) as [-> | [t ->]]; [now split|].
  split; [rewrite length_lastN; lia|].
  unfold App.lastN. apply Forall_drop, Forall_app. split; [exact IHb|].
  constructor; [now apply newPoint_inBand|constructor].
Qed.

Lemma resource_window_kept_witness :
  (length (App.resourceData
             (App.step sampleAmbient (App.Tick (Js.lit "10:00:06")) App.initialCells))
   <= 20)%nat.
Proof.
  apply resource_window_kept.
  apply App.attainable_step; [apply App.attainable_init|].
  intros k. simpl. split; lra.
Defined.

Lemma tick_more (timeStr : Js.str) (amb : Ambient) (s : App.Cells) :
  exists more,
    App.logs (App.tick timeStr amb s) = App.logs s ++ more
    /\ (length more <= 1)%nat
    /\ Forall (fun l => App.LogEntry.level l <> App.ERROR) more.
Proof.
  cbn [App.tick App.logs]. eexists. split; [reflexivity|].
  unfold App.newLog.
  destruct (Qle_bool (random amb 2) (8 # 10)); [split; [simpl; lia|constructor]|].
  destruct (negb (Qle_bool (random amb 3) (9 # 10)));
    [split; [simpl; lia|repeat constructor; discriminate]|].
  destruct (negb (Qle_bool (random amb 3) (6 # 10)));
    (split; [simpl; lia|repeat constructor; discriminate]).
Qed.

(** X21. One tick of the interval slides the window: the new sample is
    the last one; while there are fewer than 20 samples it is appended and
    nothing is dropped, and at 20 the oldest sample is dropped and the
    others keep their order.  The tick leaves the modules alone and adds
    at most one line to the log, never an ERROR. *)
Theorem tick_slides_window (timeStr : Js.str) (amb : Ambient) (s : App.Cells) :
  last (App.resourceData (App.tick timeStr amb s)) = Some (App.newPoint timeStr amb)
  /\ ((length (App.resourceData s) < 20)%nat ->
      App.resourceData (App.tick timeStr amb s)
      = App.resourceData s ++ [App.newPoint timeStr amb])
  /\ (length (App.resourceData s) = 20%nat ->
      App.resourceData (App.tick timeStr amb s)
      = drop 1 (App.resourceData s) ++ [App.newPoint timeStr amb])
  /\ App.modules (App.tick timeStr amb s) = App.modules s
  /\ exists more,
       App.logs (App.tick timeStr amb s) = App.logs s ++ more
       /\ (length more <= 1)%nat
       /\ Forall (fun l => App.LogEntry.level l <> App.ERROR) more.
Proof.
  split; [|split; [|split; [|split]]].
  - cbn [App.tick App.resourceData]. unfold App.lastN.
    rewrite length_app. cbn [length].
    destruct (decide (length (App.resourceData s) + 1 - 20 <= length (App.resourceData s))%nat)
      as [L|L]; [|lia].
    rewrite drop_app_le by exact L. apply last_snoc.
  - intros L. cbn [App.tick App.resourceData]. apply lastN_short.
    rewrite length_app. cbn [length]. lia.
  - intros L. cbn [App.tick App.resourceData]. unfold App.lastN.
    rewrite length_app. cbn [length]. rewrite L. cbn [Nat.add Nat.sub].
    rewrite drop_app_le by lia. reflexivity.
  - reflexivity.
  - apply tick_more.
Qed.

Lemma tick_slides_window_witness :
  App.resourceData (App.tick (Js.lit "10:00:06") sampleAmbient App.initialCells)
  = App.resourceData App.initialCells
    ++ [App.newPoint (Js.lit "10:00:06") sampleAmbient].
Proof.
  destruct (tick_slides_window (Js.lit "10:00:06") sampleAmbient App.initialCells)
    as (_ & A & _).
  apply A. simpl. lia.
Defined.

Lemma flip_flip (id : Js.str) (m : App.SecurityModule.t) :
  App.flip id (App.flip id m) = m.
Proof.
  destruct m as [i n e st d]. unfold App.flip. simpl.
  destruct (Js.eqb i id) eqn:E; simpl; rewrite ?E, ?negb_involutive; reflexivity.
Qed.

Lemma flip_fixedPart (id : Js.str) (m : App.SecurityModule.t) :
  App.fixedPart (App.flip id m) = App.fixedPart m.
Proof. unfold App.flip. destruct (Js.eqb _ _); reflexivity. Qed.

Lemma step_fixedPart (amb : Ambient) (a : App.Step) (s : App.Cells) :
  List.map App.fixedPart (App.modules (App.step amb a s))
  = List.map App.fixedPart (App.modules s).
Proof.
  destruct a; simpl; try reflexivity.
  rewrite List.map_map. apply List.map_ext. intros m. apply flip_fixedPart.
Qed.

(** X22. The switch of a security module: twice the same switch gives the
    modules back; a switch changes the enabled flag of the modules with
    that id and nothing else of any module; and it writes one WARN line to
    the log naming the id, also when no module carries it. *)
Theorem toggle_module_twice
    (t1 t2 : Js.str) (amb1 amb2 : Ambient) (id : Js.str) (s : App.Cells) :
  App.modules (App.toggleModule t2 amb2 id (App.toggleModule t1 amb1 id s))
  = App.modules s
  /\ List.map App.fixedPart (App.modules (App.toggleModule t1 amb1 id s))
     = List.map App.fixedPart (App.modules s)
  /\ (forall i m, App.modules s !! i = Some m ->
      exists m', App.modules (App.toggleModule t1 amb1 id s) !! i = Some m'
        /\ App.SecurityModule.enabled m'
           = xorb (App.SecurityModule.enabled m) (Js.eqb (App.SecurityModule.id m) id))
  /\ exists line,
       App.logs (App.toggleModule t1 amb1 id s) = App.logs s ++ [line]
       /\ App.LogEntry.level line = App.WARN
       /\ App.LogEntry.message line
          = Js.lit "Security module " ++ id ++ Js.lit " toggled by admin".
Proof.
  split; [|split; [|split]].
  - cbn [App.toggleModule App.modules]. rewrite List.map_map.
    rewrite (List.map_ext _ (fun m => m)); [apply List.map_id|].
    intros m. apply flip_flip.
  - exact (step_fixedPart amb1 (App.ToggleModule t1 id) s).
  - intros i m L. cbn [App.toggleModule App.modules].
    exists (App.flip id m).
    split; [change (List.map (App.flip id) (App.modules s))
              with (App.flip id <$> App.modules s);
            now rewrite list_lookup_fmap, L|].
    unfold App.flip. destruct (Js.eqb (App.SecurityModule.id m) id); simpl;
      [now rewrite xorb_true_r|now rewrite xorb_false_r].
  - eexists. split; [reflexivity|]. split; reflexivity.
Qed.

Lemma toggle_module_twice_witness :
  exists m',
    App.modules (App.toggleModule (Js.lit "10:00:06") sampleAmbient (Js.lit "netns")
                   App.initialCells) !! 3%nat = Some m'
    /\ App.SecurityModule.enabled m' = true.
Proof.
  destruct (toggle_module_twice (Js.lit "10:00:06") (Js.lit "10:00:07") sampleAmbient
              sampleAmbient (Js.lit "netns") App.initialCells) as (_ & _ & T & _).
  destruct (T 3%nat _ eq_refl) as (m' & L & E).
  exists m'. split; [exact L|exact E].
Defined.

(** X23. What the dashboard never does: whatever is switched, every module
    keeps its id, name, status and description, so AppArmor reads [active]
    also when it is disabled; and the log only grows at its end, the six
    lines of the start are its first six, and no line added has level
    ERROR. *)
Theorem dashboard_never (s : App.Cells) :
  App.attainable s ->
  List.map App.fixedPart (App.modules s) = List.map App.fixedPart App.initialModules
  /\ exists more,
       App.logs s = App.INITIAL_LOGS ++ more
       /\ Forall (fun l => App.LogEntry.level l <> App.ERROR) more.
Proof.
  induction 1 as [|amb a s _ [IHm (more & IHl & IHe)] R].
  - split; [reflexivity|]. exists []. split; [reflexivity|constructor].
  - split; [now rewrite step_fixedPart|].
    destruct a as [t|t id0|tab].
    + destruct (tick_more t amb s) as (m1 & L1 & _ & E1).
      exists (more ++ m1).
      split; [change (App.step amb (App.Tick t) s) with (App.tick t amb s);
              rewrite L1, IHl; symmetry; apply app_assoc|].
      apply Forall_app. now split.
    + exists (more ++ [App.LogEntry.mk (Js.toString (dateNow amb 0)) t App.WARN
                        (Js.lit "user_action")
                        (Js.lit "Security module " ++ id0 ++ Js.lit " toggled by admin")]).
      split; [cbn [App.step App.toggleModule App.logs]; rewrite IHl;
              symmetry; apply app_assoc|].
      apply Forall_app. split; [exact IHe|]. repeat constructor. discriminate.
    + exists more. split; [exact IHl|exact IHe].
Qed.

Lemma dashboard_never_witness :
  List.map App.fixedPart
    (App.modules (App.step sampleAmbient
                    (App.ToggleModule (Js.lit "10:00:06") (Js.lit "apparmor"))
                    App.initialCells))
  = List.map App.fixedPart App.initialModules.
Proof.
  apply dashboard_never.
  apply App.attainable_step; [apply App.attainable_init|].
  intros k. simpl. split; lra.
Defined.

(** ** Back to a search by its address *)

Lemma unreserved_printable (c : N) : Js.isUnreserved c = true -> isPrintable c.
Proof.
  intros H. split; [|now apply unreserved_ascii].
  destruct (33 <=? c)%N eqn:E; [now apply N.leb_le in E|].
  apply N.leb_gt in E. exfalso. revert H.
  unfold Js.isUnreserved, Js.isAlnum. settle_comparisons. discriminate.
Qed.

Lemma hexDigit_printable (d : N) : (d < 16)%N -> isPrintable (Js.hexDigit d).
Proof. intros H. unfold isPrintable, Js.hexDigit. destruct (d <? 10)%N; lia. Qed.

Lemma utf8_octets (cp : N) :
  (cp < 1114112)%N -> Forall (fun b => (b < 256)%N) (Js.utf8 cp).
Proof.
  intros H. unfold Js.utf8.
  destruct (cp <? 128)%N eqn:E1; [apply N.ltb_lt in E1; repeat constructor; lia|].
  destruct (cp <? 2048)%N eqn:E2; [apply N.ltb_lt in E2; repeat constructor; lia|].
  destruct (cp <? 65536)%N eqn:E3; [apply N.ltb_lt in E3|]; repeat constructor; lia.
Qed.

Lemma pctAll_printable (bs : list N) :
  Forall (fun b => (b < 256)%N) bs -> Forall isPrintable (Js.pctAll bs).
Proof.
  induction 1 as [|b bs H _ IH]; [constructor|].
  change (Js.pctAll (b :: bs))
    with (37%N :: Js.hexDigit (b / 16) :: Js.hexDigit (b mod 16) :: Js.pctAll bs).
  constructor; [unfold isPrintable; lia|].
  constructor; [apply hexDigit_printable; lia|].
  constructor; [apply hexDigit_printable; lia|exact IH].
Qed.

Lemma lead_range (c : N) : Js.isLead c = true -> (55296 <= c <= 56319)%N.
Proof.
  unfold Js.isLead. intros H. apply andb_prop in H as [H1 H2].
  apply N.leb_le in H1, H2. lia.
Qed.

Lemma trail_range (c : N) : Js.isTrail c = true -> (56320 <= c <= 57343)%N.
Proof.
  unfold Js.isTrail. intros H. apply andb_prop in H as [H1 H2].
  apply N.leb_le in H1, H2. lia.
Qed.

(** An encoded component is printable ASCII throughout. *)
Lemma encode_printable (k : nat) :
  forall s e, (length s <= k)%nat -> Js.wf s ->
    Js.encodeURIComponent s = Some e -> Forall isPrintable e.
Proof.
  induction k as [|k IH]; intros s e Hk W Henc.
  - destruct s; [|simpl in Hk; lia]. injection Henc as <-. constructor.
  - destruct s as [|c rest]; [injection Henc as <-; constructor|].
    apply Forall_cons in W as [Wc Wr].
    simpl in Hk. cbn [Js.encodeURIComponent] in Henc.
    destruct (Js.isUnreserved c) eqn:U.
    + destruct (Js.encodeURIComponent rest) as [r|] eqn:Er; [|discriminate].
      injection Henc as <-.
      constructor; [now apply unreserved_printable|]. apply (IH rest); [lia|exact Wr|exact Er].
    + destruct (Js.isTrail c); [discriminate|].
      destruct (Js.isLead c) eqn:Ld.
      * destruct rest as [|d rest']; [discriminate|].
        apply Forall_cons in Wr as [Wd Wr'].
        destruct (Js.isTrail d) eqn:Td; [|discriminate].
        destruct (Js.encodeURIComponent rest') as [r|] eqn:Er; [|discriminate].
        injection Henc as <-.
        pose proof (lead_range c Ld) as Rc.
        pose proof (trail_range d Td) as Rd.
        apply Forall_app. split.
        -- apply pctAll_printable, utf8_octets. lia.
        -- simpl in Hk. apply (IH rest'); [lia|exact Wr'|exact Er].
      * destruct (Js.encodeURIComponent rest) as [r|] eqn:Er; [|discriminate].
        injection Henc as <-. apply Forall_app. split.
        -- apply pctAll_printable, utf8_octets. lia.
        -- apply (IH rest); [lia|exact Wr|exact Er].
Qed.

Lemma printable_not_whiteSpace (c : N) : isPrintable c -> Js.isWhiteSpace c = false.
Proof.
  intros [H1 H2]. unfold Js.isWhiteSpace. settle_comparisons. reflexivity.
Qed.

Lemma dropWhile_printable (s : Js.str) :
  Forall isPrintable s -> Js.dropWhile Js.isWhiteSpace s = s.
Proof.
  intros [|c r H _]; [reflexivity|].
  cbn [Js.dropWhile]. now rewrite printable_not_whiteSpace.
Qed.

Lemma trim_printable (s : Js.str) : Forall isPrintable s -> Js.trim s = s.
Proof.
  intros H. unfold Js.trim. rewrite (dropWhile_printable s H).
  rewrite dropWhile_printable by (now apply Forall_rev).
  apply rev_involutive.
Qed.

(** X24. Going to a search by its address, as a click on its line in the
    visit log does: [navigate] takes the address of the search for [q] as
    an address, not as a query.  From another page the URL effect then
    shows the search page for [q], with the results on display kept when
    there are any; from that very address no effect runs and the external
    page is left showing. *)
Theorem revisit_search_by_address (amb : Ambient) (q e : Js.str) (s : State) :
  Js.wf q -> Js.encodeURIComponent q = Some e ->
  exists s',
    dispatch amb (Navigate (Js.lit "chimera://search?q=" ++ e)) s = Some s'
    /\ url s' = Js.lit "chimera://search?q=" ++ e
    /\ (url s <> Js.lit "chimera://search?q=" ++ e ->
        internalPage s' = search /\ searchQuery s' = q
        /\ searchResults s'
           = match searchResults s with [] => mockResults q | _ => searchResults s end)
    /\ (url s = Js.lit "chimera://search?q=" ++ e ->
        internalPage s' = external /\ searchQuery s' = searchQuery s
        /\ searchResults s' = searchResults s).
Proof.
  intros W E. set (u := Js.lit "chimera://search?q=" ++ e).
  assert (P : Forall isPrintable u).
  { apply Forall_app. split.
    - repeat (constructor; [unfold isPrintable; simpl; lia|]). constructor.
    - exact (encode_printable (length q) q e (le_n _) W E). }
  assert (T : Js.trim u = u) by now apply trim_printable.
  assert (B : Js.eqb (Js.trim u) newtabUrl || Js.eqb (Js.trim u) [] = false)
    by (rewrite T; reflexivity).
  assert (C : classify (Js.trim u) = (u, false)) by (rewrite T; reflexivity).
  destruct (navigate_external amb u u s B C) as (U & I & R & _).
  assert (Q : searchQuery (navigate amb u s) = searchQuery s).
  { unfold navigate. rewrite B, C. reflexivity. }
  unfold dispatch. cbn [handle]. unfold afterRender. rewrite U.
  destruct (Js.eqb u (url s)) eqn:X.
  - apply eqb_eq in X. eexists. split; [reflexivity|]. split; [exact U|].
    split; [intros NE; congruence|]. intros _. auto.
  - apply eqb_neq in X.
    destruct (syncUrl_search (navigate amb u s) q e W E U) as (s' & S & U' & I' & Q' & R').
    exists s'. split; [exact S|]. split; [now rewrite U', U|].
    split; [|intros Y; congruence].
    intros _. split; [exact I'|]. split; [exact Q'|]. now rewrite R', R.
Qed.

Lemma revisit_search_by_address_witness :
  exists s',
    dispatch sampleAmbient (Navigate (Js.lit "chimera://search?q=best%20coffee%20shop"))
      (initialState 0) = Some s'
    /\ internalPage s' = search /\ searchQuery s' = Js.lit "best coffee shop".
Proof.
  destruct (revisit_search_by_address sampleAmbient (Js.lit "best coffee shop")
              (Js.lit "best%20coffee%20shop") (initialState 0))
    as (s' & D & _ & A & _).
  - exact wf_best_coffee_shop.
  - reflexivity.
  - destruct A as (I & Q & _); [discriminate|].
    exists s'. split; [exact D|]. split; assumption.
Defined.
